(** * Relayer: path-addressed edits of a configuration tree

    A shallow embedding of [relayer/core/__init__.py] and
    [relayer/core/helpers.py].

    Modelling conventions.
    - A configuration is a tree of Python objects: [None], [bool], [int],
      [float], [str], [list] and [dict].  [str] and its ruamel subclasses
      (quoted scalar strings) are identified, as are [list]/[CommentedSeq] and
      [dict]/[CommentedMap]: they compare and hash alike.  Text is ASCII.
    - A dict is an association list in insertion order whose keys are hashable
      scalars; lookups use Python's key equality, so [1], [True] and [1.0]
      name the same entry.
    - A float is kept as the decimal number it denotes ([m * 10^e]), plus
      infinities and NaN; rounding to binary64 is not modelled.
    - The code mutates the tree in place and returns it.  Here every function
      returns the new tree; where the code keeps a second reference to a node
      that a helper mutates ([subsection] and [section[level]]), the reference
      is re-read after the helper ran.  Sharing that already exists inside a
      loaded document (YAML anchors) is not tracked.
    - An exception is a [Raise] result; the orchestrator never dumps a tree
      after one, so no tree is attached to it.  What the edits made in place
      have left in the tree by then is given apart, by
      [update_section_in_place].
    - One object stored at several places is not tracked either: when
      [_assign_subsection] puts a subsection into several elements of a
      list, they are equal values here and one object in the program.
    - Logging is dropped, and with it the [scope] argument that only feeds
      log messages. *)

From Stdlib Require Import ZArith List String Ascii Bool Lia DecimalString.
Import ListNotations.
Open Scope string_scope.
Open Scope list_scope.
Set Warnings "-register-all".

(** ** Exceptions and results *)

Inductive exn : Type :=
| RuntimeError (msg : string)
| IndexError (msg : string)
| ValueError (msg : string)
| Exception_ (msg : string)
| TypeError
| KeyError
| AttributeError.

Inductive result (A : Type) : Type :=
| Ok (a : A)
| Raise (e : exn).

Arguments Ok {A} a.
Arguments Raise {A} e.

Definition bind {A B : Type} (r : result A) (k : A -> result B) : result B :=
  match r with
  | Ok a => k a
  | Raise e => Raise e
  end.

Notation "x <- r ;; k" := (bind r (fun x => k))
  (at level 61, r at next level, right associativity).
Notation "' p <- r ;; k" := (bind r (fun p => k))
  (at level 61, p pattern, r at next level, right associativity).

(** ** Python objects *)

Inductive pyfloat : Type :=
| FNaN
| FInf (neg : bool)
| FDec (m e : Z).

Inductive atom : Type :=
| ANone
| ABool (b : bool)
| AInt (z : Z)
| AFloat (f : pyfloat)
| AStr (s : string).

Inductive value : Type :=
| VAtom (a : atom)
| VList (l : list value)
| VDict (d : list (atom * value)).

Definition dict : Type := list (atom * value).

Definition vnone : value := VAtom ANone.
Definition vstr (s : string) : value := VAtom (AStr s).
Definition vint (z : Z) : value := VAtom (AInt z).
Definition vbool (b : bool) : value := VAtom (ABool b).

(** [x is None] *)
Definition is_none (v : value) : bool :=
  match v with
  | VAtom ANone => true
  | _ => false
  end.

(** ** Equality of scalars

    Numbers compare by value across [bool], [int] and [float]; NaN equals
    nothing.  A number [m * 10^e] is brought to the form where [m] has no
    trailing zero. *)

Fixpoint strip_zeros (fuel : nat) (m e : Z) : Z * Z :=
  match fuel with
  | O => (m, e)
  | S n =>
      if (m =? 0)%Z then (0%Z, 0%Z)
      else if (m mod 10 =? 0)%Z then strip_zeros n (m / 10)%Z (e + 1)%Z
      else (m, e)
  end.

Definition normalize (m e : Z) : Z * Z :=
  strip_zeros (S (Z.to_nat (Z.log2 (Z.abs m)))) m e.

Inductive canon : Type :=
| CNone
| CNum (m e : Z)
| CInf (neg : bool)
| CNaN
| CStr (s : string).

Definition canon_of (a : atom) : canon :=
  match a with
  | ANone => CNone
  | ABool b => CNum (Z.b2z b) 0
  | AInt z => let '(m, e) := normalize z 0 in CNum m e
  | AFloat FNaN => CNaN
  | AFloat (FInf neg) => CInf neg
  | AFloat (FDec m e) => let '(m', e') := normalize m e in CNum m' e'
  | AStr s => CStr s
  end.

Definition canon_eqb (x y : canon) : bool :=
  match x, y with
  | CNone, CNone => true
  | CNum m1 e1, CNum m2 e2 => (m1 =? m2)%Z && (e1 =? e2)%Z
  | CInf a, CInf b => Bool.eqb a b
  | CStr s, CStr t => String.eqb s t
  | _, _ => false
  end.

(** [a == b] on scalars; also the test a dict applies to its keys. *)
Definition atom_eqb (a b : atom) : bool := canon_eqb (canon_of a) (canon_of b).

(** ** Dicts: insertion-ordered, keys compared with [==] *)

Section DictOps.
Context {V : Type}.

(** [d[k]], [None] when [k not in d] *)
Fixpoint dict_get (d : list (atom * V)) (k : atom) : option V :=
  match d with
  | [] => None
  | (k', v) :: tl => if atom_eqb k' k then Some v else dict_get tl k
  end.

(** [k in d] *)
Definition dict_mem (d : list (atom * V)) (k : atom) : bool :=
  match dict_get d k with
  | Some _ => true
  | None => false
  end.

(** [d[k] = v]: an existing entry keeps its key and its place. *)
Fixpoint dict_set (d : list (atom * V)) (k : atom) (v : V) : list (atom * V) :=
  match d with
  | [] => [(k, v)]
  | (k', v') :: tl =>
      if atom_eqb k' k then (k', v) :: tl else (k', v') :: dict_set tl k v
  end.

(** [del d[k]] / [d.pop(k)] for a key that is present *)
Fixpoint dict_del (d : list (atom * V)) (k : atom) : list (atom * V) :=
  match d with
  | [] => []
  | (k', v') :: tl =>
      if atom_eqb k' k then tl else (k', v') :: dict_del tl k
  end.
End DictOps.

(** ** Equality of trees: [v1 == v2]

    Lists compare element by element; dicts compare as mappings, whatever the
    order of their entries. *)

Fixpoint py_eq (v1 v2 : value) {struct v1} : bool :=
  match v1, v2 with
  | VAtom a, VAtom b => atom_eqb a b
  | VList l1, VList l2 =>
      (fix list_eq (xs ys : list value) {struct xs} : bool :=
         match xs, ys with
         | [], [] => true
         | x :: xs', y :: ys' => py_eq x y && list_eq xs' ys'
         | _, _ => false
         end) l1 l2
  | VDict d1, VDict d2 =>
      Nat.eqb (List.length d1) (List.length d2) &&
      (fix entries_eq (es : list (atom * value)) {struct es} : bool :=
         match es with
         | [] => true
         | (k, v) :: tl =>
             match dict_get d2 k with
             | Some v' => py_eq v v'
             | None => false
             end && entries_eq tl
         end) d1
  | _, _ => false
  end.

(** ** Strings *)

Definition ascii_in (c : ascii) (cs : list ascii) : bool :=
  existsb (Ascii.eqb c) cs.

(** [c in s] for a one-character [c] *)
Fixpoint contains_char (c : ascii) (s : string) : bool :=
  match s with
  | EmptyString => false
  | String x r => Ascii.eqb x c || contains_char c r
  end.

(** [s.split(c)] *)
Fixpoint split_char (c : ascii) (s : string) : list string :=
  match s with
  | EmptyString => [EmptyString]
  | String x r =>
      if Ascii.eqb x c then EmptyString :: split_char c r
      else match split_char c r with
           | [] => [String x EmptyString]
           | hd :: tl => String x hd :: tl
           end
  end.

(** [s.split(c, 1)] when [c in s]: the text before and after the first [c] *)
Fixpoint split_once (c : ascii) (s : string) : option (string * string) :=
  match s with
  | EmptyString => None
  | String x r =>
      if Ascii.eqb x c then Some (EmptyString, r)
      else match split_once c r with
           | Some (a, b) => Some (String x a, b)
           | None => None
           end
  end.

Definition is_space (c : ascii) : bool :=
  let n := nat_of_ascii c in
  ((9 <=? n) && (n <=? 13) || (28 <=? n) && (n <=? 32))%nat.

Fixpoint lstrip (s : string) : string :=
  match s with
  | EmptyString => EmptyString
  | String c r => if is_space c then lstrip r else s
  end.

Fixpoint rstrip (s : string) : string :=
  match s with
  | EmptyString => EmptyString
  | String c r =>
      match rstrip r with
      | EmptyString => if is_space c then EmptyString else String c EmptyString
      | r' => String c r'
      end
  end.

(** [s.strip()] *)
Definition strip (s : string) : string := rstrip (lstrip s).

Definition lower_char (c : ascii) : ascii :=
  let n := nat_of_ascii c in
  if ((65 <=? n) && (n <=? 90))%nat then ascii_of_nat (n + 32) else c.

(** [s.lower()] *)
Fixpoint lower (s : string) : string :=
  match s with
  | EmptyString => EmptyString
  | String c r => String (lower_char c) (lower r)
  end.

Definition string_in (s : string) (l : list string) : bool :=
  existsb (String.eqb s) l.

(** [needle in s] on strings *)
Definition py_substring (needle s : string) : bool :=
  match String.index 0 needle s with
  | Some _ => true
  | None => false
  end.

Definition is_digit (c : ascii) : bool :=
  let n := nat_of_ascii c in ((48 <=? n) && (n <=? 57))%nat.

(** [s.isdigit()] *)
Fixpoint all_digits (s : string) : bool :=
  match s with
  | EmptyString => true
  | String c r => is_digit c && all_digits r
  end.

Definition isdigit (s : string) : bool :=
  match s with
  | EmptyString => false
  | _ => all_digits s
  end.

Definition digit_val (c : ascii) : Z := Z.of_nat (nat_of_ascii c - 48).

(** value of a string of decimal digits *)
Definition digits_to_Z (s : string) : Z :=
  fold_left (fun acc c => (acc * 10 + digit_val c)%Z) (list_ascii_of_string s) 0%Z.

(** A run of digits in which single underscores may sit between two digits,
    as [int] and [float] accept it; returns the digits alone. *)
Fixpoint digitpart (after_digit : bool) (s : string) : option string :=
  match s with
  | EmptyString => if after_digit then Some EmptyString else None
  | String c r =>
      if is_digit c then option_map (String c) (digitpart true r)
      else if Ascii.eqb c "_" && after_digit then digitpart false r
      else None
  end.

(** leading sign: [(negative, rest)] *)
Definition split_sign (s : string) : bool * string :=
  match s with
  | String "-" r => (true, r)
  | String "+" r => (false, r)
  | _ => (false, s)
  end.

(** [int(s)], [None] standing for [ValueError].  CPython 3.11 and later
    also refuse a text of more than 4300 digits; that ceiling is not part of
    the function here, and a statement that needs [int] to accept a long
    text bounds its length. *)
Definition py_int (s : string) : option Z :=
  let '(neg, r) := split_sign (strip s) in
  match digitpart false r with
  | Some ds => Some (if neg then (- digits_to_Z ds)%Z else digits_to_Z ds)
  | None => None
  end.

(** text before and after the first [e] or [E] *)
Fixpoint split_exponent (s : string) : string * option string :=
  match s with
  | EmptyString => (EmptyString, None)
  | String c r =>
      if Ascii.eqb c "e" || Ascii.eqb c "E" then (EmptyString, Some r)
      else let '(a, b) := split_exponent r in (String c a, b)
  end.

(** digits of a mantissa [int-part [. frac-part]]: all digits and the number
    of those after the point *)
Definition mantissa (s : string) : option (string * nat) :=
  match split_once "." s with
  | None =>
      match digitpart false s with
      | Some ds => Some (ds, 0%nat)
      | None => None
      end
  | Some (ip, fp) =>
      match ip, fp with
      | EmptyString, EmptyString => None
      | EmptyString, _ =>
          match digitpart false fp with
          | Some fs => Some (fs, String.length fs)
          | None => None
          end
      | _, EmptyString =>
          match digitpart false ip with
          | Some ds => Some (ds, 0%nat)
          | None => None
          end
      | _, _ =>
          match digitpart false ip, digitpart false fp with
          | Some ds, Some fs => Some ((ds ++ fs)%string, String.length fs)
          | _, _ => None
          end
      end
  end.

Definition exponent (s : option string) : option Z :=
  match s with
  | None => Some 0%Z
  | Some t =>
      let '(neg, r) := split_sign t in
      match digitpart false r with
      | Some ds => Some (if neg then (- digits_to_Z ds)%Z else digits_to_Z ds)
      | None => None
      end
  end.

(** [float(s)], [None] standing for [ValueError] *)
Definition py_float (s : string) : option pyfloat :=
  let '(neg, r) := split_sign (strip s) in
  let l := lower r in
  if string_in l ["inf"; "infinity"] then Some (FInf neg)
  else if String.eqb l "nan" then Some FNaN
  else
    let '(ms, es) := split_exponent r in
    match mantissa ms, exponent es with
    | Some (ds, nfrac), Some ex =>
        let m := digits_to_Z ds in
        let '(m', e') := normalize (if neg then (- m)%Z else m) (ex - Z.of_nat nfrac)%Z in
        Some (FDec m' e')
    | _, _ => None
    end.

(** ** helpers.py *)

(** [as_list] *)
Definition as_list (element : value) : list value :=
  match element with
  | VList l => l
  | _ => [element]
  end.

(** [try_convert_to_bool], [None] standing for [ValueError] *)
Definition try_convert_to_bool (inner_value : string) : option bool :=
  if string_in (lower inner_value) ["true"; "t"; "y"; "yes"] then Some true
  else if string_in (lower inner_value) ["false"; "f"; "n"; "no"] then Some false
  else None.

(** [single_value_convert]: only [None] and [str] have the [strip] it calls. *)
Definition single_value_convert (inner_value : atom) : result atom :=
  match inner_value with
  | ANone => Ok ANone
  | AStr s =>
      let inner := strip s in
      match py_int inner with
      | Some z => Ok (AInt z)
      | None =>
          match py_float inner with
          | Some f => Ok (AFloat f)
          | None =>
              match try_convert_to_bool inner with
              | Some b => Ok (ABool b)
              | None => Ok (AStr inner)
              end
          end
      end
  | _ => Raise AttributeError
  end.

(** [convert_value_to_yaml] *)
Fixpoint convert_value_to_yaml (v : value) : result value :=
  match v with
  | VList l =>
      l' <- (fix convert_items (xs : list value) : result (list value) :=
               match xs with
               | [] => Ok []
               | x :: tl =>
                   x' <- convert_value_to_yaml x ;;
                   tl' <- convert_items tl ;;
                   Ok (x' :: tl')
               end) l ;;
      Ok (VList l')
  | VDict d =>
      d' <- (fix convert_entries (es : list (atom * value)) (converted_value : dict)
               : result dict :=
               match es with
               | [] => Ok converted_value
               | (k, x) :: tl =>
                   x' <- convert_value_to_yaml x ;;
                   k' <- single_value_convert k ;;
                   convert_entries tl (dict_set converted_value k' x')
               end) d [] ;;
      Ok (VDict d')
  | VAtom a =>
      a' <- single_value_convert a ;;
      Ok (VAtom a')
  end.

(** ** Lists with Python's indexing *)

(** position an index denotes in a list of [len] items, if any:
    [l[i]], [l[i] = v], [del l[i]] *)
Definition item_position (len : nat) (i : Z) : option nat :=
  let j := if (i <? 0)%Z then (i + Z.of_nat len)%Z else i in
  if ((0 <=? j) && (j <? Z.of_nat len))%Z then Some (Z.to_nat j) else None.

(** position a slice bound or an [insert] index is clamped to *)
Definition clamp_position (len : nat) (i : Z) : nat :=
  let j := if (i <? 0)%Z then (i + Z.of_nat len)%Z else i in
  Z.to_nat (Z.min (Z.max 0 j) (Z.of_nat len)).

(** [l[i:i] = xs] on a built-in list.  A list loaded by ruamel is a
    [CommentedSeq], which inserts the items of [xs] one by one at [i]: the
    same list for an [i] up to the length, to which statements about a
    loaded list keep. *)
Definition list_splice (l : list value) (i : Z) (xs : list value) : list value :=
  let p := clamp_position (List.length l) i in
  firstn p l ++ xs ++ skipn p l.

(** [l.insert(i, v)] *)
Definition list_insert (l : list value) (i : Z) (v : value) : list value :=
  list_splice l i [v].

(** [l[i] = v] *)
Definition list_set (l : list value) (i : Z) (v : value) : result (list value) :=
  match item_position (List.length l) i with
  | Some p => Ok (firstn p l ++ v :: skipn (S p) l)
  | None => Raise (IndexError "list assignment index out of range")
  end.

(** [del l[i]]; the message is that of an index that fits a machine word,
    beyond which the [IndexError] reads otherwise. *)
Definition list_del (l : list value) (i : Z) : result (list value) :=
  match item_position (List.length l) i with
  | Some p => Ok (firstn p l ++ skipn (S p) l)
  | None => Raise (IndexError "list assignment index out of range")
  end.

(** position of the first item that satisfies [f] *)
Fixpoint find_index {A : Type} (f : A -> bool) (l : list A) : option nat :=
  match l with
  | [] => None
  | x :: tl =>
      if f x then Some O
      else match find_index f tl with
           | Some n => Some (S n)
           | None => None
           end
  end.

(** [l.remove(x)] for an [x] that is in [l] *)
Fixpoint list_remove (x : value) (l : list value) : list value :=
  match l with
  | [] => []
  | y :: tl => if py_eq y x then tl else y :: list_remove x tl
  end.

(** ** Path segments *)

Inductive index : Type :=
| IdxInt (n : Z)
| IdxStr (s : string).

(** [ListIndices] *)
Module ListIndices.
Definition start : string := "start".
Definition end_ : string := "end".
End ListIndices.

Definition index_eqb (a b : index) : bool :=
  match a, b with
  | IdxInt m, IdxInt n => (m =? n)%Z
  | IdxStr s, IdxStr t => String.eqb s t
  | _, _ => false
  end.

(** [level_idx == s] for a string [s] *)
Definition idx_is (level_idx : option index) (s : string) : bool :=
  match level_idx with
  | Some (IdxStr t) => String.eqb t s
  | _ => false
  end.

(** text up to the first newline, which [.] does not match *)
Fixpoint first_line (s : string) : string :=
  match s with
  | EmptyString => EmptyString
  | String c r => if Ascii.eqb c "010" then EmptyString else String c (first_line r)
  end.

(** position of the last [c] in [s] *)
Fixpoint rindex (c : ascii) (s : string) : option nat :=
  match s with
  | EmptyString => None
  | String x r =>
      match rindex c r with
      | Some n => Some (S n)
      | None => if Ascii.eqb x c then Some O else None
      end
  end.

(** [_enrich_level_index]: the pattern is a greedy group [level], an opening
    bracket, a greedy group [idx] and a closing bracket, matched from the
    start of the text.  Both groups being greedy, the match ends at the last
    closing bracket of the first line and [level] stops at the last opening
    bracket before it. *)
Definition _enrich_level_index (level : string) : string * option index :=
  let line := first_line level in
  match rindex "]" line with
  | None => (level, None)
  | Some q =>
      match rindex "[" (substring 0 q line) with
      | None => (level, None)
      | Some p =>
          let idx := substring (S p) (q - S p) line in
          (substring 0 p line,
           Some (if isdigit idx then IdxInt (digits_to_Z idx) else IdxStr idx))
      end
  end.

(** the [re.split] of [_modify_key]: split at every dot that does not follow
    a backslash *)
Fixpoint split_levels (after_backslash : bool) (s : string) : list string :=
  match s with
  | EmptyString => [EmptyString]
  | String x r =>
      if Ascii.eqb x "." && negb after_backslash
      then EmptyString :: split_levels false r
      else match split_levels (Ascii.eqb x "\") r with
           | [] => [String x EmptyString]
           | hd :: tl => String x hd :: tl
           end
  end.

(** the [replace] of [_modify_key]: a backslash followed by a dot becomes a
    dot *)
Fixpoint unescape_dots (s : string) : string :=
  match s with
  | EmptyString => EmptyString
  | String x r =>
      match r with
      | String y r' =>
          if Ascii.eqb x "\" && Ascii.eqb y "."
          then String "." (unescape_dots r')
          else String x (unescape_dots r)
      | EmptyString => String x EmptyString
      end
  end.

(** ** Operations and the keyword arguments of [_modify_key] *)

Module KeyOperations.
Inductive t : Type :=
| Remove
| Update
| Add
| RemoveListElement
| ExtendList
| InsertToList.

Definition is_remove_operation (op : t) : bool :=
  match op with
  | Remove | RemoveListElement => true
  | _ => false
  end.
End KeyOperations.

Record mod_key_kwargs : Type := {
  append_mode : bool;
  extend_mode : bool;
  list_insert_mode : bool;
  rm_mode : bool;
  rm_value_mode : bool;
  ignore_not_found : bool
}.

(** the table at the head of [_mod_kvs] *)
Definition kwargs_of (operation : KeyOperations.t) (ignore : bool) : mod_key_kwargs :=
  match operation with
  | KeyOperations.Update => Build_mod_key_kwargs false false false false false ignore
  | KeyOperations.Add => Build_mod_key_kwargs true false false false false ignore
  | KeyOperations.ExtendList => Build_mod_key_kwargs true true false false false ignore
  | KeyOperations.InsertToList => Build_mod_key_kwargs true false true false false ignore
  | KeyOperations.Remove => Build_mod_key_kwargs false false false true false ignore
  | KeyOperations.RemoveListElement => Build_mod_key_kwargs false false false true true ignore
  end.

(** ** [_modify_key] *)

Section ModifyKey.
(** [simplejson.loads] on a string: [None] stands for the [ValueError] it
    raises on text that is not JSON. *)
Variable json_loads : string -> option value.
(** [str] of a float *)
Variable float_repr : pyfloat -> string.

(** [str(x)] for a scalar *)
Definition py_str (a : atom) : string :=
  match a with
  | ANone => "None"
  | ABool true => "True"
  | ABool false => "False"
  | AInt z => NilZero.string_of_int (Z.to_int z)
  | AFloat f => float_repr f
  | AStr s => s
  end.

(** [section[level]] for a string [level] *)
Definition section_item (section : value) (level : string) : result value :=
  match section with
  | VDict d =>
      match dict_get d (AStr level) with
      | Some v => Ok v
      | None => Raise KeyError
      end
  | _ => Raise TypeError
  end.

(** [section[level] = v] for a string [level] *)
Definition set_section_item (section : value) (level : string) (v : value)
  : result value :=
  match section with
  | VDict d => Ok (VDict (dict_set d (AStr level) v))
  | _ => Raise TypeError
  end.

(** [section[level]] where the code goes on to call a list method on it *)
Definition section_list (section : value) (level : string) : result (list value) :=
  target <- section_item section level ;;
  match target with
  | VList l => Ok l
  | _ => Raise AttributeError
  end.

(** [section_idx] once [start] and [end] have been turned into positions *)
Definition resolve_section_idx (len : nat) (section_idx : option index)
  : option index :=
  if idx_is section_idx ListIndices.start then Some (IdxInt 0)
  else if idx_is section_idx ListIndices.end_
       then Some (IdxInt (Z.of_nat len - 1))
       else section_idx.

(** [idx == section_idx or section_idx is None] *)
Definition idx_selected (idx : nat) (section_idx : option index) : bool :=
  match section_idx with
  | None => true
  | Some (IdxInt n) => (Z.of_nat idx =? n)%Z
  | Some (IdxStr _) => false
  end.

(** the loop of [_get_subsection] from position [idx] on *)
Fixpoint get_in_list (elements : list value) (idx : nat) (key : string)
  (section_idx : option index) : value * option nat :=
  match elements with
  | [] => (vnone, None)
  | element :: tl =>
      if py_eq element (vstr key) && idx_selected idx section_idx
      then (element, Some idx)
      else
        match element with
        | VDict d =>
            match dict_get d (AStr key) with
            | Some v =>
                if idx_selected idx section_idx then (v, Some idx)
                else get_in_list tl (S idx) key section_idx
            | None => get_in_list tl (S idx) key section_idx
            end
        | _ => get_in_list tl (S idx) key section_idx
        end
  end.

(** [_get_subsection]; a missing subsection is [None], as is one whose
    value is [None]. *)
Definition _get_subsection (section : value) (key : string)
  (section_idx : option index) : value * option nat :=
  match section with
  | VDict d =>
      match dict_get d (AStr key) with
      | Some v => (v, None)
      | None => (vnone, None)
      end
  | VList l =>
      get_in_list l O key (resolve_section_idx (List.length l) section_idx)
  | VAtom _ => (vnone, None)
  end.

(** the loop of [_assign_subsection] from position [idx] on *)
Fixpoint assign_in_list (elements : list value) (idx : nat) (key : string)
  (subsection : value) (section_idx : option index) : list value :=
  match elements with
  | [] => []
  | element :: tl =>
      let element1 :=
        if py_eq element (vstr key) && idx_selected idx section_idx
        then subsection else element in
      let element2 :=
        match element with
        | VDict d =>
            if dict_mem d (AStr key) && idx_selected idx section_idx
            then VDict (dict_set d (AStr key) subsection)
            else element1
        | _ => element1
        end in
      element2 :: assign_in_list tl (S idx) key subsection section_idx
  end.

(** [_assign_subsection] *)
Definition _assign_subsection (section : value) (key : string)
  (subsection : value) (section_idx : option index) : value :=
  match section with
  | VDict d =>
      if dict_mem d (AStr key) then VDict (dict_set d (AStr key) subsection)
      else section
  | VList l =>
      VList (assign_in_list l O key subsection
               (resolve_section_idx (List.length l) section_idx))
  | VAtom _ => section
  end.

(** The handlers below take the keyword arguments and the value of the
    request, which the code reads from the enclosing [_modify_key]. *)
Variable kw : mod_key_kwargs.
Variable value_ : value.

(** [_handle_extend_list]: the section after the call and what is
    returned ([None] where the code returns nothing). *)
Definition _handle_extend_list (section : value) (level : string)
  (level_idx : option index) : result (value * value) :=
  let extend_value := as_list value_ in
  if idx_is level_idx ListIndices.start then
    l <- section_list section level ;;
    Ok (section, VList (extend_value ++ l))
  else
    match level_idx with
    | Some (IdxInt n) =>
        l <- section_list section level ;;
        section1 <- set_section_item section level
                      (VList (list_splice l n extend_value)) ;;
        Ok (section1, vnone)
    | Some (IdxStr s) =>
        if String.eqb s "" then
          l <- section_list section level ;;
          section1 <- set_section_item section level (VList (l ++ extend_value)) ;;
          Ok (section1, vnone)
        else Raise (ValueError ("List index has invalid value: " ++ s)%string)
    | None =>
        l <- section_list section level ;;
        section1 <- set_section_item section level (VList (l ++ extend_value)) ;;
        Ok (section1, vnone)
    end.

(** [_handle_add_to_list] *)
Definition _handle_add_to_list (section : value) (level : string)
  (level_idx : option index) : result (value * value) :=
  if extend_mode kw then _handle_extend_list section level level_idx
  else if idx_is level_idx ListIndices.start then
    l <- section_list section level ;;
    section1 <- set_section_item section level (VList (list_insert l 0 value_)) ;;
    Ok (section1, vnone)
  else if idx_is level_idx ListIndices.end_ then
    l <- section_list section level ;;
    section1 <- set_section_item section level (VList (l ++ [value_])) ;;
    Ok (section1, vnone)
  else if list_insert_mode kw then
    match level_idx with
    | Some (IdxInt n) =>
        l <- section_list section level ;;
        if (Z.of_nat (List.length l) <? n)%Z
        then Raise (IndexError "index out of range")
        else
          section1 <- set_section_item section level
                        (VList (list_insert l n value_)) ;;
          Ok (section1, vnone)
    | _ =>
        _ <- section_list section level ;;
        Raise TypeError
    end
  else
    match level_idx with
    | Some (IdxInt n) =>
        l <- section_list section level ;;
        l1 <- list_set l n value_ ;;
        section1 <- set_section_item section level (VList l1) ;;
        Ok (section1, vnone)
    | _ =>
        _ <- section_list section level ;;
        Raise TypeError
    end.

(** [_handle_insert_in_section] *)
Definition _handle_insert_in_section (section : value) (level : string)
  (level_idx : option index) : result (value * value) :=
  if match level_idx with Some _ => true | None => false end
     || extend_mode kw || list_insert_mode kw
  then
    target <- section_item section level ;;
    match target with
    | VList _ => _handle_add_to_list section level level_idx
    | _ => Raise (RuntimeError "Key is not a list")
    end
  else if extend_mode kw then _handle_extend_list section level level_idx
  else Ok (section, value_).

(** [_handle_rm_by_value]; [rm_value] is the bracketed part of the level. *)
Definition _handle_rm_by_value (section : value) (level : string)
  (rm_value : option index) : result value :=
  match rm_value with
  | Some (IdxStr s) =>
      match json_loads s with
      | None =>
          target <- section_item section level ;;
          match target with
          | VList l =>
              if negb (existsb (fun item => py_eq item (vstr s)) l) then Ok section
              else set_section_item section level (VList (list_remove (vstr s) l))
          | VDict d =>
              if negb (dict_mem d (AStr s)) then Ok section
              else Raise AttributeError
          | VAtom (AStr t) =>
              if negb (py_substring s t) then Ok section
              else Raise AttributeError
          | VAtom _ => Raise TypeError
          end
      | Some decoded =>
          target <- section_item section level ;;
          match target with
          | VList l =>
              match find_index (fun item => py_eq decoded item) l with
              | Some idx =>
                  l1 <- list_del l (Z.of_nat idx) ;;
                  set_section_item section level (VList l1)
              | None => Ok section
              end
          | VDict d =>
              match find_index (fun e => py_eq decoded (VAtom (fst e))) d with
              | Some idx =>
                  if dict_mem d (AInt (Z.of_nat idx))
                  then set_section_item section level
                         (VDict (dict_del d (AInt (Z.of_nat idx))))
                  else Raise KeyError
              | None => Ok section
              end
          | VAtom (AStr t) =>
              if existsb (fun c => py_eq decoded (vstr (String c EmptyString)))
                   (list_ascii_of_string t)
              then Raise TypeError
              else Ok section
          | VAtom _ => Raise TypeError
          end
      end
  | _ => Raise TypeError
  end.

(** [_handle_rm_from_section]: the section after the call, and whether the
    code returned [True]. *)
Definition _handle_rm_from_section (section : value) (level : string)
  (level_idx : option index) : result (value * bool) :=
  if rm_value_mode kw then
    section1 <- _handle_rm_by_value section level level_idx ;;
    Ok (section1, false)
  else
    match level_idx with
    | Some li =>
        target <- section_item section level ;;
        match target with
        | VList l =>
            match li with
            | IdxInt n =>
                if ignore_not_found kw && (Z.of_nat (List.length l) <? n)%Z
                then Ok (section, true)
                else
                  l1 <- list_del l n ;;
                  section1 <- set_section_item section level (VList l1) ;;
                  Ok (section1, false)
            | IdxStr _ => Raise TypeError
            end
        | _ => Raise (RuntimeError "Key is not a list")
        end
    | None =>
        match section with
        | VDict d =>
            if dict_mem d (AStr level)
            then Ok (VDict (dict_del d (AStr level)), false)
            else Raise KeyError
        | VList _ => Raise TypeError
        | VAtom _ => Raise AttributeError
        end
    end.

(** what [subsection] refers to after a handler ran on [section]: the
    object it was bound to, which a handler changes through
    [section[level]] *)
Definition reread (section : value) (level : string) (subsection : value)
  : value :=
  match section with
  | VDict d =>
      match dict_get d (AStr level) with
      | Some v => v
      | None => subsection
      end
  | _ => subsection
  end.

(** [isinstance(x, int)]; [bool] is a subclass of [int] *)
Definition is_int (v : value) : bool :=
  match v with
  | VAtom (AInt _) | VAtom (ABool _) => true
  | _ => false
  end.

(** [level_idx in [start, end, 0]] *)
Definition opens_list (level_idx : option index) : bool :=
  match level_idx with
  | Some li =>
      existsb (index_eqb li)
        [IdxStr ListIndices.start; IdxStr ListIndices.end_; IdxInt 0]
  | None => false
  end.

(** [update_section] *)
Fixpoint update_section (section : value) (requested_levels : list string)
  (section_idx : option index) {struct requested_levels}
  : result (value * bool) :=
  match requested_levels with
  | [] => Raise (IndexError "list index out of range")
  | level0 :: rest =>
      let '(level, level_idx) := _enrich_level_index level0 in
      let '(subsection, idx) := _get_subsection section level section_idx in
      match rest with
      | [] =>
          (* reached final level, setting leaf value *)
          if is_none subsection then
            if negb (append_mode kw) then
              if rm_mode kw && ignore_not_found kw then Ok (section, false)
              else Raise (RuntimeError "Key not found in dict")
            else
              new_value <-
                (if opens_list level_idx then Ok (VList (as_list value_))
                 else match level_idx with
                      | Some _ => Raise (RuntimeError "List doesn't exist")
                      | None => Ok value_
                      end) ;;
              match section with
              | VDict d => Ok (VDict (dict_set d (AStr level) new_value), true)
              | VList l => Ok (VList (l ++ [VDict [(AStr level, new_value)]]), true)
              | VAtom a =>
                  Ok (VDict [(AStr (py_str a), VDict [(AStr level, new_value)])],
                      true)
              end
          else if rm_mode kw then
            '(section1, ignored_missing_key) <-
               _handle_rm_from_section section level level_idx ;;
            if ignored_missing_key then Ok (section1, false)
            else
              Ok (_assign_subsection section1 level
                    (reread section1 level subsection) section_idx, true)
          else if negb (py_eq subsection value_) then
            '(section1, direct_insert) <-
               _handle_insert_in_section section level level_idx ;;
            let subsection1 :=
              if is_none direct_insert then reread section1 level subsection
              else direct_insert in
            Ok (_assign_subsection section1 level subsection1 section_idx, true)
          else
            Ok (_assign_subsection section level subsection section_idx, true)
      | _ :: _ =>
          (* we need to go deeper *)
          if is_none subsection then
            if negb (append_mode kw)
            then Raise (RuntimeError "Subsection not found in dict")
            else
              '(created, changed) <- update_section (VDict []) rest None ;;
              match section with
              | VDict d =>
                  Ok (VDict (dict_set (dict_set d (AStr level) (VDict []))
                               (AStr level) created), true)
              | VList l =>
                  Ok (VList (l ++ [VDict [(AStr level, created)]]), true)
              | VAtom a =>
                  Ok (VDict [(AStr (py_str a), VDict [(AStr level, created)])],
                      true)
              end
          else
            '(subsection1, has_changed) <-
               (if is_int subsection then
                  if negb (append_mode kw)
                  then Raise (RuntimeError "Leaf was found where subsection expected")
                  else Ok (VDict [(AStr level, VDict [])], true)
                else Ok (subsection, false)) ;;
            '(subsection2, changed) <-
               update_section subsection1 rest level_idx ;;
            Ok (_assign_subsection section level subsection2 section_idx,
                has_changed || changed)
      end
  end.

(** [_modify_key] *)
Definition _modify_key (config : value) (full_key : string)
  : result (value * bool) :=
  let levels := map unescape_dots (split_levels false full_key) in
  update_section config levels None.
End ModifyKey.

(** ** [_mod_kvs] *)

Definition nonempty (s : string) : bool :=
  match s with
  | EmptyString => false
  | _ => true
  end.

(** [split_value.split("{")[1]] for every non-empty piece of
    [value.split("}")]; [None] stands for the [IndexError] of a piece without
    an opening brace. *)
Fixpoint value_dicts (pieces : list string) : option (list string) :=
  match pieces with
  | [] => Some []
  | split_value :: tl =>
      if nonempty split_value then
        match split_char "{" split_value with
        | _ :: inner :: _ =>
            match value_dicts tl with
            | Some rest => Some (inner :: rest)
            | None => None
            end
        | _ => None
        end
      else value_dicts tl
  end.

(** [values[-1].append(x)]; [None] stands for the [IndexError] of an empty
    [values]. *)
Fixpoint append_to_last (values : list (list string)) (x : string)
  : option (list (list string)) :=
  match values with
  | [] => None
  | [v] => Some [v ++ [x]]
  | v :: tl =>
      match append_to_last tl x with
      | Some tl' => Some (v :: tl')
      | None => None
      end
  end.

(** the loop over [comma_separated_string] that fills [keys] and [values] *)
Fixpoint keys_and_values (tokens : list string) (keys : list string)
  (values : list (list string)) : option (list string * list (list string)) :=
  match tokens with
  | [] => Some (keys, values)
  | key_or_values :: tl =>
      match split_once ":" key_or_values with
      | Some (k, v) => keys_and_values tl (keys ++ [k]) (values ++ [[v]])
      | None =>
          match append_to_last values key_or_values with
          | Some values' => keys_and_values tl keys values'
          | None => None
          end
      end
  end.

(** the loop over [zip(keys, values)] that fills [real_value_dict] *)
Definition real_value_dict (keys : list string) (values : list (list string))
  : dict :=
  fold_left
    (fun d kv =>
       let '(k, v) := kv in
       dict_set d (AStr k)
         (match v with
          | [x] => vstr x
          | _ => VList (map vstr v)
          end))
    (combine keys values) [].

Fixpoint converted_dicts (value_dicts : list string) : option (list value) :=
  match value_dicts with
  | [] => Some []
  | value_dict :: tl =>
      match keys_and_values (split_char "," value_dict) [] [] with
      | Some (keys, values) =>
          match converted_dicts tl with
          | Some rest => Some (VDict (real_value_dict keys values) :: rest)
          | None => None
          end
      | None => None
      end
  end.

(** What [_mod_kvs] makes of the text right of the [=] before the tree is
    touched: the literal grammar, then [convert_value_to_yaml]. *)
Definition parse_value (text : string) : result value :=
  raw <-
    (if contains_char "," text || contains_char "{" text then
       if contains_char "{" text then
         match value_dicts (split_char "}" text) with
         | Some ds =>
             match converted_dicts ds with
             | Some converted_value => Ok (VList converted_value)
             | None =>
                 Raise (Exception_
                   "Wrong value syntax - expected either a dictionary or a list of dictionaries")
             end
         | None =>
             Raise (Exception_
               "Wrong value syntax - expected either a dictionary or a list of dictionaries")
         end
       else Ok (VList (map vstr (filter nonempty (split_char "," text))))
     else Ok (vstr text)) ;;
  convert_value_to_yaml raw.

(** key and value of one request *)
Definition split_kv (operation : KeyOperations.t) (kv : string)
  : result (string * option string) :=
  if KeyOperations.is_remove_operation operation then
    match split_once "=" kv with
    | Some (key, _) => Ok (key, None)
    | None => Ok (kv, None)
    end
  else
    match split_once "=" kv with
    | Some (key, text) => Ok (key, Some text)
    | None => Raise (ValueError "not enough values to unpack (expected 2, got 1)")
    end.

Section ModKvs.
Variable json_loads : string -> option value.
Variable float_repr : pyfloat -> string.

(** [_mod_kvs] *)
Fixpoint mod_kvs_loop (config : value) (kvs : list string)
  (operation : KeyOperations.t) (ignore : bool) (changed : bool)
  : result (value * bool) :=
  match kvs with
  | [] => Ok (config, changed)
  | kv :: tl =>
      '(key, raw) <- split_kv operation kv ;;
      value <- match raw with
               | Some text => parse_value text
               | None => convert_value_to_yaml vnone
               end ;;
      '(config1, op_changed) <-
         _modify_key json_loads float_repr (kwargs_of operation ignore)
           value config key ;;
      mod_kvs_loop config1 tl operation ignore (changed || op_changed)
  end.

Definition _mod_kvs (config : value) (kvs : list string)
  (operation : KeyOperations.t) (ignore : bool) : result (value * bool) :=
  mod_kvs_loop config kvs operation ignore false.
End ModKvs.

(** ** Deep merge *)

(** [_deep_merge_dicts d1 d2], with [d2] given as the tree it is. *)
Fixpoint deep_merge_into (d1 : dict) (b : value) {struct b} : dict :=
  match b with
  | VDict d2 =>
      (fix for_key (es : list (atom * value)) (d1 : dict) {struct es} : dict :=
         match es with
         | [] => d1
         | (key, x2) :: tl =>
             for_key tl
               (match dict_get d1 key with
                | Some x1 =>
                    match x1, x2 with
                    | VDict a, VDict _ =>
                        dict_set d1 key (VDict (deep_merge_into a x2))
                    | _, _ =>
                        if py_eq x1 x2 then d1 else dict_set d1 key x2
                    end
                | None => dict_set d1 key x2
                end)
         end) d2 d1
  | _ => d1
  end.

Definition _deep_merge_dicts (d1 d2 : dict) : dict :=
  deep_merge_into d1 (VDict d2).

(** [_merge_configs], given the document loaded from [config_b_filepath] *)
Definition _merge_configs (config_a config_b : dict) : dict * bool :=
  (_deep_merge_dicts config_a config_b, true).

(** ** Stand-ins and sample documents used by the examples *)

(** [simplejson.loads] on texts that are not JSON: it raises on each. *)
Definition loads_rejecting : string -> option value := fun _ => None.

(** [str] of a float, for documents that hold none *)
Definition repr_unused : pyfloat -> string := fun _ => EmptyString.

(** the keys of a dict are pairwise different, as Python keeps them *)
Fixpoint distinct_keys (d : dict) : bool :=
  match d with
  | [] => true
  | (k, _) :: tl => negb (dict_mem tl k) && distinct_keys tl
  end.

(** [{"l": ["a", "b"]}] *)
Definition doc_list : value :=
  VDict [(AStr "l", VList [vstr "a"; vstr "b"])].

(** [{"a": 1}] *)
Definition doc_int : value := VDict [(AStr "a", vint 1)].

(** [{"a": "x"}] *)
Definition doc_str : value := VDict [(AStr "a", vstr "x")].

(** the entry the merge leaves under a key of [d2], given what [d1] held *)
Definition merged_entry (old : option value) (x2 : value) : value :=
  match old with
  | Some x1 =>
      match x1, x2 with
      | VDict a, VDict b => VDict (_deep_merge_dicts a b)
      | _, _ => if py_eq x1 x2 then x1 else x2
      end
  | None => x2
  end.

(** [{"x": 1, "m": {"p": 1}}] *)
Definition doc_a : dict :=
  [(AStr "x", vint 1); (AStr "m", VDict [(AStr "p", vint 1)])].

(** [{"x": 2, "m": {"q": 3}, "n": 5}] *)
Definition doc_b : dict :=
  [(AStr "x", vint 2); (AStr "m", VDict [(AStr "q", vint 3)]); (AStr "n", vint 5)].

(** ** [relayer_config] *)

(** the position a key denotes when it is used to index a list *)
Definition key_position (key : atom) : option Z :=
  match key with
  | AInt z => Some z
  | ABool b => Some (Z.b2z b)
  | _ => None
  end.

(** [l[i]] *)
Definition list_get (l : list value) (i : Z) : result value :=
  match item_position (List.length l) i with
  | Some p =>
      match nth_error l p with
      | Some x => Ok x
      | None => Raise (IndexError "list index out of range")
      end
  | None => Raise (IndexError "list index out of range")
  end.

(** [_deep_merge_dicts] when the batches left a list as [d1]: [key in d1]
    is list membership, [d1[key]] is indexing. *)
Fixpoint merge_into_list (l : list value) (d2 : dict) : result (list value) :=
  match d2 with
  | [] => Ok l
  | (key, x2) :: tl =>
      l1 <-
        (if existsb (fun element => py_eq element (VAtom key)) l then
           match key_position key with
           | Some i =>
               x1 <- list_get l i ;;
               match x1, x2 with
               | VDict a, VDict b => list_set l i (VDict (_deep_merge_dicts a b))
               | _, _ => if py_eq x1 x2 then Ok l else list_set l i x2
               end
           | None => Raise TypeError
           end
         else
           match key_position key with
           | Some i => list_set l i x2
           | None => Raise TypeError
           end) ;;
      merge_into_list l1 tl
  end.

(** [_merge_configs] on whatever the batches left; [config_b] is the Map
    loaded from [file_path_to_merge].  A scalar supports neither [key in d1]
    followed by [d1[key]] nor [d1[key] = ...]. *)
Definition merge_configs_any (config_a : value) (config_b : dict)
  : result (value * bool) :=
  match config_a with
  | VDict a => Ok (VDict (fst (_merge_configs a config_b)), true)
  | VList l =>
      l1 <- merge_into_list l config_b ;;
      Ok (VList l1, true)
  | VAtom _ =>
      match config_b with
      | [] => Ok (config_a, true)
      | _ :: _ => Raise TypeError
      end
  end.

Section RelayerConfig.
Variable json_loads : string -> option value.
Variable float_repr : pyfloat -> string.

(** [relayer_config], from the loaded [config] on: the six batches in their
    order, the merge when a document to merge was given, and the decision to
    write.  The result is the configuration handed to [_dump_config], or
    [None] when nothing is written. *)
Definition relayer_config (config : value)
  (add_kvs rm_keys update_kvs extend_kvs insert_kvs rm_list_element_keys
     : list string)
  (to_merge : option dict) (ignore : bool) : result (option value) :=
  '(config1, rm_changed) <-
     _mod_kvs json_loads float_repr config rm_keys KeyOperations.Remove ignore ;;
  '(config2, rm_list_changed) <-
     _mod_kvs json_loads float_repr config1 rm_list_element_keys
       KeyOperations.RemoveListElement ignore ;;
  '(config3, up_changed) <-
     _mod_kvs json_loads float_repr config2 update_kvs KeyOperations.Update false ;;
  '(config4, add_changed) <-
     _mod_kvs json_loads float_repr config3 add_kvs KeyOperations.Add false ;;
  '(config5, extend_changed) <-
     _mod_kvs json_loads float_repr config4 extend_kvs KeyOperations.ExtendList
       false ;;
  '(config6, insert_changed) <-
     _mod_kvs json_loads float_repr config5 insert_kvs KeyOperations.InsertToList
       false ;;
  '(config7, merge_changed) <-
     match to_merge with
     | Some config_b => merge_configs_any config6 config_b
     | None => Ok (config6, false)
     end ;;
  if existsb (fun changed => changed)
       [rm_changed; rm_list_changed; up_changed; add_changed; extend_changed;
        insert_changed; merge_changed]
  then Ok (Some config7)
  else Ok None.
End RelayerConfig.

(** ** What a failed request leaves in memory *)

(** How a call of [update_section] ends: it returns a section and a flag,
    or it raises.  The code edits the tree in place, so an exception finds
    the edits made so far in the tree; [held] is what the object passed as
    [section] holds at that moment. *)
Inductive outcome : Type :=
| Done (section : value) (has_changed : bool)
| Failed (e : exn) (held : value).

(** what the caller of [update_section] receives *)
Definition returned (o : outcome) : result (value * bool) :=
  match o with
  | Done section has_changed => Ok (section, has_changed)
  | Failed e _ => Raise e
  end.

(** [l] with the item at position [i] replaced *)
Definition list_put (l : list value) (i : nat) (x : value) : list value :=
  match nth_error l i with
  | Some _ => firstn i l ++ x :: skipn (S i) l
  | None => l
  end.

(** The place [_get_subsection] read [subsection] from, holding [held]: the
    entry [key] of a Map, or the entry [key] of the Map at position [idx] of
    a List.  An element that is the key itself is a string, which no call
    can edit. *)
Definition store_in_place (section : value) (key : string) (idx : option nat)
  (held : value) : value :=
  match section with
  | VDict d => VDict (dict_set d (AStr key) held)
  | VList l =>
      match idx with
      | Some i =>
          match nth_error l i with
          | Some (VDict d) => VList (list_put l i (VDict (dict_set d (AStr key) held)))
          | _ => section
          end
      | None => section
      end
  | VAtom _ => section
  end.

Section InPlace.
Variable json_loads : string -> option value.
Variable float_repr : pyfloat -> string.
Variable kw : mod_key_kwargs.
Variable value_ : value.

(** [update_section] once more, with the tree an exception leaves behind.
    At the last level every branch raises before it writes, so the section
    is then as it was passed.  Below a segment that had to be created, the
    new Map is already in the section when the inner call raises; below an
    existing subsection, the inner call has edited the object that the
    section holds.  A Map built in place of a leaf is bound to a local name
    until the inner call returns, and is lost with it. *)
Fixpoint update_section_in_place (section : value) (requested_levels : list string)
  (section_idx : option index) {struct requested_levels} : outcome :=
  match requested_levels with
  | [] => Failed (IndexError "list index out of range") section
  | level0 :: rest =>
      let '(level, level_idx) := _enrich_level_index level0 in
      let '(subsection, idx) := _get_subsection section level section_idx in
      match rest with
      | [] =>
          match update_section json_loads float_repr kw value_ section [level0]
                  section_idx with
          | Ok (section1, has_changed) => Done section1 has_changed
          | Raise e => Failed e section
          end
      | _ :: _ =>
          if is_none subsection then
            if negb (append_mode kw)
            then Failed (RuntimeError "Subsection not found in dict") section
            else
              match section with
              | VDict d =>
                  let section1 := dict_set d (AStr level) (VDict []) in
                  match update_section_in_place (VDict []) rest None with
                  | Done created _ =>
                      Done (VDict (dict_set section1 (AStr level) created)) true
                  | Failed e held =>
                      Failed e (VDict (dict_set section1 (AStr level) held))
                  end
              | VList l =>
                  match update_section_in_place (VDict []) rest None with
                  | Done created _ =>
                      Done (VList (l ++ [VDict [(AStr level, created)]])) true
                  | Failed e held =>
                      Failed e (VList (l ++ [VDict [(AStr level, held)]]))
                  end
              | VAtom a =>
                  match update_section_in_place (VDict []) rest None with
                  | Done created _ =>
                      Done (VDict [(AStr (py_str float_repr a),
                                    VDict [(AStr level, created)])]) true
                  | Failed e _ => Failed e section
                  end
              end
          else if is_int subsection then
            if negb (append_mode kw)
            then Failed (RuntimeError "Leaf was found where subsection expected")
                   section
            else
              match update_section_in_place (VDict [(AStr level, VDict [])]) rest
                      level_idx with
              | Done subsection2 changed =>
                  Done (_assign_subsection section level subsection2 section_idx)
                    (true || changed)
              | Failed e _ => Failed e section
              end
          else
            match update_section_in_place subsection rest level_idx with
            | Done subsection2 changed =>
                Done (_assign_subsection section level subsection2 section_idx)
                  (false || changed)
            | Failed e held => Failed e (store_in_place section level idx held)
            end
      end
  end.

(** [_modify_key], likewise *)
Definition _modify_key_in_place (config : value) (full_key : string) : outcome :=
  let levels := map unescape_dots (split_levels false full_key) in
  update_section_in_place config levels None.
End InPlace.

(** ** Vocabulary of the properties *)

(** no character of [s] is [c] *)
Definition lacks (c : ascii) (s : string) : bool := negb (contains_char c s).

(** a path segment that holds no dot and no backslash *)
Definition plain_segment (s : string) : bool := lacks "." s && lacks "\" s.

(** upper-case letter of a lower-case one *)
Definition upper_char (c : ascii) : ascii :=
  let n := nat_of_ascii c in
  if ((97 <=? n) && (n <=? 122))%nat then ascii_of_nat (n - 32) else c.

(** the spellings of [w] in every mix of letter cases *)
Fixpoint case_variants (w : string) : list string :=
  match w with
  | EmptyString => [EmptyString]
  | String x r =>
      flat_map (fun v => [String x v; String (upper_char x) v]) (case_variants r)
  end.

(** neither [int] nor [float] accepts [t] *)
Definition not_a_number (t : string) : bool :=
  match py_int t, py_float t with
  | None, None => true
  | _, _ => false
  end.

(** a tree of strings, as the literal grammar builds before coercion *)
Fixpoint stringy (v : value) : bool :=
  match v with
  | VAtom (AStr _) => true
  | VAtom _ => false
  | VList l => forallb stringy l
  | VDict d =>
      forallb (fun e => match fst e with AStr _ => stringy (snd e) | _ => false end) d
  end.

(** the Maps that [Add] builds below an absent key for the remaining
    segments of a path *)
Fixpoint chain (levels : list string) (v : value) : value :=
  match levels with
  | [] => v
  | level :: rest => VDict [(AStr level, chain rest v)]
  end.

(** a node that is neither [None] nor a list *)
Definition no_list (x : value) : bool :=
  match x with
  | VList _ => false
  | VAtom ANone => false
  | _ => true
  end.

(** Maps whose keys are pairwise different and equal to themselves, at the
    top and in every Map reached through Maps *)
Fixpoint well_keyed (v : value) : bool :=
  match v with
  | VDict d =>
      distinct_keys d &&
      forallb (fun e => atom_eqb (fst e) (fst e) && well_keyed (snd e)) d
  | _ => true
  end.

(** The section a path leads to: the walk of [update_section] from
    [section] through the subsections that [parents] name, and the
    [section_idx] with which the call on that section is made.  [None] when
    a segment names no subsection, or an integer leaf. *)
Fixpoint reach (section : value) (parents : list string)
  (section_idx : option index) : option (value * option index) :=
  match parents with
  | [] => Some (section, section_idx)
  | level0 :: rest =>
      let '(level, level_idx) := _enrich_level_index level0 in
      let '(subsection, _) := _get_subsection section level section_idx in
      if is_none subsection || is_int subsection then None
      else reach subsection rest level_idx
  end.

(** What the calls hand back on the way up: every section of the walk gets
    the subsection returned from below assigned, as the last lines of
    [update_section] do. *)
Fixpoint assign_along (section : value) (parents : list string)
  (section_idx : option index) (new_subsection : value) : value :=
  match parents with
  | [] => new_subsection
  | level0 :: rest =>
      let '(level, level_idx) := _enrich_level_index level0 in
      let '(subsection, _) := _get_subsection section level section_idx in
      _assign_subsection section level
        (assign_along subsection rest level_idx new_subsection) section_idx
  end.

(** every section of the walk along [parents] is a Map that holds the next
    segment *)
Fixpoint through_maps (section : value) (parents : list string) : bool :=
  match parents with
  | [] => true
  | level0 :: rest =>
      match section with
      | VDict d =>
          match dict_get d (AStr (fst (_enrich_level_index level0))) with
          | Some subsection => through_maps subsection rest
          | None => false
          end
      | _ => false
      end
  end.

(** a key or an item of a Map literal: no brace, comma or colon in it *)
Definition plain_word (s : string) : bool :=
  lacks "{" s && lacks "}" s && lacks "," s && lacks ":" s.

(** an entry of a Map literal: a key and one item or more *)
Definition plain_entry (e : string * list string) : bool :=
  plain_word (fst e) &&
  match snd e with
  | [] => false
  | _ :: _ => forallb plain_word (snd e)
  end.

(** a Map literal: one entry or more *)
Definition plain_group (g : list (string * list string)) : bool :=
  match g with
  | [] => false
  | _ :: _ => forallb plain_entry g
  end.

(** an entry as it is written: [key:item,item] *)
Definition entry_text (e : string * list string) : string :=
  (fst e ++ ":" ++ String.concat "," (snd e))%string.

(** a Map literal as it is written: its entries between braces *)
Definition group_text (g : list (string * list string)) : string :=
  ("{" ++ String.concat "," (map entry_text g) ++ "}")%string.

(** what an entry holds before coercion: its item, or the list of its
    items when there are several *)
Definition entry_value (items : list string) : value :=
  match items with
  | [x] => vstr x
  | _ => VList (map vstr items)
  end.

(** the Map a literal denotes before coercion: its entries stored one
    after another *)
Definition group_map (g : list (string * list string)) : value :=
  VDict (fold_left
           (fun d e => dict_set d (AStr (fst e)) (entry_value (snd e))) g []).

(** * Properties *)

(** ** Key equality and dict lookups *)

Lemma canon_eqb_eq (x y : canon) : canon_eqb x y = true -> x = y.
Proof.
  destruct x, y; simpl; try discriminate; intros H.
  - reflexivity.
  - apply andb_prop in H as [Hm He].
    apply Z.eqb_eq in Hm, He. now subst.
  - apply Bool.eqb_prop in H. now subst.
  - apply String.eqb_eq in H. now subst.
Qed.

Lemma atom_eqb_canon (a b : atom) : atom_eqb a b = true -> canon_of a = canon_of b.
Proof. apply canon_eqb_eq. Qed.

(** Two keys that are equal find the same entries. *)
Lemma atom_eqb_congr (a b c : atom) :
  atom_eqb a b = true -> atom_eqb a c = atom_eqb b c.
Proof.
  intros H. unfold atom_eqb. now rewrite (atom_eqb_canon _ _ H).
Qed.

Lemma atom_eqb_congr_r (a b c : atom) :
  atom_eqb a b = true -> atom_eqb c a = atom_eqb c b.
Proof.
  intros H. unfold atom_eqb. now rewrite (atom_eqb_canon _ _ H).
Qed.

Lemma atom_eqb_str_refl (s : string) : atom_eqb (AStr s) (AStr s) = true.
Proof. unfold atom_eqb. simpl. apply String.eqb_refl. Qed.

Section DictLemmas.
Context {V : Type}.
Implicit Types (d : list (atom * V)) (k q : atom) (v : V).

Lemma dict_get_congr d k q :
  atom_eqb k q = true -> dict_get d k = dict_get d q.
Proof.
  intros H. induction d as [|[k' v'] tl IH]; simpl; [reflexivity|].
  rewrite (atom_eqb_congr_r _ _ k' H). now rewrite IH.
Qed.

Lemma dict_get_set_eq d k q v :
  atom_eqb k q = true -> dict_get (dict_set d k v) q = Some v.
Proof.
  intros H. induction d as [|[k' v'] tl IH]; simpl.
  - now rewrite H.
  - destruct (atom_eqb k' k) eqn:E; simpl.
    + rewrite (atom_eqb_congr _ _ q E). now rewrite H.
    + rewrite <- (atom_eqb_congr_r _ _ k' H). now rewrite E.
Qed.

Lemma dict_get_set_neq d k q v :
  atom_eqb k q = false -> dict_get (dict_set d k v) q = dict_get d q.
Proof.
  intros H. induction d as [|[k' v'] tl IH]; simpl.
  - now rewrite H.
  - destruct (atom_eqb k' k) eqn:E; simpl.
    + rewrite (atom_eqb_congr _ _ q E). now rewrite H.
    + now rewrite IH.
Qed.

(** Writing back the value a key already holds changes nothing. *)
Lemma dict_set_same d k v : dict_get d k = Some v -> dict_set d k v = d.
Proof.
  induction d as [|[k' v'] tl IH]; simpl; [discriminate|].
  destruct (atom_eqb k' k); intros H.
  - now inversion H.
  - now rewrite IH.
Qed.

Lemma dict_mem_get d k v : dict_get d k = Some v -> dict_mem d k = true.
Proof. unfold dict_mem. now intros ->. Qed.
End DictLemmas.

(** ** Terminal segment, key absent *)

Section Unfolding.
Variable json_loads : string -> option value.
Variable float_repr : pyfloat -> string.

(** One unfolding of [update_section] at the last level, with the parsed
    level and the located subsection named. *)
Lemma update_section_last kw v section level0 section_idx level level_idx
  subsection idx :
  _enrich_level_index level0 = (level, level_idx) ->
  _get_subsection section level section_idx = (subsection, idx) ->
  update_section json_loads float_repr kw v section [level0] section_idx =
    if is_none subsection then
      if negb (append_mode kw) then
        if rm_mode kw && ignore_not_found kw then Ok (section, false)
        else Raise (RuntimeError "Key not found in dict")
      else
        new_value <-
          (if opens_list level_idx then Ok (VList (as_list v))
           else match level_idx with
                | Some _ => Raise (RuntimeError "List doesn't exist")
                | None => Ok v
                end) ;;
        match section with
        | VDict d => Ok (VDict (dict_set d (AStr level) new_value), true)
        | VList l => Ok (VList (l ++ [VDict [(AStr level, new_value)]]), true)
        | VAtom a =>
            Ok (VDict [(AStr (py_str float_repr a), VDict [(AStr level, new_value)])],
                true)
        end
    else if rm_mode kw then
      '(section1, ignored_missing_key) <-
         _handle_rm_from_section json_loads kw section level level_idx ;;
      if ignored_missing_key then Ok (section1, false)
      else
        Ok (_assign_subsection section1 level
              (reread section1 level subsection) section_idx, true)
    else if negb (py_eq subsection v) then
      '(section1, direct_insert) <-
         _handle_insert_in_section kw v section level level_idx ;;
      let subsection1 :=
        if is_none direct_insert then reread section1 level subsection
        else direct_insert in
      Ok (_assign_subsection section1 level subsection1 section_idx, true)
    else
      Ok (_assign_subsection section level subsection section_idx, true).
Proof.
  intros He Hg. cbn [update_section]. rewrite He, Hg. reflexivity.
Qed.

(** One unfolding of [update_section] when more levels follow. *)
Lemma update_section_deeper kw v section level0 next rest section_idx level
  level_idx subsection idx :
  _enrich_level_index level0 = (level, level_idx) ->
  _get_subsection section level section_idx = (subsection, idx) ->
  is_none subsection = false ->
  update_section json_loads float_repr kw v section (level0 :: next :: rest)
    section_idx =
    '(subsection1, has_changed) <-
       (if is_int subsection then
          if negb (append_mode kw)
          then Raise (RuntimeError "Leaf was found where subsection expected")
          else Ok (VDict [(AStr level, VDict [])], true)
        else Ok (subsection, false)) ;;
    '(subsection2, changed) <-
       update_section json_loads float_repr kw v subsection1 (next :: rest)
         level_idx ;;
    Ok (_assign_subsection section level subsection2 section_idx,
        has_changed || changed).
Proof.
  intros He Hg Hn. cbn [update_section]. rewrite He, Hg, Hn. reflexivity.
Qed.

(** One unfolding of [update_section] when more levels follow and the
    subsection is absent. *)
Lemma update_section_deeper_absent kw v section level0 next rest section_idx
  level level_idx subsection idx :
  _enrich_level_index level0 = (level, level_idx) ->
  _get_subsection section level section_idx = (subsection, idx) ->
  is_none subsection = true ->
  update_section json_loads float_repr kw v section (level0 :: next :: rest)
    section_idx =
    if negb (append_mode kw)
    then Raise (RuntimeError "Subsection not found in dict")
    else
      '(created, changed) <-
         update_section json_loads float_repr kw v (VDict []) (next :: rest)
           None ;;
      match section with
      | VDict d =>
          Ok (VDict (dict_set (dict_set d (AStr level) (VDict []))
                       (AStr level) created), true)
      | VList l => Ok (VList (l ++ [VDict [(AStr level, created)]]), true)
      | VAtom a =>
          Ok (VDict [(AStr (py_str float_repr a),
                      VDict [(AStr level, created)])], true)
      end.
Proof.
  intros He Hg Hn. cbn [update_section]. rewrite He, Hg, Hn. reflexivity.
Qed.
End Unfolding.

Import KeyOperations.

(** The call that handles the last segment: when the segment names an
    absent key, a non-append operation returns the section as it is with
    changed = false when it is a removal run with [ignore_not_found], and
    raises "Key not found in dict" in every other case. *)
Lemma absent_key_without_append_last :
  forall json_loads float_repr operation ignore v section level0 section_idx
         level level_idx idx,
    append_mode (kwargs_of operation ignore) = false ->
    _enrich_level_index level0 = (level, level_idx) ->
    _get_subsection section level section_idx = (vnone, idx) ->
    update_section json_loads float_repr (kwargs_of operation ignore) v
      section [level0] section_idx =
      if is_remove_operation operation && ignore
      then Ok (section, false)
      else Raise (RuntimeError "Key not found in dict").
Proof.
  intros jl fr operation ignore v section level0 sidx level lidx idx Ha He Hg.
  rewrite (update_section_last jl fr _ v _ _ _ _ _ _ _ He Hg).
  destruct operation; simpl in Ha; try discriminate; destruct ignore; reflexivity.
Qed.

(** A Map parent hands back what the call on its subsection returned: an
    unchanged subsection leaves the parent unchanged, with the same flag. *)
Lemma unchanged_through_map :
  forall json_loads float_repr kw v d level0 next rest section_idx level
         level_idx subsection changed,
    _enrich_level_index level0 = (level, level_idx) ->
    dict_get d (AStr level) = Some subsection ->
    is_none subsection = false ->
    is_int subsection = false ->
    update_section json_loads float_repr kw v subsection (next :: rest) level_idx
      = Ok (subsection, changed) ->
    update_section json_loads float_repr kw v (VDict d) (level0 :: next :: rest)
      section_idx = Ok (VDict d, changed).
Proof.
  intros jl fr kw v d level0 next rest sidx level lidx sub changed
         He Hd Hn Hi Hrec.
  assert (Hg : _get_subsection (VDict d) level sidx = (sub, None))
    by (cbn; now rewrite Hd).
  rewrite (update_section_deeper jl fr kw v _ _ _ _ _ _ _ _ _ He Hg Hn).
  rewrite Hi. cbn [bind]. rewrite Hrec. cbn.
  now rewrite (dict_mem_get _ _ _ Hd), (dict_set_same _ _ _ Hd).
Qed.

Lemma get_in_list_found l key section_idx : forall k v i,
  get_in_list l k key section_idx = (v, Some i) ->
  exists j element,
    i = (k + j)%nat /\ nth_error l j = Some element /\
    idx_selected i section_idx = true /\
    ((py_eq element (vstr key) = true /\ v = element) \/
     (exists d, element = VDict d /\ dict_get d (AStr key) = Some v)).
Proof.
  induction l as [|x l IH]; intros k v i H; [discriminate H|].
  cbn [get_in_list] in H.
  destruct (py_eq x (vstr key) && idx_selected k section_idx) eqn:Hfirst.
  - inversion H; subst. apply andb_prop in Hfirst as [Heq Hsel].
    exists 0%nat, v.
    split; [lia|]. split; [reflexivity|]. split; [exact Hsel|]. now left.
  - assert (Hnext : get_in_list l (S k) key section_idx = (v, Some i) ->
                    exists j element,
                      i = (k + j)%nat /\ nth_error (x :: l) j = Some element /\
                      idx_selected i section_idx = true /\
                      ((py_eq element (vstr key) = true /\ v = element) \/
                       (exists d, element = VDict d /\
                                  dict_get d (AStr key) = Some v))).
    { intros Hn. destruct (IH _ _ _ Hn) as (j & e & Hi & Hnth & Hsel & Hm).
      exists (S j), e. cbn [nth_error].
      split; [lia|]. split; [exact Hnth|]. split; [exact Hsel|exact Hm]. }
    destruct x as [a|xs|d]; try (now apply Hnext).
    destruct (dict_get d (AStr key)) as [w|] eqn:Hd; [|now apply Hnext].
    destruct (idx_selected k section_idx) eqn:Hsel; [|now apply Hnext].
    inversion H; subst. exists 0%nat, (VDict d).
    split; [lia|]. split; [reflexivity|]. split; [exact Hsel|].
    right. now exists d.
Qed.

(** ** The tree a failed request leaves behind *)

Section InPlaceUnfolding.
Variable json_loads : string -> option value.
Variable float_repr : pyfloat -> string.

Lemma update_section_in_place_last kw v section level0 section_idx :
  update_section_in_place json_loads float_repr kw v section [level0] section_idx
  = match update_section json_loads float_repr kw v section [level0] section_idx with
    | Ok (section1, has_changed) => Done section1 has_changed
    | Raise e => Failed e section
    end.
Proof.
  cbn [update_section_in_place].
  destruct (_enrich_level_index level0) as [level lidx].
  now destruct (_get_subsection section level section_idx) as [sub idx].
Qed.

Lemma update_section_in_place_deeper kw v section level0 next rest section_idx
  level level_idx subsection idx :
  _enrich_level_index level0 = (level, level_idx) ->
  _get_subsection section level section_idx = (subsection, idx) ->
  is_none subsection = false ->
  update_section_in_place json_loads float_repr kw v section
    (level0 :: next :: rest) section_idx =
    if is_int subsection then
      if negb (append_mode kw)
      then Failed (RuntimeError "Leaf was found where subsection expected") section
      else
        match update_section_in_place json_loads float_repr kw v
                (VDict [(AStr level, VDict [])]) (next :: rest) level_idx with
        | Done subsection2 changed =>
            Done (_assign_subsection section level subsection2 section_idx)
              (true || changed)
        | Failed e _ => Failed e section
        end
    else
      match update_section_in_place json_loads float_repr kw v subsection
              (next :: rest) level_idx with
      | Done subsection2 changed =>
          Done (_assign_subsection section level subsection2 section_idx)
            (false || changed)
      | Failed e held => Failed e (store_in_place section level idx held)
      end.
Proof.
  intros He Hg Hn. cbn [update_section_in_place]. rewrite He, Hg, Hn. reflexivity.
Qed.

Lemma update_section_in_place_absent kw v section level0 next rest section_idx
  level level_idx subsection idx :
  _enrich_level_index level0 = (level, level_idx) ->
  _get_subsection section level section_idx = (subsection, idx) ->
  is_none subsection = true ->
  update_section_in_place json_loads float_repr kw v section
    (level0 :: next :: rest) section_idx =
    if negb (append_mode kw)
    then Failed (RuntimeError "Subsection not found in dict") section
    else
      match section with
      | VDict d =>
          match update_section_in_place json_loads float_repr kw v (VDict [])
                  (next :: rest) None with
          | Done created _ =>
              Done (VDict (dict_set (dict_set d (AStr level) (VDict []))
                             (AStr level) created)) true
          | Failed e held =>
              Failed e (VDict (dict_set (dict_set d (AStr level) (VDict []))
                                 (AStr level) held))
          end
      | VList l =>
          match update_section_in_place json_loads float_repr kw v (VDict [])
                  (next :: rest) None with
          | Done created _ =>
              Done (VList (l ++ [VDict [(AStr level, created)]])) true
          | Failed e held => Failed e (VList (l ++ [VDict [(AStr level, held)]]))
          end
      | VAtom a =>
          match update_section_in_place json_loads float_repr kw v (VDict [])
                  (next :: rest) None with
          | Done created _ =>
              Done (VDict [(AStr (py_str float_repr a),
                            VDict [(AStr level, created)])]) true
          | Failed e _ => Failed e section
          end
      end.
Proof.
  intros He Hg Hn. cbn [update_section_in_place]. rewrite He, Hg, Hn. reflexivity.
Qed.

(** the two embeddings of [update_section] return alike *)
Lemma update_section_in_place_returned kw v levels :
  forall section section_idx,
    returned (update_section_in_place json_loads float_repr kw v section levels
                section_idx)
    = update_section json_loads float_repr kw v section levels section_idx.
Proof.
  induction levels as [|level0 rest IH]; intros section sidx; [reflexivity|].
  destruct rest as [|next rest].
  - rewrite update_section_in_place_last.
    now destruct (update_section json_loads float_repr kw v section [level0] sidx)
      as [[s c]|e].
  - destruct (_enrich_level_index level0) as [level lidx] eqn:He.
    destruct (_get_subsection section level sidx) as [sub idx] eqn:Hg.
    destruct (is_none sub) eqn:Hn.
    + rewrite (update_section_in_place_absent _ _ _ _ _ _ _ _ _ _ _ He Hg Hn).
      rewrite (update_section_deeper_absent json_loads float_repr _ _ _ _ _ _ _
                 _ _ _ _ He Hg Hn).
      destruct (negb (append_mode kw)); [reflexivity|].
      rewrite <- (IH (VDict []) None).
      destruct section as [a|l|d];
        now destruct (update_section_in_place json_loads float_repr kw v (VDict [])
                        (next :: rest) None).
    + rewrite (update_section_in_place_deeper _ _ _ _ _ _ _ _ _ _ _ He Hg Hn).
      rewrite (update_section_deeper json_loads float_repr _ _ _ _ _ _ _ _ _ _ _
                 He Hg Hn).
      destruct (is_int sub).
      * destruct (negb (append_mode kw)); [reflexivity|]. cbn [bind].
        rewrite <- IH.
        now destruct (update_section_in_place json_loads float_repr kw v
                        (VDict [(AStr level, VDict [])]) (next :: rest) lidx).
      * cbn [bind]. rewrite <- IH.
        now destruct (update_section_in_place json_loads float_repr kw v sub
                        (next :: rest) lidx).
Qed.
End InPlaceUnfolding.

(** ** Requests below existing subsections *)

Lemma bind_ok_pair (r : result (value * bool)) :
  ('(s, c) <- r ;; Ok (s, c)) = r.
Proof. now destruct r as [[s c]|e]. Qed.

(** A request whose leading segments name existing subsections is the
    request made of the other segments on the section they lead to, its
    result handed up from section to section with the same flag. *)
Lemma update_section_below json_loads float_repr kw v parents :
  forall section section_idx target target_idx level0 rest,
    reach section parents section_idx = Some (target, target_idx) ->
    update_section json_loads float_repr kw v section
      (parents ++ level0 :: rest) section_idx
    = '(subsection, changed) <-
         update_section json_loads float_repr kw v target (level0 :: rest)
           target_idx ;;
      Ok (assign_along section parents section_idx subsection, changed).
Proof.
  induction parents as [|p parents IH];
    intros section sidx target tidx level0 rest Hr.
  - cbn [reach] in Hr. inversion Hr; subst. cbn [app assign_along].
    symmetry. apply bind_ok_pair.
  - cbn [reach] in Hr. cbn [assign_along].
    destruct (_enrich_level_index p) as [level lidx] eqn:He.
    destruct (_get_subsection section level sidx) as [sub idx] eqn:Hg.
    destruct (is_none sub) eqn:Hn; [discriminate Hr|].
    destruct (is_int sub) eqn:Hi; [discriminate Hr|]. cbn [orb] in Hr.
    assert (Hstep :
      update_section json_loads float_repr kw v section
        ((p :: parents) ++ level0 :: rest) sidx
      = '(subsection2, changed) <-
           update_section json_loads float_repr kw v sub
             (parents ++ level0 :: rest) lidx ;;
        Ok (_assign_subsection section level subsection2 sidx, changed)).
    { cbn [app]. destruct parents as [|q parents]; cbn [app];
        rewrite (update_section_deeper json_loads float_repr kw v _ _ _ _ _ _ _
                   _ _ He Hg Hn), Hi; reflexivity. }
    rewrite Hstep, (IH _ _ _ _ level0 rest Hr).
    now destruct (update_section json_loads float_repr kw v target
                    (level0 :: rest) tidx) as [[s c]|e].
Qed.

(** through Maps, handing back what was found changes nothing *)
Lemma assign_along_maps parents :
  forall section section_idx target target_idx,
    through_maps section parents = true ->
    reach section parents section_idx = Some (target, target_idx) ->
    assign_along section parents section_idx target = section.
Proof.
  induction parents as [|p parents IH]; intros section sidx target tidx Hm Hr.
  - cbn in Hr. now inversion Hr.
  - cbn [through_maps] in Hm. cbn [reach] in Hr. cbn [assign_along].
    destruct section as [a|l|d]; try discriminate Hm.
    destruct (_enrich_level_index p) as [level lidx]. cbn [fst] in Hm.
    cbn [_get_subsection] in Hr |- *.
    destruct (dict_get d (AStr level)) as [sub|] eqn:Hd; [|discriminate Hm].
    destruct (is_none sub || is_int sub); [discriminate Hr|].
    rewrite (IH _ _ _ _ Hm Hr). cbn [_assign_subsection].
    now rewrite (dict_mem_get _ _ _ Hd), (dict_set_same _ _ _ Hd).
Qed.

Lemma list_put_same (l : list value) (i : nat) (x : value) :
  nth_error l i = Some x -> list_put l i x = l.
Proof.
  intros H. unfold list_put. rewrite H.
  revert i H. induction l as [|y l IH]; intros [|i] H; try discriminate H.
  - cbn in H. now inversion H.
  - cbn [firstn skipn app]. cbn [nth_error] in H. f_equal. now apply IH.
Qed.

(** putting back what [_get_subsection] found changes nothing *)
Lemma store_in_place_same section level section_idx subsection idx :
  _get_subsection section level section_idx = (subsection, idx) ->
  is_none subsection = false ->
  store_in_place section level idx subsection = section.
Proof.
  intros Hg Hn. destruct section as [a|l|d]; [reflexivity| |].
  - cbn [_get_subsection] in Hg. cbn [store_in_place].
    destruct idx as [i|]; [|reflexivity].
    destruct (get_in_list_found _ _ _ _ _ _ Hg) as (j & el & Hi & Hnth & _ & Hm).
    cbn in Hi. subst j. rewrite Hnth.
    destruct Hm as [[Heq ->]|(d & -> & Hd)].
    + destruct el as [a|xs|d]; try reflexivity. discriminate Heq.
    + now rewrite (dict_set_same _ _ _ Hd), (list_put_same _ _ _ Hnth).
  - cbn [_get_subsection] in Hg. cbn [store_in_place].
    destruct (dict_get d (AStr level)) as [x|] eqn:Hd.
    + inversion Hg; subst. now rewrite (dict_set_same _ _ _ Hd).
    + inversion Hg; subst. discriminate Hn.
Qed.

(** a failure that leaves the section it occurs in as it was leaves the
    whole tree as it was, when the segments before name existing
    subsections *)
Lemma update_section_in_place_below json_loads float_repr kw v parents :
  forall section section_idx target target_idx level0 rest e,
    reach section parents section_idx = Some (target, target_idx) ->
    update_section_in_place json_loads float_repr kw v target (level0 :: rest)
      target_idx = Failed e target ->
    update_section_in_place json_loads float_repr kw v section
      (parents ++ level0 :: rest) section_idx = Failed e section.
Proof.
  induction parents as [|p parents IH];
    intros section sidx target tidx level0 rest e Hr Hf.
  - cbn [reach] in Hr. inversion Hr; subst. exact Hf.
  - cbn [reach] in Hr.
    destruct (_enrich_level_index p) as [level lidx] eqn:He.
    destruct (_get_subsection section level sidx) as [sub idx] eqn:Hg.
    destruct (is_none sub) eqn:Hn; [discriminate Hr|].
    destruct (is_int sub) eqn:Hi; [discriminate Hr|]. cbn [orb] in Hr.
    pose proof (IH _ _ _ _ level0 rest e Hr Hf) as Hsub.
    cbn [app]. destruct parents as [|q parents]; cbn [app] in Hsub |- *;
      rewrite (update_section_in_place_deeper json_loads float_repr kw v _ _ _ _
                 _ _ _ _ _ He Hg Hn), Hi, Hsub;
      now rewrite (store_in_place_same _ _ _ _ _ Hg Hn).
Qed.

(** X27: a non-append operation whose last segment names an absent key of
    the section that the segments before it lead to.  A removal run with
    [ignore_not_found] reports no change and hands the section found back
    up the path, which leaves the tree as it was when every section on the
    way is a Map.  In every other case the request raises "Key not found in
    dict", and the tree is as it was. *)
Theorem absent_key_without_append :
  forall json_loads float_repr operation ignore v config config_idx parents
         section section_idx level0 level level_idx idx,
    append_mode (kwargs_of operation ignore) = false ->
    reach config parents config_idx = Some (section, section_idx) ->
    _enrich_level_index level0 = (level, level_idx) ->
    _get_subsection section level section_idx = (vnone, idx) ->
    (is_remove_operation operation && ignore = true ->
     update_section json_loads float_repr (kwargs_of operation ignore) v config
       (parents ++ [level0]) config_idx
     = Ok (assign_along config parents config_idx section, false) /\
     (through_maps config parents = true ->
      update_section json_loads float_repr (kwargs_of operation ignore) v config
        (parents ++ [level0]) config_idx
      = Ok (config, false))) /\
    (is_remove_operation operation && ignore = false ->
     update_section json_loads float_repr (kwargs_of operation ignore) v config
       (parents ++ [level0]) config_idx
     = Raise (RuntimeError "Key not found in dict") /\
     update_section_in_place json_loads float_repr (kwargs_of operation ignore) v
       config (parents ++ [level0]) config_idx
     = Failed (RuntimeError "Key not found in dict") config).
Proof.
  intros jl fr operation ignore v config cidx parents section sidx level0 level
         lidx idx Ha Hr He Hg.
  pose proof (absent_key_without_append_last jl fr operation ignore v section level0
                sidx level lidx idx Ha He Hg) as Hlast.
  pose proof (update_section_below jl fr (kwargs_of operation ignore) v parents
                _ _ _ _ level0 [] Hr) as Hbelow.
  split; intros Hcase; rewrite Hcase in Hlast.
  - assert (Hall :
      update_section jl fr (kwargs_of operation ignore) v config
        (parents ++ [level0]) cidx
      = Ok (assign_along config parents cidx section, false))
      by now rewrite Hbelow, Hlast.
    split; [exact Hall|].
    intros Hm. now rewrite Hall, (assign_along_maps _ _ _ _ _ Hm Hr).
  - split; [now rewrite Hbelow, Hlast|].
    apply (update_section_in_place_below jl fr _ v parents _ _ _ _ _ _ _ Hr).
    now rewrite update_section_in_place_last, Hlast.
Qed.

Lemma absent_key_without_append_witness :
  append_mode (kwargs_of Remove true) = false /\
  reach (VDict [(AStr "a", VDict [(AStr "c", vint 1)])]) ["a"] None
    = Some (VDict [(AStr "c", vint 1)], None) /\
  _enrich_level_index "b" = ("b", None) /\
  _get_subsection (VDict [(AStr "c", vint 1)]) "b" None = (vnone, None) /\
  is_remove_operation Remove && true = true /\
  through_maps (VDict [(AStr "a", VDict [(AStr "c", vint 1)])]) ["a"] = true /\
  update_section loads_rejecting repr_unused (kwargs_of Remove true) vnone
    (VDict [(AStr "a", VDict [(AStr "c", vint 1)])]) (["a"] ++ ["b"]) None
  = Ok (VDict [(AStr "a", VDict [(AStr "c", vint 1)])], false).
Proof.
  do 5 (split; [reflexivity|]). split; [reflexivity|].
  exact (proj2 (proj1 (absent_key_without_append loads_rejecting repr_unused
                         Remove true vnone
                         (VDict [(AStr "a", VDict [(AStr "c", vint 1)])]) None
                         ["a"] (VDict [(AStr "c", vint 1)]) None "b" "b" None None
                         eq_refl eq_refl eq_refl eq_refl) eq_refl) eq_refl).
Defined.

(** C8: below a List that holds the segment in several elements the tree
    does not come back unchanged.  Removing the absent [l.a.z] from
    [{"l": [{"a": {"x": 1}}, {"a": {"y": 2}}]}] with [ignore_not_found]
    reports no change, and yet the tree returned has the first [a] copied
    over the second: on the way back the subsection is assigned again
    whatever the flag says, and with no index it goes to every element that
    holds the key. *)
Theorem ignored_removal_overwrites_siblings :
  _mod_kvs loads_rejecting repr_unused
    (VDict [(AStr "l", VList [VDict [(AStr "a", VDict [(AStr "x", vint 1)])];
                              VDict [(AStr "a", VDict [(AStr "y", vint 2)])]])])
    ["l.a.z"] Remove true
  = Ok (VDict [(AStr "l", VList [VDict [(AStr "a", VDict [(AStr "x", vint 1)])];
                                 VDict [(AStr "a", VDict [(AStr "x", vint 1)])]])],
        false) /\
  _mod_kvs loads_rejecting repr_unused
    (VDict [(AStr "l", VList [VDict [(AStr "a", VDict [(AStr "x", vint 1)])];
                              VDict [(AStr "a", VDict [(AStr "y", vint 2)])]])])
    ["l.a.z"] Remove true
  <> Ok (VDict [(AStr "l", VList [VDict [(AStr "a", VDict [(AStr "x", vint 1)])];
                                  VDict [(AStr "a", VDict [(AStr "y", vint 2)])]])],
         false).
Proof. split; [vm_compute; reflexivity|vm_compute; discriminate]. Qed.

(** C5, as the code has it: under an operation that may not create keys, a
    path that goes on past a subsection that is an integer or a boolean
    raises "Leaf was found where subsection expected". *)
Theorem int_leaf_where_subsection_expected :
  forall json_loads float_repr kw v section level0 next rest section_idx
         level level_idx subsection idx,
    append_mode kw = false ->
    _enrich_level_index level0 = (level, level_idx) ->
    _get_subsection section level section_idx = (subsection, idx) ->
    is_int subsection = true ->
    update_section json_loads float_repr kw v section (level0 :: next :: rest)
      section_idx =
      Raise (RuntimeError "Leaf was found where subsection expected").
Proof.
  intros jl fr kw v section level0 next rest sidx level lidx sub idx Ha He Hg Hi.
  assert (Hn : is_none sub = false) by (destruct sub as [[]| |]; easy).
  rewrite (update_section_deeper jl fr kw v _ _ _ _ _ _ _ _ _ He Hg Hn).
  now rewrite Hi, Ha.
Qed.

Lemma int_leaf_where_subsection_expected_witness :
  append_mode (kwargs_of Update false) = false /\
  _enrich_level_index "a" = ("a", None) /\
  _get_subsection doc_int "a" None = (vint 1, None) /\
  is_int (vint 1) = true /\
  update_section loads_rejecting repr_unused (kwargs_of Update false) (vint 2)
    doc_int ["a"; "b"] None =
    Raise (RuntimeError "Leaf was found where subsection expected").
Proof.
  do 4 (split; [reflexivity|]).
  apply (int_leaf_where_subsection_expected loads_rejecting repr_unused
           (kwargs_of Update false) (vint 2) doc_int "a" "b" [] None "a" None
           (vint 1) None); reflexivity.
Defined.

(** C5 as stated fails on a string leaf: removing [a.b] from [{"a": "x"}]
    with [ignore_not_found] does not fail at all, and updating [a.b] raises
    "Key not found in dict". *)
Lemma string_leaf_not_reported :
  _mod_kvs loads_rejecting repr_unused doc_str ["a.b"] Remove true
    = Ok (doc_str, false) /\
  _mod_kvs loads_rejecting repr_unused doc_str ["a.b=1"] Update false
    = Raise (RuntimeError "Key not found in dict") /\
  _mod_kvs loads_rejecting repr_unused doc_str ["a.b=1"] Update false
    <> Raise (RuntimeError "Leaf was found where subsection expected").
Proof.
  split; [vm_compute; reflexivity|].
  split; [vm_compute; reflexivity|].
  vm_compute; discriminate.
Qed.

Lemma as_list_list (l : list value) : as_list (VList l) = l.
Proof. reflexivity. Qed.

Lemma as_list_scalar (v : value) :
  (forall l, v <> VList l) -> as_list v = [v].
Proof. destruct v; try reflexivity. intros H. now destruct (H l). Qed.

Lemma opens_list_spec (level_idx : option index) :
  opens_list level_idx = true <->
  In level_idx [Some (IdxStr "start"); Some (IdxStr "end"); Some (IdxInt 0)].
Proof.
  destruct level_idx as [[n|s]|]; cbn.
  - rewrite orb_false_r, Z.eqb_eq. split.
    + intros ->. tauto.
    + intros [H|[H|[H|[]]]]; congruence.
  - rewrite orb_false_r, orb_true_iff, !String.eqb_eq. split.
    + intros [->| ->]; tauto.
    + intros [H|[H|[H|[]]]]; inversion H; tauto.
  - split; [discriminate|]. intros [H|[H|[H|[]]]]; discriminate.
Qed.

(** The call that handles the last segment: when the segment names an
    absent key, an append-capable operation stores [as_list value] under
    the key for the index [start], [end] or [0], and raises "List doesn't
    exist" for any other index. *)
Lemma absent_key_with_append_last :
  forall json_loads float_repr kw v section level0 section_idx
         level level_idx idx,
    append_mode kw = true ->
    _enrich_level_index level0 = (level, level_idx) ->
    _get_subsection section level section_idx = (vnone, idx) ->
    (In level_idx [Some (IdxStr "start"); Some (IdxStr "end"); Some (IdxInt 0)] ->
     update_section json_loads float_repr kw v section [level0] section_idx =
       Ok (match section with
           | VDict d => VDict (dict_set d (AStr level) (VList (as_list v)))
           | VList l => VList (l ++ [VDict [(AStr level, VList (as_list v))]])
           | VAtom a =>
               VDict [(AStr (py_str float_repr a),
                       VDict [(AStr level, VList (as_list v))])]
           end, true)) /\
    (level_idx <> None ->
     ~ In level_idx [Some (IdxStr "start"); Some (IdxStr "end"); Some (IdxInt 0)] ->
     update_section json_loads float_repr kw v section [level0] section_idx =
       Raise (RuntimeError "List doesn't exist")).
Proof.
  intros jl fr kw v section level0 sidx level lidx idx Ha He Hg.
  rewrite (update_section_last jl fr kw v _ _ _ _ _ _ _ He Hg).
  cbn [is_none vnone]. rewrite Ha. cbn [negb]. split.
  - intros Hin. apply opens_list_spec in Hin. rewrite Hin. cbn [bind].
    now destruct section.
  - intros Hsome Hnot.
    destruct (opens_list lidx) eqn:Ho.
    + now apply opens_list_spec in Ho.
    + destruct lidx; [reflexivity|now destruct Hsome].
Qed.

(** ** Terminal segment, key present *)

(** Whatever the operation that is not a removal, a request whose value
    equals the leaf it names leaves a Map parent as it is, and yet is
    reported as a change. *)
Lemma equal_value_on_map :
  forall json_loads float_repr kw v d level0 section_idx level level_idx
         subsection,
    rm_mode kw = false ->
    _enrich_level_index level0 = (level, level_idx) ->
    dict_get d (AStr level) = Some subsection ->
    is_none subsection = false ->
    py_eq subsection v = true ->
    update_section json_loads float_repr kw v (VDict d) [level0] section_idx =
      Ok (VDict d, true).
Proof.
  intros jl fr kw v d level0 sidx level lidx sub Hrm He Hd Hn Heq.
  assert (Hg : _get_subsection (VDict d) level sidx = (sub, None))
    by (cbn; now rewrite Hd).
  rewrite (update_section_last jl fr kw v _ _ _ _ _ _ _ He Hg).
  rewrite Hn, Hrm, Heq. cbn.
  now rewrite (dict_mem_get _ _ _ Hd), (dict_set_same _ _ _ Hd).
Qed.

(** C1: [Update a=1] on [{"a": 1}] leaves the document as it is, and the
    request is reported as a change. *)
Theorem equal_update_reports_change :
  forall json_loads float_repr,
    _mod_kvs json_loads float_repr doc_int ["a=1"] Update false
    = Ok (doc_int, true).
Proof. intros. vm_compute. reflexivity. Qed.

(** On a list parent the same request also overwrites the siblings that hold
    the key: [Update l.a=1] on [{"l": [{"a": 1}, {"a": 2}]}] finds the first
    element, whose value is equal, and then assigns 1 to both. *)
Lemma equal_update_overwrites_siblings :
  _mod_kvs loads_rejecting repr_unused
    (VDict [(AStr "l", VList [VDict [(AStr "a", vint 1)];
                              VDict [(AStr "a", vint 2)]])])
    ["l.a=1"] Update false
  = Ok (VDict [(AStr "l", VList [VDict [(AStr "a", vint 1)];
                                 VDict [(AStr "a", vint 1)]])], true).
Proof. vm_compute. reflexivity. Qed.

(** Removal by index with [ignore_not_found], from a list held by a Map:
    an index beyond the length is ignored, an index equal to the length is
    not. *)
Lemma remove_index_out_of_range :
  forall json_loads float_repr v d level0 section_idx level n l,
    _enrich_level_index level0 = (level, Some (IdxInt n)) ->
    dict_get d (AStr level) = Some (VList l) ->
    ((Z.of_nat (List.length l) < n)%Z ->
     update_section json_loads float_repr (kwargs_of Remove true) v (VDict d)
       [level0] section_idx = Ok (VDict d, false)) /\
    (n = Z.of_nat (List.length l) ->
     update_section json_loads float_repr (kwargs_of Remove true) v (VDict d)
       [level0] section_idx
     = Raise (IndexError "list assignment index out of range")).
Proof.
  intros jl fr v d level0 sidx level n l He Hd.
  assert (Hg : _get_subsection (VDict d) level sidx = (VList l, None))
    by (cbn; now rewrite Hd).
  rewrite (update_section_last jl fr _ v _ _ _ _ _ _ _ He Hg).
  cbn [is_none kwargs_of rm_mode].
  unfold _handle_rm_from_section, section_item.
  cbn [kwargs_of rm_value_mode ignore_not_found andb]. rewrite Hd. cbn [bind].
  split.
  - intros Hn. apply Z.ltb_lt in Hn. now rewrite Hn.
  - intros ->. rewrite Z.ltb_irrefl. unfold list_del, item_position.
    destruct (Z.ltb_spec (Z.of_nat (List.length l)) 0); [lia|].
    rewrite Z.ltb_irrefl, andb_false_r. reflexivity.
Qed.

(** C3: with [ignore_not_found], removing index 2 of the two-element list of
    [{"l": ["a", "b"]}] raises [IndexError]; only from index 3 on is the
    request ignored. *)
Theorem remove_at_length_raises :
  forall json_loads float_repr,
    _mod_kvs json_loads float_repr doc_list ["l[2]"] Remove true
      = Raise (IndexError "list assignment index out of range") /\
    _mod_kvs json_loads float_repr doc_list ["l[3]"] Remove true
      = Ok (doc_list, false).
Proof. intros. split; vm_compute; reflexivity. Qed.

(** A removal by value that matches no element of a list held by a Map
    leaves the Map as it is and is reported as a change. *)
Lemma unmatched_removal_on_map :
  forall json_loads float_repr ignore v d level0 section_idx level rm_value l,
    _enrich_level_index level0 = (level, Some (IdxStr rm_value)) ->
    dict_get d (AStr level) = Some (VList l) ->
    match json_loads rm_value with
    | Some decoded => find_index (fun item => py_eq decoded item) l = None
    | None => existsb (fun item => py_eq item (vstr rm_value)) l = false
    end ->
    update_section json_loads float_repr (kwargs_of RemoveListElement ignore)
      v (VDict d) [level0] section_idx = Ok (VDict d, true).
Proof.
  intros jl fr ignore v d level0 sidx level rv l He Hd Hno.
  assert (Hg : _get_subsection (VDict d) level sidx = (VList l, None))
    by (cbn; now rewrite Hd).
  rewrite (update_section_last jl fr _ v _ _ _ _ _ _ _ He Hg).
  cbn [is_none kwargs_of rm_mode].
  unfold _handle_rm_from_section. cbn [kwargs_of rm_value_mode].
  unfold _handle_rm_by_value, section_item. rewrite Hd. cbn [bind].
  destruct (jl rv) as [decoded|]; rewrite Hno; cbn;
    now rewrite Hd, (dict_mem_get _ _ _ Hd), (dict_set_same _ _ _ Hd).
Qed.

(** C4: [RemoveListElement l[zzz]] on [{"l": ["a", "b"]}] matches nothing,
    leaves the document as it is, and is reported as a change, with and
    without [ignore_not_found]. *)
Theorem unmatched_removal_reports_change :
  _mod_kvs loads_rejecting repr_unused doc_list ["l[zzz]"] RemoveListElement false
    = Ok (doc_list, true) /\
  _mod_kvs loads_rejecting repr_unused doc_list ["l[zzz]"] RemoveListElement true
    = Ok (doc_list, true).
Proof. split; vm_compute; reflexivity. Qed.

Lemma item_position_in_range (len p : nat) :
  (p < len)%nat -> item_position len (Z.of_nat p) = Some p.
Proof.
  intros H. unfold item_position.
  destruct (Z.ltb_spec (Z.of_nat p) 0); [lia|].
  destruct (Z.leb_spec 0 (Z.of_nat p)); [|lia].
  destruct (Z.ltb_spec (Z.of_nat p) (Z.of_nat len)); [|lia].
  cbn. now rewrite Nat2Z.id.
Qed.

Lemma list_insert_front (l : list value) (v : value) : list_insert l 0 v = v :: l.
Proof.
  unfold list_insert, list_splice, clamp_position. cbn.
  replace (Z.min 0 (Z.of_nat (List.length l))) with 0%Z by lia. reflexivity.
Qed.

(** after a handler stored [x] under [level], the Map holds [x] there and
    assigning it once more changes nothing *)
Lemma assign_after_store d level x section_idx old :
  _assign_subsection (VDict (dict_set d (AStr level) x)) level
    (reread (VDict (dict_set d (AStr level) x)) level old) section_idx
  = VDict (dict_set d (AStr level) x).
Proof.
  pose proof (dict_get_set_eq d (AStr level) (AStr level) x
                (atom_eqb_str_refl level)) as Hg.
  cbn. rewrite Hg. now rewrite (dict_mem_get _ _ _ Hg), (dict_set_same _ _ _ Hg).
Qed.

(** C2, as the code has it: Update or Add with an index on the last
    segment, aimed at a list held by a Map and carrying a value other than
    that list, overwrites the element at an integer index inside the list;
    with [start] it inserts the value before the first element, and with
    [end] it appends it. *)
Theorem index_assign_on_list :
  forall json_loads float_repr kw v d level0 section_idx level li l,
    rm_mode kw = false ->
    extend_mode kw = false ->
    list_insert_mode kw = false ->
    _enrich_level_index level0 = (level, Some li) ->
    dict_get d (AStr level) = Some (VList l) ->
    py_eq (VList l) v = false ->
    (forall p, li = IdxInt (Z.of_nat p) -> (p < List.length l)%nat ->
       update_section json_loads float_repr kw v (VDict d) [level0] section_idx
       = Ok (VDict (dict_set d (AStr level)
                      (VList (firstn p l ++ v :: skipn (S p) l))), true)) /\
    (li = IdxStr "start" ->
       update_section json_loads float_repr kw v (VDict d) [level0] section_idx
       = Ok (VDict (dict_set d (AStr level) (VList (v :: l))), true)) /\
    (li = IdxStr "end" ->
       update_section json_loads float_repr kw v (VDict d) [level0] section_idx
       = Ok (VDict (dict_set d (AStr level) (VList (l ++ [v]))), true)).
Proof.
  intros jl fr kw v d level0 sidx level li l Hrm Hex Hins He Hd Hne.
  assert (Hg : _get_subsection (VDict d) level sidx = (VList l, None))
    by (cbn; now rewrite Hd).
  rewrite (update_section_last jl fr kw v _ _ _ _ _ _ _ He Hg).
  cbn [is_none]. rewrite Hrm, Hne. cbn [negb].
  unfold _handle_insert_in_section, section_item. rewrite Hd. cbn [orb bind].
  unfold _handle_add_to_list, section_list, section_item, set_section_item.
  rewrite Hex, Hins, Hd. cbn [bind].
  split; [|split].
  - intros p -> Hp. cbn [idx_is]. unfold list_set.
    rewrite (item_position_in_range _ _ Hp). cbn [bind is_none vnone].
    do 2 f_equal. apply assign_after_store.
  - intros ->. cbn [idx_is ListIndices.start String.eqb Ascii.eqb Bool.eqb bind
                    is_none vnone].
    rewrite list_insert_front. do 2 f_equal. apply assign_after_store.
  - intros ->. cbn [idx_is ListIndices.start ListIndices.end_ String.eqb
                    Ascii.eqb Bool.eqb bind is_none vnone].
    do 2 f_equal. apply assign_after_store.
Qed.

Lemma index_assign_on_list_witness :
  rm_mode (kwargs_of Update false) = false /\
  extend_mode (kwargs_of Update false) = false /\
  list_insert_mode (kwargs_of Update false) = false /\
  _enrich_level_index "l[1]" = ("l", Some (IdxInt 1)) /\
  dict_get [(AStr "l", VList [vstr "a"; vstr "b"])] (AStr "l")
    = Some (VList [vstr "a"; vstr "b"]) /\
  py_eq (VList [vstr "a"; vstr "b"]) (vstr "x") = false /\
  (1 < List.length [vstr "a"; vstr "b"])%nat /\
  update_section loads_rejecting repr_unused (kwargs_of Update false) (vstr "x")
    doc_list ["l[1]"] None
  = Ok (VDict [(AStr "l", VList [vstr "a"; vstr "x"])], true).
Proof.
  do 6 (split; [reflexivity|]).
  assert (Hlt : (1 < List.length [vstr "a"; vstr "b"])%nat) by (cbn; lia).
  split; [exact Hlt|].
  exact (proj1 (index_assign_on_list loads_rejecting repr_unused
                  (kwargs_of Update false) (vstr "x")
                  [(AStr "l", VList [vstr "a"; vstr "b"])] "l[1]" None "l"
                  (IdxInt 1) [vstr "a"; vstr "b"]
                  eq_refl eq_refl eq_refl eq_refl eq_refl eq_refl)
           1%nat eq_refl Hlt).
Defined.

(** C2 as stated fails at [start] and at [end]: [Update l[start]=x] and
    [Update l[end]=x] on [{"l": ["a", "b"]}] give a list of three elements;
    no element is overwritten. *)
Lemma start_and_end_insert :
  _mod_kvs loads_rejecting repr_unused doc_list ["l[start]=x"] Update false
    = Ok (VDict [(AStr "l", VList [vstr "x"; vstr "a"; vstr "b"])], true) /\
  _mod_kvs loads_rejecting repr_unused doc_list ["l[end]=x"] Update false
    = Ok (VDict [(AStr "l", VList [vstr "a"; vstr "b"; vstr "x"])], true) /\
  _mod_kvs loads_rejecting repr_unused doc_list ["l[start]=x"] Update false
    <> Ok (VDict [(AStr "l", VList [vstr "x"; vstr "b"])], true) /\
  _mod_kvs loads_rejecting repr_unused doc_list ["l[end]=x"] Update false
    <> Ok (VDict [(AStr "l", VList [vstr "a"; vstr "x"])], true).
Proof.
  split; [vm_compute; reflexivity|].
  split; [vm_compute; reflexivity|].
  split; vm_compute; discriminate.
Qed.

(** the handler itself rejects [end] whatever it is given *)
Lemma handle_extend_list_end (v section : value) (level : string) :
  _handle_extend_list v section level (Some (IdxStr "end"))
  = Raise (ValueError "List index has invalid value: end").
Proof. reflexivity. Qed.

(** C10, as the code has it: ExtendList with the index [end] on the last
    segment, aimed at an existing list and carrying a value other than that
    list, raises an error; when the list is held by a Map the error is the
    [ValueError] for the index. *)
Theorem extend_at_end_rejected :
  forall json_loads float_repr ignore v section level0 section_idx level l idx,
    _enrich_level_index level0 = (level, Some (IdxStr "end")) ->
    _get_subsection section level section_idx = (VList l, idx) ->
    py_eq (VList l) v = false ->
    (exists e,
       update_section json_loads float_repr (kwargs_of ExtendList ignore) v
         section [level0] section_idx = Raise e) /\
    (forall d, section = VDict d ->
       update_section json_loads float_repr (kwargs_of ExtendList ignore) v
         section [level0] section_idx
       = Raise (ValueError "List index has invalid value: end")).
Proof.
  intros jl fr ignore v section level0 sidx level l idx He Hg Hne.
  rewrite (update_section_last jl fr _ v _ _ _ _ _ _ _ He Hg).
  cbn [is_none kwargs_of rm_mode]. rewrite Hne. cbn [negb].
  unfold _handle_insert_in_section, section_item. cbn [orb].
  destruct section as [a|items|d].
  - discriminate Hg.
  - split; [now exists TypeError|discriminate].
  - cbn in Hg. destruct (dict_get d (AStr level)) as [x|]; [|discriminate Hg].
    inversion Hg; subst x. cbn [bind].
    split; [eexists; reflexivity|reflexivity].
Qed.

Lemma extend_at_end_rejected_witness :
  _enrich_level_index "l[end]" = ("l", Some (IdxStr "end")) /\
  _get_subsection doc_list "l" None = (VList [vstr "a"; vstr "b"], None) /\
  py_eq (VList [vstr "a"; vstr "b"]) (vstr "x") = false /\
  update_section loads_rejecting repr_unused (kwargs_of ExtendList false)
    (vstr "x") doc_list ["l[end]"] None
  = Raise (ValueError "List index has invalid value: end").
Proof.
  do 3 (split; [reflexivity|]).
  exact (proj2 (extend_at_end_rejected loads_rejecting repr_unused false
                  (vstr "x") doc_list "l[end]" None "l" [vstr "a"; vstr "b"]
                  None eq_refl eq_refl eq_refl) _ eq_refl).
Defined.

(** C10 as stated fails when the value equals the list: [ExtendList
    l[end]=a,b] on [{"l": ["a", "b"]}] raises nothing and returns the
    document as it is. *)
Lemma extend_at_end_with_equal_value :
  _mod_kvs loads_rejecting repr_unused doc_list ["l[end]=a,b"] ExtendList false
    = Ok (doc_list, true) /\
  (forall e,
     _mod_kvs loads_rejecting repr_unused doc_list ["l[end]=a,b"] ExtendList false
     <> Raise e).
Proof. split; [vm_compute; reflexivity|]. intros e. vm_compute. discriminate. Qed.

(** ** The literal grammar *)

(** without a brace, a text with commas is split at each comma, the empty
    pieces are dropped and each piece is converted *)
Lemma parse_value_comma_list (text : string) :
  contains_char "{" text = false ->
  contains_char "," text = true ->
  parse_value text =
    convert_value_to_yaml
      (VList (map vstr (filter nonempty (split_char "," text)))).
Proof. intros Hb Hc. unfold parse_value. now rewrite Hb, Hc. Qed.

(** ** Deep merge *)

(** what [_deep_merge_dicts] does for one key of [d2] *)
Lemma deep_merge_cons (d1 : dict) (key : atom) (x2 : value) (tl : dict) :
  _deep_merge_dicts d1 ((key, x2) :: tl) =
  _deep_merge_dicts
    (match dict_get d1 key with
     | Some x1 =>
         match x1, x2 with
         | VDict a, VDict b => dict_set d1 key (VDict (_deep_merge_dicts a b))
         | _, _ => if py_eq x1 x2 then d1 else dict_set d1 key x2
         end
     | None => dict_set d1 key x2
     end) tl.
Proof.
  unfold _deep_merge_dicts. cbn [deep_merge_into]. f_equal.
  destruct (dict_get d1 key) as [[| |a]|]; try reflexivity.
  destruct x2; reflexivity.
Qed.

Lemma deep_merge_nil (d1 : dict) : _deep_merge_dicts d1 [] = d1.
Proof. reflexivity. Qed.

Lemma merge_step_same (d1 : dict) (key q : atom) (x2 : value) :
  atom_eqb key q = true ->
  dict_get
    (match dict_get d1 key with
     | Some x1 =>
         match x1, x2 with
         | VDict a, VDict b => dict_set d1 key (VDict (_deep_merge_dicts a b))
         | _, _ => if py_eq x1 x2 then d1 else dict_set d1 key x2
         end
     | None => dict_set d1 key x2
     end) q
  = Some (merged_entry (dict_get d1 q) x2).
Proof.
  intros H. rewrite <- (dict_get_congr d1 _ _ H). unfold merged_entry.
  destruct (dict_get d1 key) as [x1|] eqn:E.
  - assert (Hkeep : dict_get d1 q = Some x1)
      by now rewrite <- (dict_get_congr d1 _ _ H).
    destruct x1 as [a1|l1|a].
    + destruct (py_eq _ x2); [exact Hkeep|now apply dict_get_set_eq].
    + destruct (py_eq _ x2); [exact Hkeep|now apply dict_get_set_eq].
    + destruct x2 as [a2|l2|b].
      * destruct (py_eq _ _); [exact Hkeep|now apply dict_get_set_eq].
      * destruct (py_eq _ _); [exact Hkeep|now apply dict_get_set_eq].
      * now apply dict_get_set_eq.
  - now apply dict_get_set_eq.
Qed.

Lemma merge_step_other (d1 : dict) (key q : atom) (x2 : value) :
  atom_eqb key q = false ->
  dict_get
    (match dict_get d1 key with
     | Some x1 =>
         match x1, x2 with
         | VDict a, VDict b => dict_set d1 key (VDict (_deep_merge_dicts a b))
         | _, _ => if py_eq x1 x2 then d1 else dict_set d1 key x2
         end
     | None => dict_set d1 key x2
     end) q
  = dict_get d1 q.
Proof.
  intros H.
  destruct (dict_get d1 key) as [x1|].
  - destruct x1 as [a1|l1|a].
    + destruct (py_eq _ x2); [reflexivity|now apply dict_get_set_neq].
    + destruct (py_eq _ x2); [reflexivity|now apply dict_get_set_neq].
    + destruct x2 as [a2|l2|b].
      * destruct (py_eq _ _); [reflexivity|now apply dict_get_set_neq].
      * destruct (py_eq _ _); [reflexivity|now apply dict_get_set_neq].
      * now apply dict_get_set_neq.
  - now apply dict_get_set_neq.
Qed.

(** keys that [d2] lacks keep what [d1] held *)
Lemma deep_merge_absent (d2 d1 : dict) (q : atom) :
  dict_get d2 q = None ->
  dict_get (_deep_merge_dicts d1 d2) q = dict_get d1 q.
Proof.
  revert d1. induction d2 as [|[key x2] tl IH]; intros d1 H.
  - reflexivity.
  - cbn in H. destruct (atom_eqb key q) eqn:E; [discriminate|].
    rewrite deep_merge_cons, (IH _ H). now apply merge_step_other.
Qed.

(** keys that [d2] has *)
Lemma deep_merge_present (d2 d1 : dict) (q : atom) (x2 : value) :
  distinct_keys d2 = true ->
  dict_get d2 q = Some x2 ->
  dict_get (_deep_merge_dicts d1 d2) q = Some (merged_entry (dict_get d1 q) x2).
Proof.
  revert d1. induction d2 as [|[key y] tl IH]; intros d1 Hd H.
  - discriminate.
  - cbn in Hd, H. apply andb_prop in Hd as [Hfresh Hd].
    rewrite deep_merge_cons.
    destruct (atom_eqb key q) eqn:E.
    + inversion H; subst y.
      rewrite deep_merge_absent.
      * now apply merge_step_same.
      * rewrite <- (dict_get_congr tl _ _ E).
        unfold dict_mem in Hfresh. now destruct (dict_get tl key).
    + rewrite (IH _ Hd H). now rewrite merge_step_other.
Qed.






(** * Further properties of the code *)

(** ** The changed flag *)

Ltac break_match_in H :=
  match type of H with
  | context [match ?x with _ => _ end] => destruct x eqn:?
  end.

(** without [ignore_not_found] the removal handler never asks for the
    request to be passed over *)
Lemma rm_handler_not_ignored json_loads kw section level level_idx section1
  ignored :
  ignore_not_found kw = false ->
  _handle_rm_from_section json_loads kw section level level_idx
    = Ok (section1, ignored) ->
  ignored = false.
Proof.
  intros Hign H. unfold _handle_rm_from_section, bind in H. rewrite Hign in H.
  cbn [andb] in H.
  repeat break_match_in H; try discriminate; now inversion H.
Qed.

Lemma update_section_changed json_loads float_repr kw v levels :
  rm_mode kw = false \/ ignore_not_found kw = false ->
  forall section section_idx s c,
    update_section json_loads float_repr kw v section levels section_idx
      = Ok (s, c) ->
    c = true.
Proof.
  intros Hkw. induction levels as [|level0 rest IH]; intros section sidx s c H.
  - discriminate H.
  - cbn [update_section] in H.
    destruct (_enrich_level_index level0) as [level lidx].
    destruct (_get_subsection section level sidx) as [sub idx].
    destruct rest as [|next rest].
    + destruct (is_none sub).
      * destruct (append_mode kw); cbn [negb] in H.
        -- unfold bind in H.
           repeat break_match_in H; try discriminate; now inversion H.
        -- assert (Hand : rm_mode kw && ignore_not_found kw = false)
             by (destruct Hkw as [-> | ->]; [reflexivity|apply andb_false_r]).
           rewrite Hand in H. discriminate H.
      * destruct (rm_mode kw) eqn:Hrm.
        -- destruct Hkw as [Hkw|Hkw]; [discriminate Hkw|].
           unfold bind in H.
           destruct (_handle_rm_from_section json_loads kw section level lidx)
             as [[s1 ig]|e] eqn:E; [|discriminate H].
           rewrite (rm_handler_not_ignored _ _ _ _ _ _ _ Hkw E) in H.
           now inversion H.
        -- unfold bind in H.
           repeat break_match_in H; try discriminate; now inversion H.
    + destruct (is_none sub).
      * unfold bind in H.
        repeat break_match_in H; try discriminate; now inversion H.
      * unfold bind in H.
        destruct (if is_int sub
                  then if negb (append_mode kw)
                       then Raise (RuntimeError "Leaf was found where subsection expected")
                       else Ok (VDict [(AStr level, VDict [])], true)
                  else Ok (sub, false)) as [[sub1 hc]|e]; [|discriminate H].
        destruct (update_section json_loads float_repr kw v sub1 (next :: rest) lidx)
          as [[sub2 ch]|e] eqn:E; [|discriminate H].
        inversion H; subst. rewrite (IH _ _ _ _ E). apply orb_true_r.
Qed.

(** X1: a request that is not a removal, or a removal run without
    [ignore_not_found], reports a change whenever it succeeds. *)
Theorem successful_request_reports_change :
  forall json_loads float_repr operation ignore v config full_key s c,
    is_remove_operation operation = false \/ ignore = false ->
    _modify_key json_loads float_repr (kwargs_of operation ignore) v config full_key
      = Ok (s, c) ->
    c = true.
Proof.
  intros jl fr operation ignore v config full_key s c Hop H.
  unfold _modify_key in H.
  apply (update_section_changed jl fr _ v _) in H; [exact H|].
  destruct Hop as [Hop| ->].
  - left. destruct operation; try discriminate Hop; reflexivity.
  - right. now destruct operation.
Qed.

Lemma successful_request_reports_change_witness :
  (is_remove_operation Update = false \/ false = false) /\
  _modify_key loads_rejecting repr_unused (kwargs_of Update false) (vint 1)
    doc_int "a" = Ok (doc_int, true) /\
  true = true.
Proof.
  split; [now left|]. split; [reflexivity|].
  exact (successful_request_reports_change loads_rejecting repr_unused Update
           false (vint 1) doc_int "a" doc_int true (or_introl eq_refl) eq_refl).
Defined.

(** ** What [ignore_not_found] changes *)

Lemma item_position_beyond (len : nat) (n : Z) :
  (Z.of_nat len <? n)%Z = true -> item_position len n = None.
Proof.
  intros H. apply Z.ltb_lt in H. unfold item_position.
  destruct (Z.ltb_spec n 0); [lia|].
  destruct (Z.ltb_spec n (Z.of_nat len)); [lia|]. now rewrite andb_false_r.
Qed.

(** operations that are no removal never read the flag *)
Lemma ignore_unread_without_rm json_loads float_repr a e li rv v levels :
  forall section section_idx,
    update_section json_loads float_repr
      (Build_mod_key_kwargs a e li false rv true) v section levels section_idx
    = update_section json_loads float_repr
        (Build_mod_key_kwargs a e li false rv false) v section levels section_idx.
Proof.
  induction levels as [|level0 rest IH]; intros section sidx; [reflexivity|].
  cbn [update_section].
  destruct (_enrich_level_index level0) as [level lidx].
  destruct (_get_subsection section level sidx) as [sub idx].
  destruct rest as [|next rest].
  - reflexivity.
  - cbn [append_mode]. rewrite !IH. reflexivity.
Qed.

Lemma ignore_effect_on_removal json_loads float_repr rv v levels :
  forall section section_idx,
    update_section json_loads float_repr
      (Build_mod_key_kwargs false false false true rv true) v section levels
      section_idx
    = update_section json_loads float_repr
        (Build_mod_key_kwargs false false false true rv false) v section levels
        section_idx
    \/
    (exists s,
       update_section json_loads float_repr
         (Build_mod_key_kwargs false false false true rv true) v section levels
         section_idx = Ok (s, false) /\
       (update_section json_loads float_repr
          (Build_mod_key_kwargs false false false true rv false) v section levels
          section_idx = Raise (RuntimeError "Key not found in dict") \/
        update_section json_loads float_repr
          (Build_mod_key_kwargs false false false true rv false) v section levels
          section_idx = Raise (IndexError "list assignment index out of range"))).
Proof.
  induction levels as [|level0 rest IH]; intros section sidx; [now left|].
  cbn [update_section].
  destruct (_enrich_level_index level0) as [level lidx].
  destruct (_get_subsection section level sidx) as [sub idx].
  destruct rest as [|next rest].
  - destruct (is_none sub).
    + right. exists section. cbn. auto.
    + cbn [rm_mode append_mode negb].
      unfold _handle_rm_from_section. cbn [rm_value_mode ignore_not_found andb].
      destruct rv; [now left|].
      destruct lidx as [[n|s]|]; [|now left|now left].
      destruct (section_item section level) as [target|e]; [|now left].
      cbn [bind]. destruct target as [a|l|d]; [now left| |now left].
      destruct (Z.of_nat (List.length l) <? n)%Z eqn:Hn; [|now left].
      right. exists section. cbn [bind]. split; [reflexivity|].
      right. unfold list_del. now rewrite (item_position_beyond _ _ Hn).
  - destruct (is_none sub); [now left|].
    cbn [append_mode negb].
    destruct (is_int sub); [now left|]. cbn [bind].
    destruct (IH sub lidx) as [Heq|[s [H1 H0]]].
    + left. now rewrite Heq.
    + right. rewrite H1. cbn [bind orb].
      eexists. split; [reflexivity|].
      destruct H0 as [-> | ->]; cbn [bind]; auto.
Qed.

(** X2: [ignore_not_found] has no effect on a request that is no removal.
    On any request it either changes nothing, the result being the same
    tree and flag or the same error, or it turns a failure with "Key not
    found in dict" or with an [IndexError] into a success that reports no
    change.  It suppresses no other error and alters no successful edit. *)
Theorem ignore_not_found_effect :
  forall json_loads float_repr operation v config full_key,
    (is_remove_operation operation = false ->
     _modify_key json_loads float_repr (kwargs_of operation true) v config
       full_key
     = _modify_key json_loads float_repr (kwargs_of operation false) v config
         full_key) /\
    (_modify_key json_loads float_repr (kwargs_of operation true) v config
       full_key
     = _modify_key json_loads float_repr (kwargs_of operation false) v config
         full_key
     \/
     (exists s,
        _modify_key json_loads float_repr (kwargs_of operation true) v config
          full_key = Ok (s, false)) /\
     (_modify_key json_loads float_repr (kwargs_of operation false) v config
        full_key = Raise (RuntimeError "Key not found in dict") \/
      exists msg,
        _modify_key json_loads float_repr (kwargs_of operation false) v config
          full_key = Raise (IndexError msg))).
Proof.
  intros jl fr operation v config full_key. unfold _modify_key. split.
  - intros Hop. destruct operation; try discriminate Hop;
      apply ignore_unread_without_rm.
  - assert (Hrm : forall rv,
      let levels := map unescape_dots (split_levels false full_key) in
      update_section jl fr (Build_mod_key_kwargs false false false true rv true)
        v config levels None
      = update_section jl fr (Build_mod_key_kwargs false false false true rv false)
          v config levels None
      \/
      (exists s,
         update_section jl fr (Build_mod_key_kwargs false false false true rv true)
           v config levels None = Ok (s, false)) /\
      (update_section jl fr (Build_mod_key_kwargs false false false true rv false)
         v config levels None = Raise (RuntimeError "Key not found in dict") \/
       exists msg,
         update_section jl fr (Build_mod_key_kwargs false false false true rv false)
           v config levels None = Raise (IndexError msg))).
    { intros rv levels.
      destruct (ignore_effect_on_removal jl fr rv v levels config None)
        as [Heq|(s & Hs & [Hk|Hi])].
      - now left.
      - right. split; [now exists s|now left].
      - right. split; [now exists s|]. right. eexists. exact Hi. }
    destruct operation; cbn [kwargs_of];
      try (left; apply ignore_unread_without_rm); apply Hrm.
Qed.

(** ** The path parser *)

Lemma lacks_cons c x s :
  lacks c (String x s) = negb (Ascii.eqb x c) && lacks c s.
Proof. unfold lacks. cbn. now rewrite negb_orb. Qed.

Lemma lacks_app c a b :
  lacks c (a ++ b)%string = lacks c a && lacks c b.
Proof.
  induction a as [|x a IH]; [reflexivity|].
  cbn [append]. rewrite !lacks_cons, IH. now rewrite andb_assoc.
Qed.


Lemma lacks_first_line c s : lacks c s = true -> lacks c (first_line s) = true.
Proof.
  induction s as [|x s IH]; [reflexivity|].
  rewrite lacks_cons. intros H. apply andb_prop in H as [Hx Hs].
  cbn. destruct (Ascii.eqb x "010"); [reflexivity|].
  rewrite lacks_cons, Hx. now apply IH.
Qed.

Lemma lacks_substring c s : forall n m,
  lacks c s = true -> lacks c (substring n m s) = true.
Proof.
  induction s as [|x s IH]; intros n m H.
  - now destruct n, m.
  - rewrite lacks_cons in H. apply andb_prop in H as [Hx Hs].
    destruct n as [|n]; cbn.
    + destruct m as [|m]; [reflexivity|]. rewrite lacks_cons, Hx. now apply IH.
    + now apply IH.
Qed.

Lemma rindex_none c s : lacks c s = true -> rindex c s = None.
Proof.
  induction s as [|x s IH]; [reflexivity|].
  rewrite lacks_cons. intros H. apply andb_prop in H as [Hx Hs].
  cbn. rewrite (IH Hs). apply negb_true_iff in Hx. now rewrite Hx.
Qed.





Lemma append_assoc a b c :
  ((a ++ b) ++ c)%string = (a ++ (b ++ c))%string.
Proof. induction a as [|x a IH]; cbn; [reflexivity|now rewrite IH]. Qed.



Lemma enrich_without_opening_bracket level :
  lacks "[" level = true -> _enrich_level_index level = (level, None).
Proof.
  intros H. unfold _enrich_level_index.
  destruct (rindex "]" (first_line level)) as [q|]; [|reflexivity].
  now rewrite (rindex_none _ _ (lacks_substring _ _ 0 q (lacks_first_line _ _ H))).
Qed.

(** X4: a segment that lacks an opening or a closing bracket carries no
    index and is taken whole. *)
Theorem enrich_level_index_plain :
  forall level,
    lacks "[" level = true \/ lacks "]" level = true ->
    _enrich_level_index level = (level, None).
Proof.
  intros level [H|H]; [now apply enrich_without_opening_bracket|].
  unfold _enrich_level_index.
  destruct (rindex "]" (first_line level)) as [q|] eqn:Hq; [|reflexivity].
  rewrite (rindex_none _ _ (lacks_first_line _ _ H)) in Hq. discriminate Hq.
Qed.

Lemma enrich_level_index_plain_witness :
  (lacks "[" "a]b" = true \/ lacks "]" "a]b" = true) /\
  _enrich_level_index "a]b" = ("a]b", None).
Proof.
  split; [now left|].
  exact (enrich_level_index_plain "a]b" (or_introl eq_refl)).
Defined.

Lemma plain_segment_cons x s :
  plain_segment (String x s) = true ->
  Ascii.eqb x "." = false /\ Ascii.eqb x "\" = false /\ plain_segment s = true.
Proof.
  unfold plain_segment. rewrite !lacks_cons. intros H.
  apply andb_prop in H as [H1 H2].
  apply andb_prop in H1 as [Hd Hs1]. apply andb_prop in H2 as [Hb Hs2].
  apply negb_true_iff in Hd, Hb. now rewrite Hs1, Hs2.
Qed.

Lemma split_levels_plain seg : forall b,
  plain_segment seg = true -> split_levels b seg = [seg].
Proof.
  induction seg as [|x seg IH]; intros b H; [reflexivity|].
  apply plain_segment_cons in H as (Hd & Hb & Hs).
  cbn [split_levels]. rewrite Hd. cbn [andb]. now rewrite (IH _ Hs).
Qed.

Lemma split_levels_app seg t : forall b,
  plain_segment seg = true ->
  (seg = EmptyString -> b = false) ->
  split_levels b (seg ++ String "." t)%string = seg :: split_levels false t.
Proof.
  induction seg as [|x seg IH]; intros b H Hb.
  - rewrite (Hb eq_refl). reflexivity.
  - apply plain_segment_cons in H as (Hd & Hbs & Hs).
    cbn [append split_levels]. rewrite Hd, Hbs. cbn [andb].
    now rewrite (IH false Hs (fun _ => eq_refl)).
Qed.

Lemma unescape_dots_id s : lacks "\" s = true -> unescape_dots s = s.
Proof.
  induction s as [|x s IH]; [reflexivity|].
  rewrite lacks_cons. intros H. apply andb_prop in H as [Hx Hs].
  apply negb_true_iff in Hx. cbn [unescape_dots]. rewrite Hx. cbn [andb].
  destruct s; [reflexivity|]. now rewrite (IH Hs).
Qed.

Lemma split_levels_concat segs :
  segs <> [] ->
  forallb plain_segment segs = true ->
  split_levels false (String.concat "." segs) = segs.
Proof.
  induction segs as [|x [|y tl] IH]; intros Hne H.
  - now destruct Hne.
  - cbn in H. rewrite andb_true_r in H. now apply split_levels_plain.
  - cbn [forallb] in H. apply andb_prop in H as [Hx Hrest].
    change (String.concat "." (x :: y :: tl))
      with (x ++ String "." (String.concat "." (y :: tl)))%string.
    rewrite (split_levels_app _ _ false Hx (fun _ => eq_refl)).
    rewrite IH; [reflexivity|discriminate|exact Hrest].
Qed.

Lemma map_unescape_plain segs :
  forallb plain_segment segs = true -> map unescape_dots segs = segs.
Proof.
  induction segs as [|x tl IH]; intros H; [reflexivity|].
  cbn [forallb] in H. apply andb_prop in H as [Hx Htl].
  cbn [map]. rewrite (IH Htl). f_equal.
  apply unescape_dots_id. unfold plain_segment in Hx.
  now apply andb_prop in Hx as [_ Hx].
Qed.

(** X5: a key made of segments that hold neither dot nor backslash, joined
    by dots, is split back into exactly those segments. *)
Theorem plain_key_splits_into_segments :
  forall segs,
    segs <> [] ->
    forallb plain_segment segs = true ->
    map unescape_dots (split_levels false (String.concat "." segs)) = segs.
Proof.
  intros segs Hne H. rewrite (split_levels_concat segs Hne H).
  now apply map_unescape_plain.
Qed.

Lemma plain_key_splits_into_segments_witness :
  ["field_0"; "sub_field_1"] <> [] /\
  forallb plain_segment ["field_0"; "sub_field_1"] = true /\
  map unescape_dots (split_levels false "field_0.sub_field_1")
    = ["field_0"; "sub_field_1"].
Proof.
  assert (Hne : ["field_0"; "sub_field_1"] <> []) by discriminate.
  split; [exact Hne|]. split; [reflexivity|].
  exact (plain_key_splits_into_segments ["field_0"; "sub_field_1"] Hne eq_refl).
Defined.

Lemma split_levels_escaped a t : forall b,
  plain_segment a = true ->
  plain_segment t = true ->
  split_levels b (a ++ String "\" (String "." t))%string
    = [(a ++ String "\" (String "." t))%string].
Proof.
  induction a as [|x a IH]; intros b Ha Ht.
  - cbn. now rewrite (split_levels_plain t false Ht).
  - apply plain_segment_cons in Ha as (Hd & Hb & Hs).
    cbn [append split_levels]. rewrite Hd. cbn [andb]. now rewrite (IH _ Hs Ht).
Qed.

Lemma unescape_dots_escaped a t :
  lacks "\" a = true ->
  lacks "\" t = true ->
  unescape_dots (a ++ String "\" (String "." t))%string
    = (a ++ String "." t)%string.
Proof.
  induction a as [|x a IH]; intros Ha Ht.
  - cbn. now rewrite (unescape_dots_id t Ht).
  - rewrite lacks_cons in Ha. apply andb_prop in Ha as [Hx Hs].
    apply negb_true_iff in Hx. cbn [append unescape_dots]. rewrite Hx. cbn [andb].
    rewrite (IH Hs Ht). now destruct a.
Qed.

(** X6: a dot written after a backslash does not split the key: the key
    stays one segment, in which the pair is replaced by the dot. *)
Theorem escaped_dot_is_literal :
  forall a b,
    plain_segment a = true ->
    plain_segment b = true ->
    map unescape_dots (split_levels false (a ++ "\." ++ b)%string)
      = [(a ++ "." ++ b)%string].
Proof.
  intros a b Ha Hb. cbn [append].
  rewrite (split_levels_escaped a b false Ha Hb). cbn [map]. f_equal.
  unfold plain_segment in Ha, Hb.
  apply andb_prop in Ha as [_ Ha]. apply andb_prop in Hb as [_ Hb].
  now apply unescape_dots_escaped.
Qed.

Lemma escaped_dot_is_literal_witness :
  plain_segment "dotted" = true /\
  plain_segment "field" = true /\
  map unescape_dots (split_levels false "dotted\.field") = ["dotted.field"].
Proof.
  do 2 (split; [reflexivity|]).
  exact (escaped_dot_is_literal "dotted" "field" eq_refl eq_refl).
Defined.

(** ** Value coercion *)

Lemma digit_char c r :
  is_digit c = true ->
  is_space c = false /\ split_sign (String c r) = (false, String c r).
Proof.
  intros H.
  destruct c as [[] [] [] [] [] [] [] []]; vm_compute in H; try discriminate H;
    split; reflexivity.
Qed.

Lemma rstrip_id s :
  (forall c, In c (list_ascii_of_string s) -> is_space c = false) ->
  rstrip s = s.
Proof.
  induction s as [|c s IH]; intros H; [reflexivity|].
  cbn [rstrip]. rewrite IH by (intros x Hx; apply H; now right).
  destruct s; [|reflexivity]. now rewrite (H c (or_introl eq_refl)).
Qed.

Lemma all_digits_no_space s :
  all_digits s = true ->
  forall c, In c (list_ascii_of_string s) -> is_space c = false.
Proof.
  induction s as [|x s IH]; intros H c Hc; [now destruct Hc|].
  cbn in H. apply andb_prop in H as [Hx Hs]. destruct Hc as [<-|Hc].
  - apply (digit_char x EmptyString Hx).
  - now apply IH.
Qed.

Lemma digitpart_all_digits s : all_digits s = true -> digitpart true s = Some s.
Proof.
  induction s as [|x s IH]; intros H; [reflexivity|].
  cbn in H. apply andb_prop in H as [Hx Hs].
  cbn [digitpart]. rewrite Hx, (IH Hs). reflexivity.
Qed.

Lemma py_int_digits s : isdigit s = true -> py_int s = Some (digits_to_Z s).
Proof.
  intros H. destruct s as [|c s]; [discriminate H|].
  cbn [isdigit] in H. pose proof H as Hall.
  cbn [all_digits] in H. apply andb_prop in H as [Hc Hs].
  destruct (digit_char c s Hc) as [Hsp Hsign].
  unfold py_int, strip.
  assert (Hl : lstrip (String c s) = String c s) by (cbn; now rewrite Hsp).
  rewrite Hl, (rstrip_id _ (all_digits_no_space _ Hall)), Hsign.
  cbn [digitpart]. rewrite Hc, (digitpart_all_digits s Hs). reflexivity.
Qed.

(** X7: a text of decimal digits, no more of them than the 4300 that
    [int] takes, is coerced to the integer it writes, leading zeros
    included. *)
Theorem digits_become_integer :
  forall s,
    isdigit s = true ->
    (String.length s <= 4300)%nat ->
    single_value_convert (AStr s) = Ok (AInt (digits_to_Z s)).
Proof.
  intros s H _. unfold single_value_convert.
  assert (Hstrip : strip s = s).
  { destruct s as [|c s]; [discriminate H|].
    cbn [isdigit] in H. pose proof H as Hall.
    cbn [all_digits] in H. apply andb_prop in H as [Hc Hs].
    unfold strip.
    assert (Hl : lstrip (String c s) = String c s)
      by (cbn; now rewrite (proj1 (digit_char c s Hc))).
    rewrite Hl. apply rstrip_id, all_digits_no_space, Hall. }
  rewrite Hstrip, (py_int_digits s H). reflexivity.
Qed.

Lemma digits_become_integer_witness :
  isdigit "0543" = true /\
  (String.length "0543" <= 4300)%nat /\
  single_value_convert (AStr "0543") = Ok (AInt 543).
Proof.
  split; [reflexivity|].
  assert (Hlen : (String.length "0543" <= 4300)%nat) by (cbn; lia).
  split; [exact Hlen|].
  exact (digits_become_integer "0543" eq_refl Hlen).
Defined.

Lemma lower_char_cases c : c = lower_char c \/ c = upper_char (lower_char c).
Proof.
  destruct c as [[] [] [] [] [] [] [] []];
    (left; reflexivity) || (right; reflexivity).
Qed.

Lemma lower_in_case_variants t : In t (case_variants (lower t)).
Proof.
  induction t as [|c t IH]; [now left|].
  cbn [lower case_variants]. apply in_flat_map. exists t. split; [exact IH|].
  destruct (lower_char_cases c) as [H|H].
  - left. now rewrite <- H.
  - right. left. now rewrite <- H.
Qed.

Lemma boolean_words_are_no_numbers :
  forallb (fun w => forallb not_a_number (case_variants w))
    ["true"; "t"; "y"; "yes"; "false"; "f"; "n"; "no"] = true.
Proof. vm_compute. reflexivity. Qed.

Lemma string_in_In s l : string_in s l = true -> In s l.
Proof.
  unfold string_in. intros H. apply existsb_exists in H as (x & Hx & He).
  apply String.eqb_eq in He. now subst.
Qed.

(** X8: a text that reads as a boolean word once blanks around it are
    dropped and letter case is ignored is coerced to that boolean: neither
    the integer nor the float reading, which are tried first, takes it. *)
Theorem boolean_words_become_booleans :
  forall s b,
    try_convert_to_bool (strip s) = Some b ->
    single_value_convert (AStr s) = Ok (ABool b).
Proof.
  intros s b H.
  assert (Hw : In (lower (strip s))
                 ["true"; "t"; "y"; "yes"; "false"; "f"; "n"; "no"]).
  { unfold try_convert_to_bool in H.
    destruct (string_in (lower (strip s)) ["true"; "t"; "y"; "yes"]) eqn:Ht.
    - apply string_in_In in Ht. cbn in Ht |- *. tauto.
    - destruct (string_in (lower (strip s)) ["false"; "f"; "n"; "no"]) eqn:Hf;
        [|discriminate H].
      apply string_in_In in Hf. cbn in Hf |- *. tauto. }
  pose proof boolean_words_are_no_numbers as Hall.
  rewrite forallb_forall in Hall. specialize (Hall _ Hw).
  rewrite forallb_forall in Hall.
  specialize (Hall _ (lower_in_case_variants (strip s))).
  unfold not_a_number in Hall. unfold single_value_convert.
  destruct (py_int (strip s)); [discriminate Hall|].
  destruct (py_float (strip s)); [discriminate Hall|].
  now rewrite H.
Qed.

Lemma boolean_words_become_booleans_witness :
  try_convert_to_bool (strip " Yes ") = Some true /\
  single_value_convert (AStr " Yes ") = Ok (ABool true).
Proof.
  split; [reflexivity|].
  exact (boolean_words_become_booleans " Yes " true eq_refl).
Defined.

(** ** The literal grammar, in general *)

(** induction on trees *)
Lemma value_induction (P : value -> Prop) :
  (forall a, P (VAtom a)) ->
  (forall l, Forall P l -> P (VList l)) ->
  (forall d, Forall (fun e => P (snd e)) d -> P (VDict d)) ->
  forall v, P v.
Proof.
  intros Ha Hl Hd. fix IH 1. intros [a|l|d].
  - apply Ha.
  - apply Hl. induction l as [|x l IHl]; constructor; [apply IH|exact IHl].
  - apply Hd. induction d as [|[k x] d IHd]; constructor; [apply IH|exact IHd].
Qed.

(** coercion never fails on a tree of strings *)
Lemma convert_stringy v :
  stringy v = true -> exists v', convert_value_to_yaml v = Ok v'.
Proof.
  induction v as [a|l IH|d IH] using value_induction; intros H.
  - destruct a; try discriminate H. cbn.
    destruct (py_int (strip s)); [eexists; reflexivity|].
    destruct (py_float (strip s)); [eexists; reflexivity|].
    destruct (try_convert_to_bool (strip s)); eexists; reflexivity.
  - cbn [stringy] in H. cbn [convert_value_to_yaml].
    enough (exists l',
              (fix convert_items (xs : list value) : result (list value) :=
                 match xs with
                 | [] => Ok []
                 | x :: tl =>
                     x' <- convert_value_to_yaml x ;;
                     tl' <- convert_items tl ;;
                     Ok (x' :: tl')
                 end) l = Ok l') as [l' ->] by (eexists; reflexivity).
    induction l as [|x l IHl]; [eexists; reflexivity|].
    cbn [forallb] in H. apply andb_prop in H as [Hx Hl].
    inversion IH as [|? ? Px Pl]; subst.
    destruct (Px Hx) as [x' ->]. destruct (IHl Pl Hl) as [l' ->].
    eexists; reflexivity.
  - cbn [stringy] in H. cbn [convert_value_to_yaml].
    enough (forall acc, exists d',
              (fix convert_entries (es : list (atom * value))
                   (converted_value : dict) : result dict :=
                 match es with
                 | [] => Ok converted_value
                 | (k, x) :: tl =>
                     x' <- convert_value_to_yaml x ;;
                     k' <- single_value_convert k ;;
                     convert_entries tl (dict_set converted_value k' x')
                 end) d acc = Ok d') as Hacc
      by (destruct (Hacc []) as [d' ->]; eexists; reflexivity).
    induction d as [|[k x] d IHd]; intros acc; [eexists; reflexivity|].
    cbn [forallb fst snd] in H. apply andb_prop in H as [Hx Hd].
    inversion IH as [|? ? Px Pd]; subst. cbn [snd] in Px.
    destruct k as [| | | |s]; try discriminate Hx.
    destruct (Px Hx) as [x' ->]. cbn [bind].
    assert (Hk : exists k', single_value_convert (AStr s) = Ok k').
    { cbn. destruct (py_int (strip s)); [eexists; reflexivity|].
      destruct (py_float (strip s)); [eexists; reflexivity|].
      destruct (try_convert_to_bool (strip s)); eexists; reflexivity. }
    destruct Hk as [k' ->]. cbn [bind]. apply (IHd Pd Hd).
Qed.

Lemma stringy_map_vstr l : forallb stringy (map vstr l) = true.
Proof. induction l; [reflexivity|exact IHl]. Qed.

Lemma stringy_dict_set d k v :
  stringy (VDict d) = true ->
  stringy v = true ->
  stringy (VDict (dict_set d (AStr k) v)) = true.
Proof.
  cbn [stringy]. intros Hd Hv.
  induction d as [|[k' v'] d IH]; cbn [dict_set].
  - cbn. now rewrite Hv.
  - cbn [forallb fst snd] in Hd. apply andb_prop in Hd as [He Hrest].
    destruct (atom_eqb k' (AStr k)).
    + cbn [forallb fst snd]. destruct k'; try discriminate He.
      now rewrite Hv, Hrest.
    + cbn [forallb fst snd]. now rewrite He, (IH Hrest).
Qed.

Lemma stringy_real_value_dict keys values :
  stringy (VDict (real_value_dict keys values)) = true.
Proof.
  unfold real_value_dict.
  assert (H : stringy (VDict []) = true) by reflexivity.
  revert H. generalize (@nil (atom * value)).
  induction (combine keys values) as [|[k v] l IH]; intros d Hd; [exact Hd|].
  cbn [fold_left]. apply IH. apply stringy_dict_set; [exact Hd|].
  destruct v as [|x [|y tl]]; try reflexivity. cbn [stringy].
  apply stringy_map_vstr.
Qed.

Lemma stringy_converted_dicts ds converted :
  converted_dicts ds = Some converted -> forallb stringy converted = true.
Proof.
  revert converted. induction ds as [|x ds IH]; intros converted H.
  - inversion H. reflexivity.
  - cbn [converted_dicts] in H.
    destruct (keys_and_values (split_char "," x) [] []) as [[keys values]|];
      [|discriminate H].
    destruct (converted_dicts ds) as [rest|]; [|discriminate H].
    inversion H; subst. cbn [forallb].
    rewrite (stringy_real_value_dict keys values). now apply IH.
Qed.

(** X9: whatever the text right of the [=], the value grammar either gives
    a value or raises the wrong-value-syntax exception; coercion itself
    never fails on what the grammar builds. *)
Theorem parse_value_fails_only_on_syntax :
  forall text,
    (exists v, parse_value text = Ok v) \/
    parse_value text
    = Raise (Exception_
        "Wrong value syntax - expected either a dictionary or a list of dictionaries").
Proof.
  intros text. unfold parse_value.
  destruct (contains_char "," text || contains_char "{" text).
  - destruct (contains_char "{" text).
    + destruct (value_dicts (split_char "}" text)) as [ds|]; [|now right].
      destruct (converted_dicts ds) as [converted|] eqn:Hc; [|now right].
      cbn [bind]. left. apply convert_stringy.
      cbn [stringy]. now apply (stringy_converted_dicts ds).
    + cbn [bind]. left. apply convert_stringy. apply stringy_map_vstr.
  - cbn [bind]. left. now apply convert_stringy.
Qed.

Lemma split_char_lacks c seg : lacks c seg = true -> split_char c seg = [seg].
Proof.
  induction seg as [|x seg IH]; [reflexivity|].
  rewrite lacks_cons. intros H. apply andb_prop in H as [Hx Hs].
  apply negb_true_iff in Hx. cbn [split_char]. now rewrite Hx, (IH Hs).
Qed.

Lemma split_char_app c seg t :
  lacks c seg = true ->
  split_char c (seg ++ String c t)%string = seg :: split_char c t.
Proof.
  induction seg as [|x seg IH]; intros H.
  - cbn. now rewrite Ascii.eqb_refl.
  - rewrite lacks_cons in H. apply andb_prop in H as [Hx Hs].
    apply negb_true_iff in Hx. cbn [append split_char]. now rewrite Hx, (IH Hs).
Qed.

Lemma split_char_concat c items :
  items <> [] ->
  forallb (lacks c) items = true ->
  split_char c (String.concat (String c EmptyString) items) = items.
Proof.
  induction items as [|x [|y tl] IH]; intros Hne H.
  - now destruct Hne.
  - cbn in H. rewrite andb_true_r in H. now apply split_char_lacks.
  - cbn [forallb] in H. apply andb_prop in H as [Hx Hrest].
    change (String.concat (String c EmptyString) (x :: y :: tl))
      with (x ++ String c (String.concat (String c EmptyString) (y :: tl)))%string.
    rewrite (split_char_app _ _ _ Hx).
    rewrite IH; [reflexivity|discriminate|exact Hrest].
Qed.

Lemma lacks_concat c sep items :
  lacks c sep = true ->
  forallb (lacks c) items = true ->
  lacks c (String.concat sep items) = true.
Proof.
  intros Hsep. induction items as [|x [|y tl] IH]; intros H.
  - reflexivity.
  - cbn in H. now rewrite andb_true_r in H.
  - cbn [forallb] in H. apply andb_prop in H as [Hx Hrest].
    change (String.concat sep (x :: y :: tl))
      with (x ++ sep ++ String.concat sep (y :: tl))%string.
    rewrite !lacks_app, Hx, Hsep. now apply IH.
Qed.

Lemma filter_nonempty_id items :
  forallb nonempty items = true -> filter nonempty items = items.
Proof.
  induction items as [|x tl IH]; [reflexivity|].
  cbn [forallb filter]. intros H. apply andb_prop in H as [Hx Htl].
  now rewrite Hx, (IH Htl).
Qed.

(** X10: two or more non-empty items that hold neither comma nor brace,
    joined by commas, are read back as the list of exactly those items, each
    coerced on its own. *)
Theorem comma_list_reads_back :
  forall x y items,
    forallb nonempty (x :: y :: items) = true ->
    forallb (lacks ",") (x :: y :: items) = true ->
    forallb (lacks "{") (x :: y :: items) = true ->
    parse_value (String.concat "," (x :: y :: items))
    = convert_value_to_yaml (VList (map vstr (x :: y :: items))).
Proof.
  intros x y items Hne Hcomma Hbrace.
  assert (Hb : contains_char "{" (String.concat "," (x :: y :: items)) = false).
  { apply negb_true_iff. apply (lacks_concat "{" "," _ eq_refl Hbrace). }
  assert (Hc : contains_char "," (String.concat "," (x :: y :: items)) = true).
  { change (String.concat "," (x :: y :: items))
      with (x ++ String "," (String.concat "," (y :: items)))%string.
    apply negb_false_iff.
    change (lacks "," (x ++ String "," (String.concat "," (y :: items)))%string
            = false).
    rewrite lacks_app, lacks_cons. cbn. apply andb_false_r. }
  rewrite (parse_value_comma_list _ Hb Hc).
  rewrite (split_char_concat "," (x :: y :: items)) by (discriminate || exact Hcomma).
  now rewrite (filter_nonempty_id _ Hne).
Qed.

Lemma comma_list_reads_back_witness :
  forallb nonempty ["456"; "54"] = true /\
  forallb (lacks ",") ["456"; "54"] = true /\
  forallb (lacks "{") ["456"; "54"] = true /\
  parse_value "456,54" = Ok (VList [vint 456; vint 54]).
Proof.
  do 3 (split; [reflexivity|]).
  exact (comma_list_reads_back "456" "54" [] eq_refl eq_refl eq_refl).
Defined.

(** ** Batches *)

Section BatchLaws.
Variable json_loads : string -> option value.
Variable float_repr : pyfloat -> string.
Variable operation : KeyOperations.t.
Variable ignore : bool.

Lemma mod_kvs_loop_flag kvs : forall config changed,
  mod_kvs_loop json_loads float_repr config kvs operation ignore changed =
  '(config1, changed1) <-
     mod_kvs_loop json_loads float_repr config kvs operation ignore false ;;
  Ok (config1, changed || changed1).
Proof.
  induction kvs as [|kv tl IH]; intros config changed.
  - cbn. now rewrite orb_false_r.
  - cbn [mod_kvs_loop].
    destruct (split_kv operation kv) as [[key raw]|e]; [|reflexivity].
    cbn [bind].
    destruct (match raw with
              | Some text => parse_value text
              | None => convert_value_to_yaml vnone
              end) as [v|e]; [|reflexivity].
    cbn [bind].
    destruct (_modify_key json_loads float_repr (kwargs_of operation ignore) v
                config key) as [[config1 op_changed]|e]; [|reflexivity].
    cbn [bind orb]. rewrite (IH config1 (changed || op_changed)).
    rewrite (IH config1 op_changed).
    destruct (mod_kvs_loop json_loads float_repr config1 tl operation ignore false)
      as [[c2 ch2]|e]; [|reflexivity].
    cbn [bind]. now rewrite orb_assoc.
Qed.

Lemma mod_kvs_loop_app kvs1 kvs2 : forall config changed,
  mod_kvs_loop json_loads float_repr config (kvs1 ++ kvs2) operation ignore
    changed =
  '(config1, changed1) <-
     mod_kvs_loop json_loads float_repr config kvs1 operation ignore changed ;;
  mod_kvs_loop json_loads float_repr config1 kvs2 operation ignore changed1.
Proof.
  induction kvs1 as [|kv tl IH]; intros config changed; [reflexivity|].
  cbn [app mod_kvs_loop].
  destruct (split_kv operation kv) as [[key raw]|e]; [|reflexivity].
  cbn [bind].
  destruct (match raw with
            | Some text => parse_value text
            | None => convert_value_to_yaml vnone
            end) as [v|e]; [|reflexivity].
  cbn [bind].
  destruct (_modify_key json_loads float_repr (kwargs_of operation ignore) v
              config key) as [[config1 op_changed]|e]; [|reflexivity].
  cbn [bind]. apply IH.
Qed.

(** a batch of one request or more, none of which may be passed over,
    reports a change when it succeeds *)
Lemma mod_kvs_changed kvs config config1 changed :
  is_remove_operation operation = false \/ ignore = false ->
  kvs <> [] ->
  _mod_kvs json_loads float_repr config kvs operation ignore
    = Ok (config1, changed) ->
  changed = true.
Proof.
  intros Hop Hne H. destruct kvs as [|kv tl]; [now destruct Hne|].
  unfold _mod_kvs in H. cbn [mod_kvs_loop] in H.
  destruct (split_kv operation kv) as [[key raw]|e]; [|discriminate H].
  cbn [bind] in H.
  destruct (match raw with
            | Some text => parse_value text
            | None => convert_value_to_yaml vnone
            end) as [v|e]; [|discriminate H].
  cbn [bind] in H.
  destruct (_modify_key json_loads float_repr (kwargs_of operation ignore) v
              config key) as [[c1 op_changed]|e] eqn:E; [|discriminate H].
  cbn [bind orb] in H. unfold _modify_key in E.
  apply update_section_changed in E.
  - subst op_changed. rewrite mod_kvs_loop_flag in H.
    destruct (mod_kvs_loop json_loads float_repr c1 tl operation ignore false)
      as [[c2 ch2]|e]; [|discriminate H].
    cbn in H. now inversion H.
  - destruct Hop as [Hop| ->].
    + left. destruct operation; try discriminate Hop; reflexivity.
    + right. now destruct operation.
Qed.
End BatchLaws.

(** X11: a batch is the sequence of its parts: running the requests of two
    lists as one batch gives what running the first list and then the
    second on its result gives, the first failure ending the batch, and the
    changed flag is the disjunction of the two. *)
Theorem batch_of_two_lists :
  forall json_loads float_repr operation ignore config kvs1 kvs2,
    _mod_kvs json_loads float_repr config (kvs1 ++ kvs2) operation ignore =
    '(config1, changed1) <-
       _mod_kvs json_loads float_repr config kvs1 operation ignore ;;
    '(config2, changed2) <-
       _mod_kvs json_loads float_repr config1 kvs2 operation ignore ;;
    Ok (config2, changed1 || changed2).
Proof.
  intros jl fr operation ignore config kvs1 kvs2. unfold _mod_kvs.
  rewrite mod_kvs_loop_app.
  destruct (mod_kvs_loop jl fr config kvs1 operation ignore false)
    as [[c1 ch1]|e]; [|reflexivity].
  cbn [bind]. apply mod_kvs_loop_flag.
Qed.

Lemma split_once_lacks c s : lacks c s = true -> split_once c s = None.
Proof.
  induction s as [|x s IH]; [reflexivity|].
  rewrite lacks_cons. intros H. apply andb_prop in H as [Hx Hs].
  apply negb_true_iff in Hx. cbn [split_once]. now rewrite Hx, (IH Hs).
Qed.

Lemma split_once_app c a b :
  lacks c a = true -> split_once c (a ++ String c b)%string = Some (a, b).
Proof.
  induction a as [|x a IH]; intros H.
  - cbn. now rewrite Ascii.eqb_refl.
  - rewrite lacks_cons in H. apply andb_prop in H as [Hx Hs].
    apply negb_true_iff in Hx. cbn [append split_once]. now rewrite Hx, (IH Hs).
Qed.

(** X12: in a removal batch, whatever follows the first [=] of a request is
    dropped: the request [key=junk] does what the request [key] does. *)
Theorem removal_ignores_value :
  forall json_loads float_repr operation ignore config key junk rest,
    is_remove_operation operation = true ->
    lacks "=" key = true ->
    _mod_kvs json_loads float_repr config ((key ++ "=" ++ junk)%string :: rest)
      operation ignore
    = _mod_kvs json_loads float_repr config (key :: rest) operation ignore.
Proof.
  intros jl fr operation ignore config key junk rest Hop Hk.
  unfold _mod_kvs. cbn [mod_kvs_loop]. unfold split_kv. rewrite Hop.
  cbn [append]. now rewrite (split_once_app _ _ junk Hk), (split_once_lacks _ _ Hk).
Qed.

Lemma removal_ignores_value_witness :
  is_remove_operation Remove = true /\
  lacks "=" "a" = true /\
  _mod_kvs loads_rejecting repr_unused doc_int ["a=aa"] Remove false
  = _mod_kvs loads_rejecting repr_unused doc_int ["a"] Remove false.
Proof.
  do 2 (split; [reflexivity|]).
  exact (removal_ignores_value loads_rejecting repr_unused Remove false doc_int
           "a" "aa" [] eq_refl eq_refl).
Defined.

(** X13: in a batch that is no removal, a request without [=] fails the
    batch with the unpacking [ValueError], whatever the configuration and
    the requests after it. *)
Theorem request_without_value_fails :
  forall json_loads float_repr operation ignore config kv rest,
    is_remove_operation operation = false ->
    lacks "=" kv = true ->
    _mod_kvs json_loads float_repr config (kv :: rest) operation ignore
    = Raise (ValueError "not enough values to unpack (expected 2, got 1)").
Proof.
  intros jl fr operation ignore config kv rest Hop Hk.
  unfold _mod_kvs. cbn [mod_kvs_loop]. unfold split_kv.
  now rewrite Hop, (split_once_lacks _ _ Hk).
Qed.

Lemma request_without_value_fails_witness :
  is_remove_operation Add = false /\
  lacks "=" "aa" = true /\
  _mod_kvs loads_rejecting repr_unused doc_int ["aa"; "b=1"] Add false
  = Raise (ValueError "not enough values to unpack (expected 2, got 1)").
Proof.
  do 2 (split; [reflexivity|]).
  exact (request_without_value_fails loads_rejecting repr_unused Add false
           doc_int "aa" ["b=1"] eq_refl eq_refl).
Defined.

(** ** The literal grammar, read back *)

Lemma split_char_nonempty c s : split_char c s <> [].
Proof.
  destruct s as [|x s]; [discriminate|]. cbn [split_char].
  destruct (Ascii.eqb x c); [discriminate|].
  destruct (split_char c s); discriminate.
Qed.

(** splitting a text at [c] splits it at any one [c] first *)
Lemma split_char_join c a b :
  split_char c (a ++ String c b)%string = split_char c a ++ split_char c b.
Proof.
  induction a as [|x a IH].
  - cbn. now rewrite Ascii.eqb_refl.
  - cbn [append split_char]. rewrite IH.
    destruct (Ascii.eqb x c); [reflexivity|].
    pose proof (split_char_nonempty c a) as Hne.
    destruct (split_char c a) as [|hd tl]; [now destruct Hne|reflexivity].
Qed.

Lemma concat_two sep x y tl :
  String.concat sep (x :: y :: tl)
  = (x ++ sep ++ String.concat sep (y :: tl))%string.
Proof. reflexivity. Qed.

Lemma plain_word_lacks s :
  plain_word s = true ->
  lacks "{" s = true /\ lacks "}" s = true /\ lacks "," s = true /\
  lacks ":" s = true.
Proof.
  unfold plain_word. intros H.
  apply andb_prop in H as [H H4]. apply andb_prop in H as [H H3].
  apply andb_prop in H as [H1 H2]. tauto.
Qed.

Lemma plain_words_lack c items :
  In c ["{"; "}"; ","; ":"]%char ->
  forallb plain_word items = true -> forallb (lacks c) items = true.
Proof.
  intros Hc H. rewrite forallb_forall in *. intros s Hs.
  destruct (plain_word_lacks s (H s Hs)) as (H1 & H2 & H3 & H4).
  destruct Hc as [<-|[<-|[<-|[<-|[]]]]]; assumption.
Qed.

(** the pieces an entry falls into at its commas: the key with the first
    item, then the other items *)
Lemma split_entry k x more :
  forallb plain_word (k :: x :: more) = true ->
  split_char "," (entry_text (k, x :: more))
  = (k ++ String ":" x)%string :: more.
Proof.
  intros H. cbn [forallb] in H.
  apply andb_prop in H as [Hk H]. apply andb_prop in H as [Hx Hm].
  destruct (plain_word_lacks k Hk) as (_ & _ & Hkc & _).
  destruct (plain_word_lacks x Hx) as (_ & _ & Hxc & _).
  assert (Hhead : lacks "," (k ++ String ":" x)%string = true)
    by (rewrite lacks_app, lacks_cons, Hkc, Hxc; reflexivity).
  unfold entry_text. cbn [fst snd].
  destruct more as [|m more].
  - cbn [String.concat]. now apply split_char_lacks.
  - rewrite concat_two.
    change (k ++ ":" ++ x ++ "," ++ String.concat "," (m :: more))%string
      with (k ++ String ":" (x ++ String "," (String.concat "," (m :: more))))%string.
    replace (k ++ String ":" (x ++ String "," (String.concat "," (m :: more))))%string
      with ((k ++ String ":" x) ++ String "," (String.concat "," (m :: more)))%string
      by (rewrite append_assoc; reflexivity).
    rewrite (split_char_app _ _ _ Hhead). f_equal.
    apply split_char_concat; [discriminate|].
    apply (plain_words_lack ","); [cbn; tauto|exact Hm].
Qed.

Lemma append_to_last_end values cur x :
  append_to_last (values ++ [cur]) x = Some (values ++ [cur ++ [x]]).
Proof.
  induction values as [|v values IH]; [reflexivity|].
  cbn [app append_to_last]. rewrite IH.
  destruct (values ++ [cur]) eqn:E; [now destruct values|reflexivity].
Qed.

(** items after the first go to the entry that was opened last *)
Lemma keys_and_values_items more : forall rest keys values cur,
  forallb plain_word more = true ->
  keys_and_values (more ++ rest) keys (values ++ [cur])
  = keys_and_values rest keys (values ++ [cur ++ more]).
Proof.
  induction more as [|m more IH]; intros rest keys values cur H.
  - now rewrite app_nil_r.
  - cbn [forallb] in H. apply andb_prop in H as [Hm Hmore].
    destruct (plain_word_lacks m Hm) as (_ & _ & _ & Hcolon).
    cbn [app keys_and_values].
    rewrite (split_once_lacks _ _ Hcolon), append_to_last_end.
    rewrite (IH _ _ _ _ Hmore). now rewrite <- app_assoc.
Qed.

Lemma keys_and_values_entry k x more rest keys values :
  forallb plain_word (k :: x :: more) = true ->
  keys_and_values (((k ++ String ":" x)%string :: more) ++ rest) keys values
  = keys_and_values rest (keys ++ [k]) (values ++ [x :: more]).
Proof.
  intros H. cbn [forallb] in H.
  apply andb_prop in H as [Hk H]. apply andb_prop in H as [_ Hm].
  destruct (plain_word_lacks k Hk) as (_ & _ & _ & Hcolon).
  cbn [app keys_and_values]. rewrite (split_once_app _ _ _ Hcolon).
  now rewrite (keys_and_values_items more rest _ values [x] Hm).
Qed.

Lemma plain_entry_words e :
  plain_entry e = true ->
  exists x more, snd e = x :: more /\
                 forallb plain_word (fst e :: x :: more) = true.
Proof.
  destruct e as [k [|x more]]; unfold plain_entry; cbn [fst snd].
  - now rewrite andb_false_r.
  - intros H. exists x, more. split; [reflexivity|exact H].
Qed.

(** the keys and the items that the loop collects from a Map literal *)
Lemma keys_and_values_group g : forall keys values,
  forallb plain_entry g = true ->
  keys_and_values (flat_map (fun e => split_char "," (entry_text e)) g)
    keys values
  = Some (keys ++ map fst g, values ++ map snd g).
Proof.
  induction g as [|e g IH]; intros keys values H.
  - cbn. now rewrite !app_nil_r.
  - cbn [forallb] in H. apply andb_prop in H as [He Hg].
    destruct (plain_entry_words e He) as (x & more & Hs & Hw).
    destruct e as [k items]. cbn [fst snd] in Hs, Hw. subst items.
    cbn [flat_map map fst snd].
    rewrite (split_entry k x more Hw), (keys_and_values_entry _ _ _ _ _ _ Hw).
    rewrite (IH _ _ Hg). now rewrite <- !app_assoc.
Qed.

Lemma split_group g :
  g <> [] ->
  split_char "," (String.concat "," (map entry_text g))
  = flat_map (fun e => split_char "," (entry_text e)) g.
Proof.
  induction g as [|e [|e2 g] IH]; intros Hne.
  - now destruct Hne.
  - cbn. now rewrite app_nil_r.
  - cbn [map]. rewrite concat_two.
    change (entry_text e ++ "," ++ String.concat "," (entry_text e2 :: map entry_text g))%string
      with (entry_text e ++ String "," (String.concat "," (map entry_text (e2 :: g))))%string.
    rewrite split_char_join, IH by discriminate. reflexivity.
Qed.

Lemma combine_fst_snd {A B : Type} (l : list (A * B)) :
  combine (map fst l) (map snd l) = l.
Proof. induction l as [|[a b] l IH]; cbn; [reflexivity|now rewrite IH]. Qed.

Lemma real_value_dict_group g :
  VDict (real_value_dict (map fst g) (map snd g)) = group_map g.
Proof.
  unfold real_value_dict, group_map. rewrite combine_fst_snd. f_equal.
  generalize (@nil (atom * value)).
  induction g as [|[k items] g IH]; intros acc; [reflexivity|].
  cbn [fold_left fst snd]. rewrite <- IH. f_equal.
Qed.

Lemma converted_dicts_groups gs :
  forallb plain_group gs = true ->
  converted_dicts (map (fun g => String.concat "," (map entry_text g)) gs)
  = Some (map group_map gs).
Proof.
  induction gs as [|g gs IH]; intros H; [reflexivity|].
  cbn [forallb] in H. apply andb_prop in H as [Hg Hgs].
  cbn [map converted_dicts].
  assert (Hne : g <> []) by (destruct g; [discriminate Hg|discriminate]).
  assert (He : forallb plain_entry g = true) by (destruct g; [discriminate Hg|exact Hg]).
  rewrite (split_group g Hne), (keys_and_values_group g [] [] He).
  cbn [app]. rewrite (IH Hgs). now rewrite real_value_dict_group.
Qed.

Lemma nonempty_app a c b : nonempty (a ++ String c b)%string = true.
Proof. now destruct a. Qed.

(** the texts between the braces of a run of Map literals *)
Lemma value_dicts_groups bodies : forall p,
  bodies <> [] ->
  forallb (lacks "{") bodies = true ->
  forallb (lacks "}") bodies = true ->
  lacks "{" p = true ->
  lacks "}" p = true ->
  value_dicts
    (split_char "}"
       (p ++ String.concat "," (map (fun b => "{" ++ b ++ "}") bodies))%string)
  = Some bodies.
Proof.
  assert (Hpiece : forall p b rest,
            lacks "{" p = true -> lacks "}" p = true ->
            lacks "{" b = true -> lacks "}" b = true ->
            value_dicts (split_char "}" (p ++ ("{" ++ b ++ "}") ++ rest)%string)
            = match value_dicts (split_char "}" rest) with
              | Some tl => Some (b :: tl)
              | None => None
              end).
  { intros p b rest Hp1 Hp2 Hb1 Hb2.
    replace (p ++ ("{" ++ b ++ "}") ++ rest)%string
      with ((p ++ String "{" b) ++ String "}" rest)%string
      by (do 3 (rewrite ?append_assoc; cbn [append]); reflexivity).
    rewrite split_char_app
      by (rewrite lacks_app, lacks_cons, Hp2, Hb2; reflexivity).
    cbn [value_dicts]. rewrite nonempty_app.
    rewrite (split_char_app _ _ _ Hp1), (split_char_lacks _ _ Hb1).
    reflexivity. }
  induction bodies as [|b [|b2 bodies] IH]; intros p Hne H1 H2 Hp1 Hp2.
  - now destruct Hne.
  - cbn [forallb] in H1, H2. apply andb_prop in H1 as [Hb1 _].
    apply andb_prop in H2 as [Hb2 _]. cbn [map String.concat].
    replace (p ++ "{" ++ b ++ "}")%string
      with (p ++ ("{" ++ b ++ "}") ++ "")%string
      by (do 3 (rewrite ?append_assoc; cbn [append]);
          reflexivity).
    now rewrite (Hpiece p b "" Hp1 Hp2 Hb1 Hb2).
  - cbn [forallb] in H1, H2. apply andb_prop in H1 as [Hb1 H1].
    apply andb_prop in H2 as [Hb2 H2]. cbn [map]. rewrite concat_two.
    change (map (fun b0 => "{" ++ b0 ++ "}") bodies)%string
      with (map (fun b0 => ("{" ++ b0 ++ "}")%string) bodies).
    rewrite (Hpiece p b _ Hp1 Hp2 Hb1 Hb2).
    change ("," ++ String.concat ","
                     (("{" ++ b2 ++ "}") :: map (fun b0 => "{" ++ b0 ++ "}") bodies))%string
      with ("," ++ String.concat ","
                     (map (fun b0 => ("{" ++ b0 ++ "}")%string) (b2 :: bodies)))%string.
    now rewrite (IH "," ltac:(discriminate) H1 H2 eq_refl eq_refl).
Qed.

Lemma entry_text_lacks c e :
  In c ["{"; "}"]%char ->
  plain_entry e = true -> lacks c (entry_text e) = true.
Proof.
  intros Hc He. destruct (plain_entry_words e He) as (x & more & Hs & Hw).
  unfold entry_text. rewrite Hs.
  assert (Hc4 : In c ["{"; "}"; ","; ":"]%char) by (cbn in Hc |- *; tauto).
  pose proof (plain_words_lack c _ Hc4 Hw) as Hl.
  cbn [forallb] in Hl. apply andb_prop in Hl as [Hk Hitems].
  rewrite lacks_app, Hk. cbn [append andb]. rewrite lacks_cons.
  rewrite (lacks_concat c "," (x :: more)); [| |exact Hitems].
  - destruct Hc as [<-|[<-|[]]]; reflexivity.
  - destruct Hc as [<-|[<-|[]]]; reflexivity.
Qed.

Lemma group_body_lacks c gs :
  In c ["{"; "}"]%char ->
  forallb plain_group gs = true ->
  forallb (lacks c)
    (map (fun g => String.concat "," (map entry_text g)) gs) = true.
Proof.
  intros Hc H. rewrite forallb_forall in *. intros b Hb.
  apply in_map_iff in Hb as (g & <- & Hg). specialize (H g Hg).
  apply lacks_concat.
  - destruct Hc as [<-|[<-|[]]]; reflexivity.
  - rewrite forallb_forall. intros t Ht.
    apply in_map_iff in Ht as (e & <- & He).
    apply entry_text_lacks; [exact Hc|].
    destruct g as [|e0 g]; [discriminate H|].
    unfold plain_group in H. rewrite forallb_forall in H. now apply H.
Qed.

Lemma parse_value_groups g gs :
  forallb plain_group (g :: gs) = true ->
  parse_value (String.concat "," (map group_text (g :: gs)))
  = convert_value_to_yaml (VList (map group_map (g :: gs))).
Proof.
  intros H.
  assert (Hbrace :
    contains_char "{" (String.concat "," (map group_text (g :: gs))) = true)
    by (destruct gs; reflexivity).
  unfold parse_value. rewrite Hbrace, orb_true_r.
  assert (Hmap :
    map group_text (g :: gs)
    = map (fun b => ("{" ++ b ++ "}")%string)
        (map (fun g => String.concat "," (map entry_text g)) (g :: gs)))
    by (rewrite map_map; reflexivity).
  rewrite Hmap.
  change (String.concat ","
            (map (fun b => ("{" ++ b ++ "}")%string)
               (map (fun g => String.concat "," (map entry_text g)) (g :: gs))))
    with ("" ++ String.concat ","
            (map (fun b => ("{" ++ b ++ "}")%string)
               (map (fun g => String.concat "," (map entry_text g)) (g :: gs))))%string.
  rewrite value_dicts_groups;
    [|discriminate
     |apply group_body_lacks; [cbn; tauto|exact H]
     |apply group_body_lacks; [cbn; tauto|exact H]
     |reflexivity|reflexivity].
  now rewrite (converted_dicts_groups _ H).
Qed.

Lemma parse_value_commas x y items :
  forallb (lacks ",") (x :: y :: items) = true ->
  forallb (lacks "{") (x :: y :: items) = true ->
  parse_value (String.concat "," (x :: y :: items))
  = convert_value_to_yaml
      (VList (map vstr (filter nonempty (x :: y :: items)))).
Proof.
  intros Hcomma Hbrace.
  assert (Hb : contains_char "{" (String.concat "," (x :: y :: items)) = false).
  { apply negb_true_iff. apply (lacks_concat "{" "," _ eq_refl Hbrace). }
  assert (Hc : contains_char "," (String.concat "," (x :: y :: items)) = true).
  { rewrite concat_two. apply negb_false_iff.
    change (lacks "," (x ++ String "," (String.concat "," (y :: items)))%string
            = false).
    rewrite lacks_app, lacks_cons. cbn. apply andb_false_r. }
  rewrite (parse_value_comma_list _ Hb Hc).
  now rewrite (split_char_concat "," (x :: y :: items))
    by (discriminate || exact Hcomma).
Qed.

(** C9: a text without a brace is split at its commas and the empty pieces
    are dropped; a text of Map literals gives one Map for each pair of
    braces, every entry under its key, an entry of several items holding
    their list; in both cases every leaf, keys included, is then coerced.
    So ["aa,,bb"] gives the strings [aa] and [bb];
    ["{bb:aa,dd:22.2},{kk:1}"] gives the Maps [{bb: "aa", dd: 22.2}] and
    [{kk: 1}], with 22.2 a float and 1 an integer; ["item,"] gives a
    one-element list; and in ["{on: Yes ,ports:80,443,7: x}"] the blanks
    around a leaf go, [Yes] is a boolean, the two ports make a list and the
    key [7] is an integer. *)
Theorem parse_value_literals :
  (forall x y items,
     forallb (lacks ",") (x :: y :: items) = true ->
     forallb (lacks "{") (x :: y :: items) = true ->
     parse_value (String.concat "," (x :: y :: items))
     = convert_value_to_yaml
         (VList (map vstr (filter nonempty (x :: y :: items))))) /\
  (forall g gs,
     forallb plain_group (g :: gs) = true ->
     parse_value (String.concat "," (map group_text (g :: gs)))
     = convert_value_to_yaml (VList (map group_map (g :: gs)))) /\
  parse_value "aa,,bb" = Ok (VList [vstr "aa"; vstr "bb"]) /\
  parse_value "{bb:aa,dd:22.2},{kk:1}"
    = Ok (VList [VDict [(AStr "bb", vstr "aa");
                        (AStr "dd", VAtom (AFloat (FDec 222 (-1))))];
                 VDict [(AStr "kk", vint 1)]]) /\
  parse_value "item," = Ok (VList [vstr "item"]) /\
  parse_value "{on: Yes ,ports:80,443,7: x}"
    = Ok (VList [VDict [(AStr "on", vbool true);
                        (AStr "ports", VList [vint 80; vint 443]);
                        (AInt 7, vstr "x")]]).
Proof.
  split; [exact parse_value_commas|].
  split; [exact parse_value_groups|].
  repeat split.
Qed.

Lemma parse_value_literals_witness :
  forallb (lacks ",") ["a"; ""; "1"] = true /\
  forallb (lacks "{") ["a"; ""; "1"] = true /\
  parse_value "a,,1" = Ok (VList [vstr "a"; vint 1]) /\
  forallb plain_group [[("k", ["v"; "w"])]; [("num", ["2"])]] = true /\
  parse_value "{k:v,w},{num:2}"
    = Ok (VList [VDict [(AStr "k", VList [vstr "v"; vstr "w"])];
                 VDict [(AStr "num", vint 2)]]).
Proof.
  do 2 (split; [reflexivity|]).
  split; [exact (proj1 parse_value_literals "a" "" ["1"] eq_refl eq_refl)|].
  split; [reflexivity|].
  exact (proj1 (proj2 parse_value_literals) [("k", ["v"; "w"])]
           [[("num", ["2"])]] eq_refl).
Defined.

(** ** The orchestrator *)

(** X14: when [relayer_config] writes nothing although every batch went
    through, no update, add, extend or insert request was given and no
    document to merge; and unless [ignore_not_found] was set, no removal
    request either. *)
Theorem nothing_written_means_nothing_asked :
  forall json_loads float_repr config add_kvs rm_keys update_kvs extend_kvs
         insert_kvs rm_list_element_keys to_merge ignore,
    relayer_config json_loads float_repr config add_kvs rm_keys update_kvs
      extend_kvs insert_kvs rm_list_element_keys to_merge ignore = Ok None ->
    update_kvs = [] /\ add_kvs = [] /\ extend_kvs = [] /\ insert_kvs = [] /\
    to_merge = None /\
    (ignore = false -> rm_keys = [] /\ rm_list_element_keys = []).
Proof.
  intros jl fr config add_kvs rm_keys update_kvs extend_kvs insert_kvs
         rm_list to_merge ignore H.
  unfold relayer_config, bind in H.
  destruct (_mod_kvs jl fr config rm_keys Remove ignore)
    as [[c1 f1]|e] eqn:E1; [|discriminate H].
  destruct (_mod_kvs jl fr c1 rm_list RemoveListElement ignore)
    as [[c2 f2]|e] eqn:E2; [|discriminate H].
  destruct (_mod_kvs jl fr c2 update_kvs Update false)
    as [[c3 f3]|e] eqn:E3; [|discriminate H].
  destruct (_mod_kvs jl fr c3 add_kvs Add false)
    as [[c4 f4]|e] eqn:E4; [|discriminate H].
  destruct (_mod_kvs jl fr c4 extend_kvs ExtendList false)
    as [[c5 f5]|e] eqn:E5; [|discriminate H].
  destruct (_mod_kvs jl fr c5 insert_kvs InsertToList false)
    as [[c6 f6]|e] eqn:E6; [|discriminate H].
  assert (Hflag : forall op ign kvs c c' f,
            is_remove_operation op = false \/ ign = false ->
            _mod_kvs jl fr c kvs op ign = Ok (c', f) -> f = false -> kvs = []).
  { intros op ign kvs c c' f Hop E Hf. destruct kvs as [|kv tl]; [reflexivity|].
    rewrite (mod_kvs_changed jl fr op ign (kv :: tl) c c' f Hop) in Hf;
      [discriminate Hf|discriminate|exact E]. }
  destruct (match to_merge with
            | Some config_b => merge_configs_any c6 config_b
            | None => Ok (c6, false)
            end) as [[c7 f7]|e] eqn:E7; [|discriminate H].
  destruct (existsb (fun changed : bool => changed) [f1; f2; f3; f4; f5; f6; f7])
    eqn:Hany; [discriminate H|].
  cbn in Hany. repeat (apply orb_false_elim in Hany as [? Hany]). subst.
  refine (conj _ (conj _ (conj _ (conj _ (conj _ _))))).
  - exact (Hflag Update false _ _ _ _ (or_introl eq_refl) E3 eq_refl).
  - exact (Hflag Add false _ _ _ _ (or_introl eq_refl) E4 eq_refl).
  - exact (Hflag ExtendList false _ _ _ _ (or_introl eq_refl) E5 eq_refl).
  - exact (Hflag InsertToList false _ _ _ _ (or_introl eq_refl) E6 eq_refl).
  - destruct to_merge as [b|]; [|reflexivity].
    unfold merge_configs_any, bind in E7.
    destruct c6 as [a|l|d].
    + destruct b; [now inversion E7|discriminate E7].
    + destruct (merge_into_list l b); [now inversion E7|discriminate E7].
    + now inversion E7.
  - intros ->. split.
    + exact (Hflag Remove false _ _ _ _ (or_intror eq_refl) E1 eq_refl).
    + exact (Hflag RemoveListElement false _ _ _ _ (or_intror eq_refl) E2
               eq_refl).
Qed.

Lemma nothing_written_means_nothing_asked_witness :
  relayer_config loads_rejecting repr_unused doc_int [] ["b"] [] [] [] [] None true
    = Ok None /\
  ([] : list string) = [] /\
  (true = false -> ["b"] = ([] : list string) /\ ([] : list string) = []).
Proof.
  split; [reflexivity|].
  pose proof (nothing_written_means_nothing_asked loads_rejecting repr_unused
                doc_int [] ["b"] [] [] [] [] None true eq_refl)
    as (Hu & _ & _ & _ & _ & Hrm).
  split; [exact Hu|exact Hrm].
Defined.

(** ** List edits through a Map parent *)

Lemma clamp_position_nat (len p : nat) :
  clamp_position len (Z.of_nat p) = Nat.min p len.
Proof.
  unfold clamp_position.
  destruct (Z.ltb_spec (Z.of_nat p) 0); [lia|]. lia.
Qed.

Lemma list_splice_nat (l xs : list value) (p : nat) :
  list_splice l (Z.of_nat p) xs = firstn p l ++ xs ++ skipn p l.
Proof.
  unfold list_splice. rewrite clamp_position_nat.
  destruct (Nat.le_gt_cases p (List.length l)) as [H|H].
  - now rewrite Nat.min_l.
  - rewrite Nat.min_r by lia.
    rewrite (firstn_all2 (n := p)) by lia.
    rewrite firstn_all, skipn_all. now rewrite (skipn_all2 (n := p)) by lia.
Qed.

(** a value that is stored under [level] of a Map and handed back as the
    subsection is what the Map holds afterwards *)
Lemma assign_direct d level x section_idx old :
  dict_get d (AStr level) = Some old ->
  _assign_subsection (VDict d) level x section_idx
  = VDict (dict_set d (AStr level) x).
Proof. intros H. cbn. now rewrite (dict_mem_get _ _ _ H). Qed.

(** X15: ExtendList aimed at a list held by a Map, with a value other than
    that list: without index, or with empty brackets, the values are
    appended; with [start] they are put in front; with an integer index up
    to the length of the list they are spliced in at that position.  The
    value counts as its elements when it is a list and as one element
    otherwise. *)
Theorem extend_list_on_map :
  forall json_loads float_repr ignore v d level0 section_idx level level_idx l,
    _enrich_level_index level0 = (level, level_idx) ->
    dict_get d (AStr level) = Some (VList l) ->
    py_eq (VList l) v = false ->
    (level_idx = None \/ level_idx = Some (IdxStr "") ->
     update_section json_loads float_repr (kwargs_of ExtendList ignore) v
       (VDict d) [level0] section_idx
     = Ok (VDict (dict_set d (AStr level) (VList (l ++ as_list v))), true)) /\
    (level_idx = Some (IdxStr "start") ->
     update_section json_loads float_repr (kwargs_of ExtendList ignore) v
       (VDict d) [level0] section_idx
     = Ok (VDict (dict_set d (AStr level) (VList (as_list v ++ l))), true)) /\
    (forall p, level_idx = Some (IdxInt (Z.of_nat p)) ->
     (p <= List.length l)%nat ->
     update_section json_loads float_repr (kwargs_of ExtendList ignore) v
       (VDict d) [level0] section_idx
     = Ok (VDict (dict_set d (AStr level)
                    (VList (firstn p l ++ as_list v ++ skipn p l))), true)).
Proof.
  intros jl fr ignore v d level0 sidx level lidx l He Hd Hne.
  assert (Hg : _get_subsection (VDict d) level sidx = (VList l, None))
    by (cbn; now rewrite Hd).
  rewrite (update_section_last jl fr _ v _ _ _ _ _ _ _ He Hg).
  cbn [is_none kwargs_of rm_mode]. rewrite Hne. cbn [negb].
  unfold _handle_insert_in_section, section_item.
  cbn [kwargs_of extend_mode]. rewrite orb_true_r. cbn [orb].
  rewrite Hd. cbn [bind].
  unfold _handle_add_to_list. cbn [kwargs_of extend_mode].
  unfold _handle_extend_list, section_list, section_item, set_section_item.
  rewrite Hd. cbn [bind].
  split; [|split].
  - intros [-> | ->];
      cbn [idx_is ListIndices.start String.eqb bind is_none vnone];
      do 2 f_equal; apply assign_after_store.
  - intros ->. cbn [idx_is ListIndices.start String.eqb Ascii.eqb Bool.eqb bind
                    is_none].
    do 2 f_equal. now apply (assign_direct d level _ sidx (VList l)).
  - intros p -> _. cbn [idx_is bind is_none vnone]. rewrite list_splice_nat.
    do 2 f_equal. apply assign_after_store.
Qed.

Lemma extend_list_on_map_witness :
  _enrich_level_index "l[1]" = ("l", Some (IdxInt 1)) /\
  dict_get [(AStr "l", VList [vstr "a"; vstr "b"])] (AStr "l")
    = Some (VList [vstr "a"; vstr "b"]) /\
  py_eq (VList [vstr "a"; vstr "b"]) (VList [vstr "x"; vstr "y"]) = false /\
  (1 <= List.length [vstr "a"; vstr "b"])%nat /\
  update_section loads_rejecting repr_unused (kwargs_of ExtendList false)
    (VList [vstr "x"; vstr "y"]) doc_list ["l[1]"] None
  = Ok (VDict [(AStr "l", VList [vstr "a"; vstr "x"; vstr "y"; vstr "b"])], true).
Proof.
  do 3 (split; [reflexivity|]).
  assert (Hp : (1 <= List.length [vstr "a"; vstr "b"])%nat) by (cbn; lia).
  split; [exact Hp|].
  exact (proj2 (proj2 (extend_list_on_map loads_rejecting repr_unused false
                         (VList [vstr "x"; vstr "y"])
                         [(AStr "l", VList [vstr "a"; vstr "b"])] "l[1]" None
                         "l" (Some (IdxInt 1)) [vstr "a"; vstr "b"]
                         eq_refl eq_refl eq_refl)) 1%nat eq_refl Hp).
Defined.

(** X16: InsertToList aimed at a list held by a Map, with a value other
    than that list: at an integer index up to the length of the list the
    value is inserted there and the list grows by one; at an index beyond
    the length the request fails with "index out of range"; without an
    index it fails with [TypeError]. *)
Theorem insert_to_list_on_map :
  forall json_loads float_repr ignore v d level0 section_idx level level_idx l,
    _enrich_level_index level0 = (level, level_idx) ->
    dict_get d (AStr level) = Some (VList l) ->
    py_eq (VList l) v = false ->
    (forall p, level_idx = Some (IdxInt (Z.of_nat p)) ->
     (p <= List.length l)%nat ->
     update_section json_loads float_repr (kwargs_of InsertToList ignore) v
       (VDict d) [level0] section_idx
     = Ok (VDict (dict_set d (AStr level)
                    (VList (firstn p l ++ v :: skipn p l))), true)) /\
    (forall p, level_idx = Some (IdxInt (Z.of_nat p)) ->
     (List.length l < p)%nat ->
     update_section json_loads float_repr (kwargs_of InsertToList ignore) v
       (VDict d) [level0] section_idx
     = Raise (IndexError "index out of range")) /\
    (level_idx = None ->
     update_section json_loads float_repr (kwargs_of InsertToList ignore) v
       (VDict d) [level0] section_idx = Raise TypeError).
Proof.
  intros jl fr ignore v d level0 sidx level lidx l He Hd Hne.
  assert (Hg : _get_subsection (VDict d) level sidx = (VList l, None))
    by (cbn; now rewrite Hd).
  rewrite (update_section_last jl fr _ v _ _ _ _ _ _ _ He Hg).
  cbn [is_none kwargs_of rm_mode]. rewrite Hne. cbn [negb].
  unfold _handle_insert_in_section, section_item.
  cbn [kwargs_of extend_mode list_insert_mode]. rewrite orb_true_r.
  rewrite Hd. cbn [bind].
  unfold _handle_add_to_list. cbn [kwargs_of extend_mode list_insert_mode].
  unfold section_list, section_item, set_section_item. rewrite Hd. cbn [bind].
  split; [|split].
  - intros p -> Hp. cbn [idx_is].
    destruct (Z.ltb_spec (Z.of_nat (List.length l)) (Z.of_nat p)); [lia|].
    cbn [bind is_none vnone]. unfold list_insert. rewrite list_splice_nat.
    do 2 f_equal. apply assign_after_store.
  - intros p -> Hp. cbn [idx_is].
    destruct (Z.ltb_spec (Z.of_nat (List.length l)) (Z.of_nat p)); [|lia].
    reflexivity.
  - intros ->. reflexivity.
Qed.

Lemma insert_to_list_on_map_witness :
  _enrich_level_index "l[3]" = ("l", Some (IdxInt 3)) /\
  dict_get [(AStr "l", VList [vstr "a"; vstr "b"])] (AStr "l")
    = Some (VList [vstr "a"; vstr "b"]) /\
  py_eq (VList [vstr "a"; vstr "b"]) (vstr "x") = false /\
  (List.length [vstr "a"; vstr "b"] < 3)%nat /\
  update_section loads_rejecting repr_unused (kwargs_of InsertToList false)
    (vstr "x") doc_list ["l[3]"] None
  = Raise (IndexError "index out of range").
Proof.
  do 3 (split; [reflexivity|]).
  assert (Hlt : (List.length [vstr "a"; vstr "b"] < 3)%nat) by (cbn; lia).
  split; [exact Hlt|].
  exact (proj1 (proj2 (insert_to_list_on_map loads_rejecting repr_unused false
                         (vstr "x") [(AStr "l", VList [vstr "a"; vstr "b"])]
                         "l[3]" None "l" (Some (IdxInt 3)) [vstr "a"; vstr "b"]
                         eq_refl eq_refl eq_refl)) 3%nat eq_refl Hlt).
Defined.

(** X17: a request that needs a list and finds something else under the
    key of a Map fails with "Key is not a list": an Update, Add, Extend or
    Insert with an index, an Extend or Insert without one, when its value
    differs from what is there; and a Remove with an index, with or without
    [ignore_not_found]. *)
Theorem key_is_not_a_list :
  forall json_loads float_repr operation ignore v d level0 section_idx level
         level_idx x,
    _enrich_level_index level0 = (level, level_idx) ->
    dict_get d (AStr level) = Some x ->
    no_list x = true ->
    operation <> RemoveListElement ->
    (operation = Remove \/ py_eq x v = false) ->
    (level_idx <> None \/ operation = ExtendList \/ operation = InsertToList) ->
    update_section json_loads float_repr (kwargs_of operation ignore) v
      (VDict d) [level0] section_idx
    = Raise (RuntimeError "Key is not a list").
Proof.
  intros jl fr operation ignore v d level0 sidx level lidx x He Hd Hx Hop Hne Hidx.
  assert (Hg : _get_subsection (VDict d) level sidx = (x, None))
    by (cbn; now rewrite Hd).
  rewrite (update_section_last jl fr _ v _ _ _ _ _ _ _ He Hg).
  assert (Hn : is_none x = false) by (destruct x as [[]| |]; easy).
  rewrite Hn.
  destruct operation; cbn [kwargs_of rm_mode]; try (now destruct Hop).
  - (* Remove *)
    unfold _handle_rm_from_section, section_item. cbn [kwargs_of rm_value_mode].
    destruct lidx as [li|].
    + rewrite Hd. cbn [bind]. destruct x as [[]| |]; try discriminate Hx;
        reflexivity.
    + destruct Hidx as [H|[H|H]]; [now destruct H|discriminate H|discriminate H].
  - (* Update *)
    destruct Hne as [H|Hne]; [discriminate H|]. rewrite Hne. cbn [negb].
    unfold _handle_insert_in_section, section_item.
    cbn [kwargs_of extend_mode list_insert_mode]. rewrite !orb_false_r.
    destruct lidx as [li|].
    + rewrite Hd. cbn [bind]. destruct x as [[]| |]; try discriminate Hx;
        reflexivity.
    + destruct Hidx as [H|[H|H]]; [now destruct H|discriminate H|discriminate H].
  - (* Add *)
    destruct Hne as [H|Hne]; [discriminate H|]. rewrite Hne. cbn [negb].
    unfold _handle_insert_in_section, section_item.
    cbn [kwargs_of extend_mode list_insert_mode]. rewrite !orb_false_r.
    destruct lidx as [li|].
    + rewrite Hd. cbn [bind]. destruct x as [[]| |]; try discriminate Hx;
        reflexivity.
    + destruct Hidx as [H|[H|H]]; [now destruct H|discriminate H|discriminate H].
  - (* ExtendList *)
    destruct Hne as [H|Hne]; [discriminate H|]. rewrite Hne. cbn [negb].
    unfold _handle_insert_in_section, section_item.
    cbn [kwargs_of extend_mode list_insert_mode]. rewrite orb_true_r. cbn [orb].
    rewrite Hd. cbn [bind]. destruct x as [[]| |]; try discriminate Hx;
      reflexivity.
  - (* InsertToList *)
    destruct Hne as [H|Hne]; [discriminate H|]. rewrite Hne. cbn [negb].
    unfold _handle_insert_in_section, section_item.
    cbn [kwargs_of extend_mode list_insert_mode]. rewrite orb_true_r.
    rewrite Hd. cbn [bind]. destruct x as [[]| |]; try discriminate Hx;
      reflexivity.
Qed.

Lemma key_is_not_a_list_witness :
  _enrich_level_index "a[1]" = ("a", Some (IdxInt 1)) /\
  dict_get [(AStr "a", vint 1)] (AStr "a") = Some (vint 1) /\
  no_list (vint 1) = true /\
  Remove <> RemoveListElement /\
  (Remove = Remove \/ py_eq (vint 1) vnone = false) /\
  (Some (IdxInt 1) <> None \/ Remove = ExtendList \/ Remove = InsertToList) /\
  update_section loads_rejecting repr_unused (kwargs_of Remove true) vnone
    doc_int ["a[1]"] None
  = Raise (RuntimeError "Key is not a list").
Proof.
  do 3 (split; [reflexivity|]).
  assert (H1 : Remove <> RemoveListElement) by discriminate.
  assert (H2 : Remove = Remove \/ py_eq (vint 1) vnone = false) by now left.
  assert (H3 : Some (IdxInt 1) <> None \/ Remove = ExtendList
               \/ Remove = InsertToList) by (left; discriminate).
  split; [exact H1|]. split; [exact H2|]. split; [exact H3|].
  exact (key_is_not_a_list loads_rejecting repr_unused Remove true vnone
           [(AStr "a", vint 1)] "a[1]" None "a" (Some (IdxInt 1)) (vint 1)
           eq_refl eq_refl eq_refl H1 H2 H3).
Defined.

(** ** Keys of a Map *)

Lemma dict_set_absent {V : Type} (d : list (atom * V)) k v :
  dict_get d k = None -> dict_set d k v = d ++ [(k, v)].
Proof.
  induction d as [|[k' v'] d IH]; cbn; [reflexivity|].
  destruct (atom_eqb k' k); [discriminate|]. intros H. now rewrite (IH H).
Qed.

Lemma dict_set_twice {V : Type} (d : list (atom * V)) k v w :
  dict_set (dict_set d k v) k w = dict_set d k w \/ atom_eqb k k = false.
Proof.
  destruct (atom_eqb k k) eqn:Hk; [left|now right].
  induction d as [|[k' v'] d IH]; cbn.
  - now rewrite Hk.
  - destruct (atom_eqb k' k) eqn:E; cbn; rewrite E; [reflexivity|now rewrite IH].
Qed.

Lemma dict_del_appended {V : Type} (d : list (atom * V)) k v :
  dict_get d k = None -> atom_eqb k k = true -> dict_del (d ++ [(k, v)]) k = d.
Proof.
  intros H Hk. induction d as [|[k' v'] d IH]; cbn.
  - now rewrite Hk.
  - cbn in H. destruct (atom_eqb k' k); [discriminate H|]. now rewrite (IH H).
Qed.

Lemma dict_get_appended {V : Type} (d : list (atom * V)) k v :
  dict_get d k = None -> atom_eqb k k = true -> dict_get (d ++ [(k, v)]) k = Some v.
Proof.
  intros H Hk. rewrite <- (dict_set_absent d k v H). now apply dict_get_set_eq.
Qed.



(** X18: adding a key that a Map lacks puts it last, and removing it again
    gives back the Map as it was. *)
Theorem add_then_remove_restores :
  forall json_loads float_repr ignore ignore' v v' d level0 section_idx level,
    _enrich_level_index level0 = (level, None) ->
    dict_get d (AStr level) = None ->
    is_none v = false ->
    update_section json_loads float_repr (kwargs_of Add ignore) v (VDict d)
      [level0] section_idx
    = Ok (VDict (d ++ [(AStr level, v)]), true) /\
    update_section json_loads float_repr (kwargs_of Remove ignore') v'
      (VDict (d ++ [(AStr level, v)])) [level0] section_idx
    = Ok (VDict d, true).
Proof.
  intros jl fr ignore ignore' v v' d level0 sidx level He Hd Hv.
  split.
  - assert (Hg : _get_subsection (VDict d) level sidx = (vnone, None))
      by (cbn; now rewrite Hd).
    rewrite (update_section_last jl fr _ v _ _ _ _ _ _ _ He Hg). cbn.
    now rewrite (dict_set_absent d _ v Hd).
  - pose proof (dict_get_appended d (AStr level) v Hd (atom_eqb_str_refl level))
      as Hnew.
    assert (Hg : _get_subsection (VDict (d ++ [(AStr level, v)])) level sidx
                 = (v, None)) by (cbn; now rewrite Hnew).
    rewrite (update_section_last jl fr _ v' _ _ _ _ _ _ _ He Hg).
    rewrite Hv. cbn [kwargs_of rm_mode].
    unfold _handle_rm_from_section. cbn [kwargs_of rm_value_mode].
    rewrite (dict_mem_get _ _ _ Hnew). cbn [bind].
    rewrite (dict_del_appended d (AStr level) v Hd (atom_eqb_str_refl level)).
    cbn. unfold dict_mem. now rewrite Hd.
Qed.

Lemma add_then_remove_restores_witness :
  _enrich_level_index "b" = ("b", None) /\
  dict_get [(AStr "a", vint 1)] (AStr "b") = None /\
  is_none (vstr "x") = false /\
  update_section loads_rejecting repr_unused (kwargs_of Add false) (vstr "x")
    doc_int ["b"] None
  = Ok (VDict [(AStr "a", vint 1); (AStr "b", vstr "x")], true) /\
  update_section loads_rejecting repr_unused (kwargs_of Remove false) vnone
    (VDict [(AStr "a", vint 1); (AStr "b", vstr "x")]) ["b"] None
  = Ok (doc_int, true).
Proof.
  do 3 (split; [reflexivity|]).
  exact (add_then_remove_restores loads_rejecting repr_unused false false
           (vstr "x") vnone [(AStr "a", vint 1)] "b" None "b"
           eq_refl eq_refl eq_refl).
Defined.



(** creation below an absent key, segment by segment *)
Lemma update_section_creates json_loads float_repr kw v rest :
  append_mode kw = true ->
  forall level d section_idx,
    forallb (lacks "[") (level :: rest) = true ->
    dict_get d (AStr level) = None ->
    update_section json_loads float_repr kw v (VDict d) (level :: rest)
      section_idx
    = Ok (VDict (d ++ [(AStr level, chain rest v)]), true).
Proof.
  intros Ha. induction rest as [|next rest IH]; intros level d sidx Hl Hd.
  - cbn [forallb] in Hl. apply andb_prop in Hl as [Hl _].
    pose proof (enrich_without_opening_bracket level Hl) as He.
    assert (Hg : _get_subsection (VDict d) level sidx = (vnone, None))
      by (cbn; now rewrite Hd).
    rewrite (update_section_last json_loads float_repr kw v _ _ _ _ _ _ _ He Hg).
    cbn. rewrite Ha. cbn. now rewrite (dict_set_absent d _ v Hd).
  - cbn [forallb] in Hl. apply andb_prop in Hl as [Hl Hrest].
    pose proof (enrich_without_opening_bracket level Hl) as He.
    assert (Hg : _get_subsection (VDict d) level sidx = (vnone, None))
      by (cbn; now rewrite Hd).
    rewrite (update_section_deeper_absent json_loads float_repr kw v _ _ _ _ _
               _ _ _ _ He Hg eq_refl).
    rewrite Ha. cbn [negb].
    rewrite (IH next [] None Hrest eq_refl). cbn [bind app chain].
    destruct (dict_set_twice d (AStr level) (VDict [])
                (VDict [(AStr next, chain rest v)])) as [Ht|Ht].
    + now rewrite Ht, (dict_set_absent d _ _ Hd).
    + now rewrite atom_eqb_str_refl in Ht.
Qed.

(** X20: under an operation that may create keys, a key of plain segments
    whose first segment is absent from a Map adds one entry, last, holding
    the chain of one-key Maps that leads to the value; nothing else of the
    Map changes. *)
Theorem absent_path_is_created :
  forall json_loads float_repr operation ignore v d seg segs,
    append_mode (kwargs_of operation ignore) = true ->
    forallb plain_segment (seg :: segs) = true ->
    forallb (lacks "[") (seg :: segs) = true ->
    dict_get d (AStr seg) = None ->
    _modify_key json_loads float_repr (kwargs_of operation ignore) v (VDict d)
      (String.concat "." (seg :: segs))
    = Ok (VDict (d ++ [(AStr seg, chain segs v)]), true).
Proof.
  intros jl fr operation ignore v d seg segs Ha Hplain Hbr Hd.
  unfold _modify_key.
  rewrite (split_levels_concat (seg :: segs)) by (discriminate || exact Hplain).
  rewrite (map_unescape_plain _ Hplain).
  now apply update_section_creates.
Qed.

Lemma absent_path_is_created_witness :
  append_mode (kwargs_of Add false) = true /\
  forallb plain_segment ["field_2"; "sub_field_0"] = true /\
  forallb (lacks "[") ["field_2"; "sub_field_0"] = true /\
  dict_get [(AStr "a", vint 1)] (AStr "field_2") = None /\
  _modify_key loads_rejecting repr_unused (kwargs_of Add false) (vint 123)
    doc_int "field_2.sub_field_0"
  = Ok (VDict [(AStr "a", vint 1);
               (AStr "field_2", VDict [(AStr "sub_field_0", vint 123)])], true).
Proof.
  do 4 (split; [reflexivity|]).
  exact (absent_path_is_created loads_rejecting repr_unused Add false (vint 123)
           [(AStr "a", vint 1)] "field_2" ["sub_field_0"]
           eq_refl eq_refl eq_refl eq_refl).
Defined.

(** ** Requests that fail below created segments *)

(** below segments that a Map lacks, the Maps created for them are in the
    tree when the call on the last segment raises *)
Lemma update_section_in_place_creates json_loads float_repr kw v level0 e rest :
  append_mode kw = true ->
  update_section json_loads float_repr kw v (VDict []) [level0] None = Raise e ->
  forall level d section_idx,
    forallb (lacks "[") (level :: rest) = true ->
    dict_get d (AStr level) = None ->
    update_section_in_place json_loads float_repr kw v (VDict d)
      (level :: rest ++ [level0]) section_idx
    = Failed e (VDict (d ++ [(AStr level, chain rest (VDict []))])).
Proof.
  intros Ha Hlast. induction rest as [|next rest IH]; intros level d sidx Hl Hd.
  - cbn [forallb] in Hl. apply andb_prop in Hl as [Hl _].
    pose proof (enrich_without_opening_bracket level Hl) as He.
    assert (Hg : _get_subsection (VDict d) level sidx = (vnone, None))
      by (cbn; now rewrite Hd).
    cbn [app].
    rewrite (update_section_in_place_absent json_loads float_repr kw v _ _ _ _ _
               _ _ _ _ He Hg eq_refl).
    rewrite Ha. cbn [negb].
    rewrite update_section_in_place_last, Hlast. cbn [chain].
    destruct (dict_set_twice d (AStr level) (VDict []) (VDict [])) as [Ht|Ht].
    + now rewrite Ht, (dict_set_absent d _ _ Hd).
    + now rewrite atom_eqb_str_refl in Ht.
  - cbn [forallb] in Hl. apply andb_prop in Hl as [Hl Hrest].
    pose proof (enrich_without_opening_bracket level Hl) as He.
    assert (Hg : _get_subsection (VDict d) level sidx = (vnone, None))
      by (cbn; now rewrite Hd).
    cbn [app].
    rewrite (update_section_in_place_absent json_loads float_repr kw v _ _ _ _ _
               _ _ _ _ He Hg eq_refl).
    rewrite Ha. cbn [negb].
    rewrite (IH next [] None Hrest eq_refl). cbn [app chain].
    destruct (dict_set_twice d (AStr level) (VDict [])
                (VDict [(AStr next, chain rest (VDict []))])) as [Ht|Ht].
    + now rewrite Ht, (dict_set_absent d _ _ Hd).
    + now rewrite atom_eqb_str_refl in Ht.
Qed.

(** C7, as the code has it: an append-capable operation whose last segment
    names an absent key.  When the segments before it lead to a section
    through existing subsections: with index [start], [end] or [0] the
    operation stores [as_list value] under the key (the value itself when it
    is a list, a one-element list around it otherwise), hands the section up
    the path and reports a change; with any other index it raises "List
    doesn't exist", and the tree is as it was.  When the segments before it
    are absent from a Map, a failure finds the Maps created for them in the
    tree. *)
Theorem absent_key_with_append :
  forall json_loads float_repr kw v level0 level level_idx,
    append_mode kw = true ->
    _enrich_level_index level0 = (level, level_idx) ->
    (forall config config_idx parents section section_idx idx,
       reach config parents config_idx = Some (section, section_idx) ->
       _get_subsection section level section_idx = (vnone, idx) ->
       (In level_idx
          [Some (IdxStr "start"); Some (IdxStr "end"); Some (IdxInt 0)] ->
        update_section json_loads float_repr kw v config (parents ++ [level0])
          config_idx
        = Ok (assign_along config parents config_idx
                (match section with
                 | VDict d => VDict (dict_set d (AStr level) (VList (as_list v)))
                 | VList l =>
                     VList (l ++ [VDict [(AStr level, VList (as_list v))]])
                 | VAtom a =>
                     VDict [(AStr (py_str float_repr a),
                             VDict [(AStr level, VList (as_list v))])]
                 end), true)) /\
       (level_idx <> None ->
        ~ In level_idx
            [Some (IdxStr "start"); Some (IdxStr "end"); Some (IdxInt 0)] ->
        update_section json_loads float_repr kw v config (parents ++ [level0])
          config_idx
        = Raise (RuntimeError "List doesn't exist") /\
        update_section_in_place json_loads float_repr kw v config
          (parents ++ [level0]) config_idx
        = Failed (RuntimeError "List doesn't exist") config)) /\
    (forall d config_idx seg segs,
       forallb (lacks "[") (seg :: segs) = true ->
       dict_get d (AStr seg) = None ->
       level_idx <> None ->
       ~ In level_idx
           [Some (IdxStr "start"); Some (IdxStr "end"); Some (IdxInt 0)] ->
       update_section_in_place json_loads float_repr kw v (VDict d)
         (seg :: segs ++ [level0]) config_idx
       = Failed (RuntimeError "List doesn't exist")
           (VDict (d ++ [(AStr seg, chain segs (VDict []))]))).
Proof.
  intros jl fr kw v level0 level lidx Ha He. split.
  - intros config cidx parents section sidx idx Hr Hg.
    destruct (absent_key_with_append_last jl fr kw v section level0 sidx level
                lidx idx Ha He Hg) as [Hopen Hother].
    pose proof (update_section_below jl fr kw v parents _ _ _ _ level0 [] Hr)
      as Hbelow.
    split.
    + intros Hin. now rewrite Hbelow, (Hopen Hin).
    + intros Hsome Hnot. specialize (Hother Hsome Hnot).
      split; [now rewrite Hbelow, Hother|].
      apply (update_section_in_place_below jl fr kw v parents _ _ _ _ _ _ _ Hr).
      now rewrite update_section_in_place_last, Hother.
  - intros d cidx seg segs Hl Hd Hsome Hnot.
    apply update_section_in_place_creates; try assumption.
    apply (absent_key_with_append_last jl fr kw v (VDict []) level0 None level
             lidx None Ha He eq_refl); assumption.
Qed.

Lemma absent_key_with_append_witness :
  append_mode (kwargs_of Add false) = true /\
  _enrich_level_index "k[0]" = ("k", Some (IdxInt 0)) /\
  reach (VDict [(AStr "a", VDict [(AStr "c", vint 1)])]) ["a"] None
    = Some (VDict [(AStr "c", vint 1)], None) /\
  _get_subsection (VDict [(AStr "c", vint 1)]) "k" None = (vnone, None) /\
  In (Some (IdxInt 0)) [Some (IdxStr "start"); Some (IdxStr "end"); Some (IdxInt 0)] /\
  update_section loads_rejecting repr_unused (kwargs_of Add false) (vstr "new")
    (VDict [(AStr "a", VDict [(AStr "c", vint 1)])]) (["a"] ++ ["k[0]"]) None
  = Ok (VDict [(AStr "a", VDict [(AStr "c", vint 1);
                                 (AStr "k", VList [vstr "new"])])], true).
Proof.
  assert (Hin : In (Some (IdxInt 0))
                  [Some (IdxStr "start"); Some (IdxStr "end"); Some (IdxInt 0)])
    by (cbn; tauto).
  do 4 (split; [reflexivity|]). split; [exact Hin|].
  exact (proj1 (proj1 (absent_key_with_append loads_rejecting repr_unused
                         (kwargs_of Add false) (vstr "new") "k[0]" "k"
                         (Some (IdxInt 0)) eq_refl eq_refl)
                  (VDict [(AStr "a", VDict [(AStr "c", vint 1)])]) None ["a"]
                  (VDict [(AStr "c", vint 1)]) None None eq_refl eq_refl) Hin).
Defined.

(** C7 as stated fails twice.  On a list value: [Add k[0]=a,b] on an empty
    document stores the list ["a", "b"] itself, not a one-element list
    around it.  On the tree a failure leaves: [Add x.y.k[1]=v] on an empty
    document raises "List doesn't exist" when the Maps for [x] and [y] are
    already in the document. *)
Lemma list_kept_and_parents_created :
  _mod_kvs loads_rejecting repr_unused (VDict []) ["k[0]=a,b"] Add false
    = Ok (VDict [(AStr "k", VList [vstr "a"; vstr "b"])], true) /\
  _mod_kvs loads_rejecting repr_unused (VDict []) ["k[0]=a,b"] Add false
    <> Ok (VDict [(AStr "k", VList [VList [vstr "a"; vstr "b"]])], true) /\
  _modify_key_in_place loads_rejecting repr_unused (kwargs_of Add false)
    (vstr "v") (VDict []) "x.y.k[1]"
    = Failed (RuntimeError "List doesn't exist")
        (VDict [(AStr "x", VDict [(AStr "y", VDict [])])]) /\
  VDict [(AStr "x", VDict [(AStr "y", VDict [])])] <> VDict [].
Proof.
  split; [vm_compute; reflexivity|].
  split; [vm_compute; discriminate|].
  split; [vm_compute; reflexivity|discriminate].
Qed.

(** ** What an update leaves in place *)

Lemma map_fst_dict_set_present {V : Type} (d : list (atom * V)) k x :
  dict_mem d k = true -> map fst (dict_set d k x) = map fst d.
Proof.
  unfold dict_mem. induction d as [|[k' v'] d IH]; cbn; [discriminate|].
  destruct (atom_eqb k' k); cbn; [reflexivity|].
  intros H. now rewrite (IH H).
Qed.

Lemma assign_keeps_keys d level x section_idx :
  exists d', _assign_subsection (VDict d) level x section_idx = VDict d' /\
             map fst d' = map fst d.
Proof.
  cbn. destruct (dict_mem d (AStr level)) eqn:Hm.
  - eexists. split; [reflexivity|]. now apply map_fst_dict_set_present.
  - now exists d.
Qed.

Lemma insert_handler_keeps_keys kw v d level level_idx section1 direct :
  _handle_insert_in_section kw v (VDict d) level level_idx
    = Ok (section1, direct) ->
  exists d1, section1 = VDict d1 /\ map fst d1 = map fst d.
Proof.
  unfold _handle_insert_in_section, _handle_add_to_list, _handle_extend_list,
    section_list, section_item, set_section_item, bind.
  intros H.
  destruct (dict_get d (AStr level)) as [target|] eqn:Hd.
  - pose proof (map_fst_dict_set_present d (AStr level)) as Hkeys.
    specialize (Hkeys) with (1 := dict_mem_get _ _ _ Hd).
    repeat break_match_in H; try discriminate H; inversion H; subst;
      eexists; (split; [reflexivity|]); try reflexivity; apply Hkeys.
  - repeat break_match_in H; try discriminate H; inversion H; subst;
      eexists; (split; [reflexivity|]); reflexivity.
Qed.

Lemma update_section_keeps_keys json_loads float_repr kw v d levels section_idx
  s c :
  append_mode kw = false ->
  rm_mode kw = false ->
  update_section json_loads float_repr kw v (VDict d) levels section_idx
    = Ok (s, c) ->
  exists d', s = VDict d' /\ map fst d' = map fst d.
Proof.
  intros Ha Hrm H. destruct levels as [|level0 rest]; [discriminate H|].
  destruct (_enrich_level_index level0) as [level lidx] eqn:He.
  destruct (_get_subsection (VDict d) level section_idx) as [sub idx] eqn:Hg.
  destruct rest as [|next rest].
  - rewrite (update_section_last json_loads float_repr kw v _ _ _ _ _ _ _ He Hg)
      in H.
    rewrite Ha, Hrm in H. cbn [negb andb] in H.
    destruct (is_none sub); [discriminate H|].
    destruct (py_eq sub v); cbn [negb] in H.
    + injection H as Hs Hc. subst s.
      destruct (assign_keeps_keys d level sub section_idx) as (d' & Heq & Hk).
      exists d'. split; [exact Heq|exact Hk].
    + unfold bind in H.
      destruct (_handle_insert_in_section kw v (VDict d) level lidx)
        as [[s1 direct]|e] eqn:E; [|discriminate H].
      destruct (insert_handler_keeps_keys _ _ _ _ _ _ _ E) as (d1 & Hs1 & Hk1).
      subst s1. injection H as Hs Hc. subst s.
      destruct (assign_keeps_keys d1 level
                  (if is_none direct then reread (VDict d1) level sub else direct)
                  section_idx) as (d' & Heq & Hk).
      exists d'. split; [exact Heq|congruence].
  - destruct (is_none sub) eqn:Hn.
    + rewrite (update_section_deeper_absent json_loads float_repr kw v _ _ _ _ _
                 _ _ _ _ He Hg Hn) in H.
      rewrite Ha in H. discriminate H.
    + rewrite (update_section_deeper json_loads float_repr kw v _ _ _ _ _ _ _ _ _
                 He Hg Hn) in H.
      rewrite Ha in H. cbn [negb] in H. unfold bind in H.
      destruct (is_int sub); [discriminate H|].
      destruct (update_section json_loads float_repr kw v sub (next :: rest) lidx)
        as [[sub2 ch]|e]; [|discriminate H].
      injection H as Hs Hc. subst s.
      destruct (assign_keeps_keys d level sub2 section_idx) as (d' & Heq & Hk).
      exists d'. split; [exact Heq|exact Hk].
Qed.

(** X21: whatever its key and value, an Update request that succeeds on a
    Map gives a Map with the same keys in the same order: Update adds no
    entry, drops none and moves none at the top of the document. *)
Theorem update_keeps_top_level_keys :
  forall json_loads float_repr ignore v d full_key s c,
    _modify_key json_loads float_repr (kwargs_of Update ignore) v (VDict d)
      full_key = Ok (s, c) ->
    exists d', s = VDict d' /\ map fst d' = map fst d.
Proof.
  intros jl fr ignore v d full_key s c H. unfold _modify_key in H.
  exact (update_section_keeps_keys jl fr (kwargs_of Update ignore) v d _ None
           s c eq_refl eq_refl H).
Qed.

Lemma update_keeps_top_level_keys_witness :
  _modify_key loads_rejecting repr_unused (kwargs_of Update false) (vstr "x")
    doc_list "l[start]"
  = Ok (VDict [(AStr "l", VList [vstr "x"; vstr "a"; vstr "b"])], true) /\
  exists d', VDict [(AStr "l", VList [vstr "x"; vstr "a"; vstr "b"])] = VDict d' /\
             map fst d' = map fst [(AStr "l", VList [vstr "a"; vstr "b"])].
Proof.
  split; [reflexivity|].
  exact (update_keeps_top_level_keys loads_rejecting repr_unused false (vstr "x")
           [(AStr "l", VList [vstr "a"; vstr "b"])] "l[start]" _ _ eq_refl).
Defined.

(** ** Lists of Maps *)

Lemma assign_in_list_length l : forall k key sub section_idx,
  List.length (assign_in_list l k key sub section_idx) = List.length l.
Proof.
  induction l as [|x l IH]; intros k key sub sidx; [reflexivity|].
  cbn [assign_in_list List.length]. now rewrite IH.
Qed.

Lemma assign_in_list_elsewhere l n key sub : forall k i,
  Z.of_nat (k + i) <> n ->
  nth_error (assign_in_list l k key sub (Some (IdxInt n))) i = nth_error l i.
Proof.
  induction l as [|x l IH]; intros k i Hi; [reflexivity|].
  cbn [assign_in_list]. destruct i as [|i].
  - cbn [nth_error idx_selected]. rewrite Nat.add_0_r in Hi.
    apply Z.eqb_neq in Hi. rewrite Hi, !andb_false_r.
    destruct x; try reflexivity. now rewrite andb_false_r.
  - cbn [nth_error]. apply IH. now replace (S k + i)%nat with (k + S i)%nat by lia.
Qed.

(** X22: with a position, be it an integer index, [start] or [end],
    assigning a subsection inside a list keeps the length of the list and
    leaves every element at another position as it was. *)
Theorem assign_with_index_is_local :
  forall l key sub section_idx n,
    resolve_section_idx (List.length l) section_idx = Some (IdxInt n) ->
    exists l',
      _assign_subsection (VList l) key sub section_idx = VList l' /\
      List.length l' = List.length l /\
      (forall i, Z.of_nat i <> n -> nth_error l' i = nth_error l i).
Proof.
  intros l key sub sidx n Hr. cbn [_assign_subsection]. rewrite Hr.
  eexists. split; [reflexivity|]. split.
  - apply assign_in_list_length.
  - intros i Hi. now apply assign_in_list_elsewhere.
Qed.

Lemma assign_with_index_is_local_witness :
  resolve_section_idx
    (List.length [VDict [(AStr "a", vint 1)]; VDict [(AStr "a", vint 2)]])
    (Some (IdxStr "end")) = Some (IdxInt 1) /\
  exists l',
    _assign_subsection (VList [VDict [(AStr "a", vint 1)]; VDict [(AStr "a", vint 2)]])
      "a" (vint 9) (Some (IdxStr "end")) = VList l' /\
    List.length l'
      = List.length [VDict [(AStr "a", vint 1)]; VDict [(AStr "a", vint 2)]] /\
    (forall i, Z.of_nat i <> 1%Z ->
       nth_error l' i
       = nth_error [VDict [(AStr "a", vint 1)]; VDict [(AStr "a", vint 2)]] i).
Proof.
  split; [reflexivity|].
  exact (assign_with_index_is_local
           [VDict [(AStr "a", vint 1)]; VDict [(AStr "a", vint 2)]]
           "a" (vint 9) (Some (IdxStr "end")) 1%Z eq_refl).
Defined.

(** X23: when a subsection is found inside a list, the position returned is
    that of an element that is the key itself or a Map holding the key, the
    value returned being that element or what the Map holds; and when a
    position was asked for, integer, [start] or [end], it is that one. *)
Theorem subsection_found_in_list :
  forall l key section_idx v i,
    _get_subsection (VList l) key section_idx = (v, Some i) ->
    (exists element,
       nth_error l i = Some element /\
       ((py_eq element (vstr key) = true /\ v = element) \/
        (exists d, element = VDict d /\ dict_get d (AStr key) = Some v))) /\
    (forall n,
       resolve_section_idx (List.length l) section_idx = Some (IdxInt n) ->
       Z.of_nat i = n).
Proof.
  intros l key sidx v i H. cbn [_get_subsection] in H.
  destruct (get_in_list_found _ _ _ _ _ _ H) as (j & e & Hi & Hnth & Hsel & Hm).
  cbn in Hi. subst j. split.
  - now exists e.
  - intros n Hn. rewrite Hn in Hsel. cbn in Hsel. now apply Z.eqb_eq in Hsel.
Qed.

Lemma subsection_found_in_list_witness :
  _get_subsection (VList [VDict [(AStr "a", vint 1)]; VDict [(AStr "a", vint 2)]])
    "a" (Some (IdxInt 1)) = (vint 2, Some 1%nat) /\
  (forall n,
     resolve_section_idx
       (List.length [VDict [(AStr "a", vint 1)]; VDict [(AStr "a", vint 2)]])
       (Some (IdxInt 1)) = Some (IdxInt n) ->
     Z.of_nat 1 = n).
Proof.
  split; [reflexivity|].
  exact (proj2 (subsection_found_in_list
                  [VDict [(AStr "a", vint 1)]; VDict [(AStr "a", vint 2)]]
                  "a" (Some (IdxInt 1)) (vint 2) 1%nat eq_refl)).
Defined.

(** ** More on the merge *)

Lemma canon_eqb_sym x y : canon_eqb x y = canon_eqb y x.
Proof.
  destruct x, y; cbn; try reflexivity.
  - now rewrite (Z.eqb_sym m), (Z.eqb_sym e).
  - now destruct neg, neg0.
  - apply String.eqb_sym.
Qed.

Lemma atom_eqb_sym a b : atom_eqb a b = atom_eqb b a.
Proof. apply canon_eqb_sym. Qed.

Lemma dict_get_app {V : Type} (a b : list (atom * V)) k :
  dict_get (a ++ b) k =
  match dict_get a k with
  | Some v => Some v
  | None => dict_get b k
  end.
Proof.
  induction a as [|[k' v'] a IH]; cbn; [reflexivity|].
  now destruct (atom_eqb k' k).
Qed.

Lemma fresh_key_differs (tl : dict) key :
  dict_mem tl key = false ->
  Forall (fun e => atom_eqb key (fst e) = false) tl.
Proof.
  unfold dict_mem. induction tl as [|[k v] tl IH]; intros H; constructor.
  - cbn in H |- *. rewrite atom_eqb_sym. now destruct (atom_eqb k key).
  - apply IH. cbn in H. now destruct (atom_eqb k key).
Qed.

Lemma deep_merge_disjoint (B : dict) : forall acc,
  distinct_keys B = true ->
  Forall (fun e => dict_get acc (fst e) = None) B ->
  _deep_merge_dicts acc B = acc ++ B.
Proof.
  induction B as [|[key x] tl IH]; intros acc Hd Hacc.
  - cbn. now rewrite app_nil_r.
  - cbn [distinct_keys] in Hd. apply andb_prop in Hd as [Hfresh Hd].
    apply negb_true_iff in Hfresh.
    inversion Hacc as [|? ? Hkey Htl]; subst. cbn [fst] in Hkey.
    rewrite deep_merge_cons, Hkey, (dict_set_absent acc key x Hkey).
    rewrite IH; [now rewrite <- app_assoc|exact Hd|].
    pose proof (fresh_key_differs tl key Hfresh) as Hdiff.
    clear - Htl Hdiff. induction tl as [|e tl IHtl]; constructor.
    + inversion Htl; inversion Hdiff; subst. rewrite dict_get_app.
      cbn. now rewrite H1, H5.
    + inversion Htl; inversion Hdiff; subst. now apply IHtl.
Qed.

(** X24: merging a Map into an empty document gives that Map, entry for
    entry and in its order. *)
Theorem merge_into_empty :
  forall B : dict,
    distinct_keys B = true ->
    fst (_merge_configs [] B) = B.
Proof.
  intros B HB. cbn [_merge_configs fst].
  rewrite (deep_merge_disjoint B [] HB); [reflexivity|].
  clear HB. induction B; constructor; [reflexivity|exact IHB].
Qed.

Lemma merge_into_empty_witness :
  distinct_keys doc_b = true /\ fst (_merge_configs [] doc_b) = doc_b.
Proof.
  split; [reflexivity|]. exact (merge_into_empty doc_b eq_refl).
Defined.

Lemma map_fst_dict_set {V : Type} (d : list (atom * V)) k x :
  map fst (dict_set d k x) =
  match dict_get d k with
  | Some _ => map fst d
  | None => map fst d ++ [k]
  end.
Proof.
  induction d as [|[k' v'] d IH]; cbn; [reflexivity|].
  destruct (atom_eqb k' k); cbn; [reflexivity|].
  rewrite IH. now destruct (dict_get d k).
Qed.

Lemma deep_merge_keys (B : dict) : forall A,
  exists extra,
    map fst (_deep_merge_dicts A B) = map fst A ++ extra /\
    (forall k, In k extra -> In k (map fst B) /\ dict_get A k = None).
Proof.
  induction B as [|[key x] tl IH]; intros A.
  - exists []. cbn. rewrite app_nil_r. split; [reflexivity|]. intros k [].
  - rewrite deep_merge_cons.
    destruct (dict_get A key) as [x1|] eqn:Hk.
    + set (A' := match x1 with
                 | VDict a =>
                     match x with
                     | VDict b => dict_set A key (VDict (_deep_merge_dicts a b))
                     | _ => if py_eq x1 x then A else dict_set A key x
                     end
                 | _ => if py_eq x1 x then A else dict_set A key x
                 end).
      assert (HA' : map fst A' = map fst A /\
                    forall k, dict_get A' k = None -> dict_get A k = None).
      { assert (Hset : forall w, map fst (dict_set A key w) = map fst A /\
                         forall k, dict_get (dict_set A key w) k = None ->
                                   dict_get A k = None).
        { intros w. split; [now rewrite map_fst_dict_set, Hk|].
          intros k Hn. destruct (atom_eqb key k) eqn:E.
          - now rewrite (dict_get_set_eq A key k w E) in Hn.
          - now rewrite (dict_get_set_neq A key k w E) in Hn. }
        unfold A'. destruct x1 as [a1|l1|a]; [| |destruct x as [a2|l2|b]];
          try (destruct (py_eq _ _); [now split|apply Hset]); apply Hset. }
      destruct HA' as [Hkeys Hnone].
      replace (match x1 with
               | VDict a =>
                   match x with
                   | VDict b => dict_set A key (VDict (_deep_merge_dicts a b))
                   | _ => if py_eq x1 x then A else dict_set A key x
                   end
               | _ => if py_eq x1 x then A else dict_set A key x
               end) with A' by reflexivity.
      destruct (IH A') as (extra & He & Hin).
      exists extra. rewrite He, Hkeys. split; [reflexivity|].
      intros k Hkin. destruct (Hin k Hkin) as [H1 H2].
      split; [now right|now apply Hnone].
    + destruct (IH (dict_set A key x)) as (extra & He & Hin).
      exists (key :: extra). rewrite He, map_fst_dict_set, Hk.
      split; [now rewrite <- app_assoc|].
      intros k [<-|Hkin].
      * split; [now left|exact Hk].
      * destruct (Hin k Hkin) as [H1 H2]. split; [now right|].
        rewrite (dict_set_absent A key x Hk), dict_get_app in H2.
        now destruct (dict_get A k).
Qed.

(** X25: the merge keeps the entries of the primary Map in their places:
    the keys of the result are the keys of the primary, in their order,
    followed by keys that come from the secondary and that the primary
    lacked. *)
Theorem merge_keeps_primary_order :
  forall A B : dict,
    exists extra,
      map fst (fst (_merge_configs A B)) = map fst A ++ extra /\
      (forall k, In k extra -> In k (map fst B) /\ dict_get A k = None).
Proof.
  intros A B. cbn [_merge_configs fst].
  destruct (deep_merge_keys B A) as (extra & He & Hin).
  exists extra. split; [exact He|exact Hin].
Qed.

Lemma dict_get_in (d : dict) k x :
  distinct_keys d = true ->
  In (k, x) d ->
  atom_eqb k k = true ->
  dict_get d k = Some x.
Proof.
  induction d as [|[k' x'] d IH]; intros Hd Hin Hk; [now destruct Hin|].
  cbn [distinct_keys] in Hd. apply andb_prop in Hd as [Hfresh Hd].
  apply negb_true_iff in Hfresh. cbn [dict_get].
  destruct Hin as [Heq|Hin].
  - inversion Heq; subst. now rewrite Hk.
  - pose proof (fresh_key_differs d k' Hfresh) as Hdiff.
    rewrite Forall_forall in Hdiff. pose proof (Hdiff _ Hin) as Hne.
    cbn [fst] in Hne. rewrite Hne. now apply IH.
Qed.

(** merging entries that the document already holds, as they are, changes
    nothing *)
Lemma deep_merge_held (M : dict) (es : dict) :
  (forall k x, In (k, x) es ->
     exists y, dict_get M k = Some y /\
       match y, x with
       | VDict a, VDict b => _deep_merge_dicts a b = a
       | _, _ => py_eq y x = true \/ y = x
       end) ->
  _deep_merge_dicts M es = M.
Proof.
  induction es as [|[key x] tl IH]; intros H; [reflexivity|].
  rewrite deep_merge_cons.
  destruct (H key x (or_introl eq_refl)) as (y & Hy & Hcase).
  rewrite Hy.
  assert (Hstep : match y with
                  | VDict a =>
                      match x with
                      | VDict b => dict_set M key (VDict (_deep_merge_dicts a b))
                      | _ => if py_eq y x then M else dict_set M key x
                      end
                  | _ => if py_eq y x then M else dict_set M key x
                  end = M).
  { assert (Hleaf : py_eq y x = true \/ y = x ->
                    (if py_eq y x then M else dict_set M key x) = M).
    { intros [-> | <-]; [reflexivity|].
      destruct (py_eq y y); [reflexivity|now apply dict_set_same]. }
    destruct y as [ay|ly|a]; [now apply Hleaf|now apply Hleaf|].
    destruct x as [ax|lx|b]; [now apply Hleaf|now apply Hleaf|].
    rewrite Hcase. now apply dict_set_same. }
  destruct y as [ay|ly|a].
  - rewrite Hstep. apply IH. intros k x' Hin. apply H. now right.
  - rewrite Hstep. apply IH. intros k x' Hin. apply H. now right.
  - destruct x as [ax|lx|b].
    + rewrite Hstep. apply IH. intros k x' Hin. apply H. now right.
    + rewrite Hstep. apply IH. intros k x' Hin. apply H. now right.
    + rewrite Hstep. apply IH. intros k x' Hin. apply H. now right.
Qed.

Lemma well_keyed_entry (d : dict) k x :
  well_keyed (VDict d) = true ->
  In (k, x) d ->
  dict_get d k = Some x /\ atom_eqb k k = true /\ well_keyed x = true.
Proof.
  cbn [well_keyed]. intros H Hin. apply andb_prop in H as [Hd Hall].
  rewrite forallb_forall in Hall. specialize (Hall _ Hin). cbn in Hall.
  apply andb_prop in Hall as [Hk Hx].
  split; [now apply dict_get_in|now split].
Qed.

(** merging a Map into itself changes nothing *)
Lemma deep_merge_self v :
  well_keyed v = true ->
  match v with
  | VDict b => _deep_merge_dicts b b = b
  | _ => True
  end.
Proof.
  induction v as [a|l IH|b IH] using value_induction; intros Hw; [exact I|exact I|].
  apply deep_merge_held. intros k x Hin.
  destruct (well_keyed_entry b k x Hw Hin) as (Hget & Hk & Hx).
  exists x. split; [exact Hget|].
  rewrite Forall_forall in IH. specialize (IH _ Hin Hx). cbn [snd] in IH.
  destruct x; auto.
Qed.

Lemma deep_merge_twice v :
  well_keyed v = true ->
  match v with
  | VDict b =>
      forall a, _deep_merge_dicts (_deep_merge_dicts a b) b = _deep_merge_dicts a b
  | _ => True
  end.
Proof.
  induction v as [a|l IH|B IH] using value_induction; intros Hw; [exact I|exact I|].
  intros A. apply deep_merge_held. intros k x Hin.
  destruct (well_keyed_entry B k x Hw Hin) as (Hget & Hk & Hx).
  assert (HB : distinct_keys B = true)
    by (cbn [well_keyed] in Hw; now apply andb_prop in Hw as [HB _]).
  rewrite (deep_merge_present B A k x HB Hget).
  eexists. split; [reflexivity|].
  rewrite Forall_forall in IH. specialize (IH _ Hin Hx). cbn [snd] in IH.
  pose proof (deep_merge_self x Hx) as Hself.
  unfold merged_entry.
  destruct (dict_get A k) as [x1|].
  - destruct x1 as [a1|l1|a].
    + destruct (py_eq (VAtom a1) x) eqn:E.
      * destruct x; auto.
      * destruct x; auto.
    + destruct (py_eq (VList l1) x) eqn:E.
      * destruct x; auto.
      * destruct x; auto.
    + destruct x as [a2|l2|b].
      * destruct (py_eq (VDict a) (VAtom a2)) eqn:E; auto.
      * destruct (py_eq (VDict a) (VList l2)) eqn:E; auto.
      * apply IH.
  - destruct x; auto.
Qed.

(** X26: merging the same Map a second time changes nothing: what the
    first merge gave is what the second gives, provided the keys of the
    merged Map, at every depth reached through Maps, are pairwise different
    and equal to themselves. *)
Theorem merge_twice_is_merge_once :
  forall A B : dict,
    well_keyed (VDict B) = true ->
    fst (_merge_configs (fst (_merge_configs A B)) B) = fst (_merge_configs A B).
Proof.
  intros A B HB. cbn [_merge_configs fst].
  exact (deep_merge_twice (VDict B) HB A).
Qed.

Lemma merge_twice_is_merge_once_witness :
  well_keyed (VDict doc_b) = true /\
  fst (_merge_configs (fst (_merge_configs doc_a doc_b)) doc_b)
  = fst (_merge_configs doc_a doc_b).
Proof.
  split; [reflexivity|]. exact (merge_twice_is_merge_once doc_a doc_b eq_refl).
Defined.
